(** * papabois: a Telegram bot that identifies plants from photos

    Shallow embedding of the four programs of the repository

      - [main.py]           bot, Kindwise identification + knowledge base
      - [papaboisfinal.py]  the same bot with an OpenRouter "persona" step
      - [plantpersona.py]   variant whose enrichment goes through OpenRouter
      - [plantid.py]        command-line identification

    The programs are sequences of calls to outside parties (the Telegram
    Bot API, the Kindwise API, OpenRouter, the file system).  Every such
    call is appended to a trace, and what it answers -- a value or a raised
    exception -- is read from an environment [Env] indexed by the position
    of the call in the trace.  Quantifying over [Env] therefore quantifies
    over every behaviour of the outside parties, an exception at any call
    included.  The interpreter state [World] carries what the programs
    themselves own: the files on disk, telebot's in-memory state storage
    and the trace.  [logger.*] calls have no effect on any of these and are
    left out. *)

From Stdlib Require Import ZArith List String Ascii Lia Bool.
From Stdlib Require Import Floats.SpecFloat.
From stdpp Require Import base option list gmap strings pretty.

Local Open Scope Z_scope.

(** ** Python values *)

(** What a Python call does: return a value or raise; [Raises e] carries
    [str(e)], the only part of an exception the programs look at. *)
Inductive Outcome (A : Type) : Type :=
| Returns (a : A)
| Raises (e : string).
Arguments Returns {A} a.
Arguments Raises {A} e.

Definition is_raise {A} (o : Outcome A) : bool :=
  match o with Returns _ => false | Raises _ => true end.

(** A key of a JSON object as Python sees it: missing, present with
    [None] (JSON null), or present with a value. *)
Inductive Field (A : Type) : Type :=
| Absent
| Null
| Present (a : A).
Arguments Absent {A}.
Arguments Null {A}.
Arguments Present {A} a.

Global Instance Field_eq_dec {A} `{EqDecision A} : EqDecision (Field A).
Proof. solve_decision. Defined.

Definition bytes := list Byte.byte.

Definition LF : string := String (ascii_of_nat 10) EmptyString.

(** [sep.join(l)] *)
Definition py_join (sep : string) (l : list string) : string :=
  String.concat sep l.

(** [s[:n]].  Python slices by code point; the embedded strings hold the
    UTF-8 encoding, so a continuation byte (10xxxxxx) stays with the
    character it belongs to. *)
Definition is_continuation (c : ascii) : bool :=
  let k := nat_of_ascii c in (128 <=? k)%nat && (k <? 192)%nat.

Fixpoint py_take (n : nat) (s : string) : string :=
  match s with
  | EmptyString => EmptyString
  | String c s' =>
      if is_continuation c then String c (py_take n s')
      else match n with
           | O => EmptyString
           | S n' => String c (py_take n' s')
           end
  end.

(** ** Floats and the [:.1%] format

    A confidence is an IEEE binary64 number, [spec_float] with precision
    53.  [format(x, '.1%')] multiplies by 100 in binary64, prints the
    product in fixed notation with one fractional digit, correctly rounded
    (ties to even on the exact binary value), and appends a percent sign. *)

Definition binary64_mul : spec_float -> spec_float -> spec_float :=
  SFmul 53 1024.

Definition float_100 : spec_float := S754_finite false 7036874417766400 (-46).

(** [num / den] rounded to the nearest integer, ties to even ([0 < den]). *)
Definition round_half_even (num den : Z) : Z :=
  let q := num / den in
  let r := num mod den in
  match 2 * r ?= den with
  | Lt => q
  | Gt => q + 1
  | Eq => if Z.even q then q else q + 1
  end.

(** The magnitude [m * 2^e] in tenths, rounded. *)
Definition tenths (m : positive) (e : Z) : Z :=
  if 0 <=? e then Z.pos m * 2 ^ e * 10
  else round_half_even (Z.pos m * 10) (2 ^ (- e)).

Definition sign_str (s : bool) : string := if s then "-" else "".

(** [format(x, '.1f')] *)
Definition format_fixed1 (x : spec_float) : string :=
  match x with
  | S754_nan => "nan"
  | S754_infinity s => sign_str s +:+ "inf"
  | S754_zero s => sign_str s +:+ "0.0"
  | S754_finite s m e =>
      let t := tenths m e in
      sign_str s +:+ pretty (t / 10) +:+ "." +:+ pretty (t mod 10)
  end.

(** [format(x, '.1%')] *)
Definition format_percent1 (x : spec_float) : string :=
  format_fixed1 (binary64_mul x float_100) +:+ "%".

(** ** Data of the outside services *)

(** The [details] dictionary Kindwise returns for the requested keys
    [common_names] and [description]; other keys are never read. *)
Module Details.
Record t : Type := mk {
    common_names : Field (list string);
    description : Field string
  }.
  (** [{}] *)
Definition empty : t := mk Absent Absent.
Global Instance eq_dec : EqDecision t.
Proof. solve_decision. Defined.
End Details.

Global Instance spec_float_eq_dec : EqDecision spec_float.
Proof. solve_decision. Defined.

(** [kindwise.Suggestion], a dataclass: [==] compares field by field and
    is modelled by equality of the record. *)
Module Suggestion.
Record t : Type := mk {
    id : string;
    name : string;
    probability : spec_float;
    details : Details.t
  }.
Global Instance eq_dec : EqDecision t.
Proof. solve_decision. Defined.
End Suggestion.

(** What [hasattr(identification, 'result')] and
    [hasattr(identification.result, 'classification')] can find. *)
Inductive IdResult : Type :=
| NoResult
| NoClassification
| Classification (suggestions : list Suggestion.t).

Module Identification.
Record t : Type := mk {
    access_token : string;
    completed : bool;
    result : IdResult
  }.
End Identification.

(** [api.search(...)]: the access tokens of [search_result.entities]. *)
Module SearchResult.
Record t : Type := mk { entities : list string }.
End SearchResult.

(** [api.ask_question(...)]: [None], an object without [messages], or a
    conversation with the [content] of each message. *)
Inductive Conversation : Type :=
| NoConversation
| NoMessages
| Messages (contents : list string).

(** A [requests.Response]: [json_content] is what
    [response.json()['choices'][0]['message']['content']] evaluates to. *)
Module Response.
Record t : Type := mk {
    status_code : Z;
    text : string;
    json_content : Outcome string
  }.
End Response.

(** ** Telegram messages *)

Inductive ContentType : Type :=
| ct_text | ct_audio | ct_document | ct_animation | ct_photo | ct_sticker
| ct_video | ct_video_note | ct_voice | ct_location | ct_contact | ct_venue
| ct_dice | ct_poll.

Global Instance ContentType_eq_dec : EqDecision ContentType.
Proof. solve_decision. Defined.

Module Message.
Record t : Type := mk {
    message_id : Z;
    from_user_id : Z;        (* message.from_user.id *)
    chat_id : Z;             (* message.chat.id *)
    content_type : ContentType;
    text : string;
    photo : list string      (* file_id of each PhotoSize *)
  }.
End Message.

(** ** The world and the trace of calls *)

Inductive UserState : Type := waiting_for_photo.

Global Instance UserState_eq_dec : EqDecision UserState.
Proof. solve_decision. Defined.

Inductive Call : Type :=
| ReplyTo (chat_id message_id : Z) (text : string) (markdown : bool)
| EditMessageText (text : string) (chat_id message_id : Z) (markdown : bool)
| GetFile (file_id : string)
| DownloadFile (file_path : string)
| OpenWb (path : string)
| Identify (image_path : string) (asynchronous : bool)
| GetIdentification (token : string)
| Search (name : string)
| GetKbDetail (token : string)
| AskQuestion (token question : string)
| RequestsPost (model prompt : string)
| Print (line : string).

Record Event : Type := mkEvent { ev_call : Call; ev_raised : bool }.

Record World : Type := mkWorld {
  files : gmap string bytes;            (* regular files, by path *)
  states : gmap (Z * Z) UserState;      (* StateMemoryStorage: (chat, user) *)
  trace : list Event
}.

(** What [open(path, 'wb')] followed by [write(data)] can do. *)
Inductive WriteOutcome : Type :=
| OpenFails (e : string)
| WriteFails (e : string) (written : nat)
| Written.

(** The answers of the outside parties; the argument is the position of
    the call in the trace. *)
Record Env : Type := mkEnv {
  on_reply_to : nat -> Outcome Z;       (* message_id of the message sent *)
  on_edit_message_text : nat -> Outcome unit;
  on_get_file : nat -> Outcome string;  (* file_info.file_path *)
  on_download_file : nat -> Outcome bytes;
  on_open_wb : nat -> WriteOutcome;
  on_identify : nat -> Outcome Identification.t;
  on_get_identification : nat -> Outcome Identification.t;
  on_search : nat -> Outcome SearchResult.t;
  on_get_kb_detail : nat -> Outcome Details.t;
  on_ask_question : nat -> Outcome Conversation;
  on_requests_post : nat -> Outcome Response.t
}.

(** ** The monad of the handlers: state and exceptions *)

Definition M (A : Type) : Type := World -> Outcome A * World.

Definition ret {A} (a : A) : M A := fun w => (Returns a, w).

Definition raise {A} (e : string) : M A := fun w => (Raises e, w).

Definition bind {A B} (m : M A) (k : A -> M B) : M B :=
  fun w =>
    match m w with
    | (Returns a, w') => k a w'
    | (Raises e, w') => (Raises e, w')
    end.

Declare Scope py_scope.
Delimit Scope py_scope with py.
Notation "x <- m ;; k" := (bind m (fun x => k))
  (at level 100, m at next level, right associativity) : py_scope.
Notation "m ;;; k" := (bind m (fun _ => k))
  (at level 100, right associativity) : py_scope.
Local Open Scope py_scope.

(** [try: body / except Exception as e: handler(str(e))] *)
Definition try_except {A} (body : M A) (handler : string -> M A) : M A :=
  fun w =>
    match body w with
    | (Returns a, w') => (Returns a, w')
    | (Raises e, w') => handler e w'
    end.

(** [try: body / except Exception: logger.error(...)] around statements
    that update a local value: when [body] raises, the value keeps what it
    had when the block was entered. *)
Definition keep_on_error {A} (before : A) (body : M A) : M A :=
  try_except body (fun _ => ret before).

(** [try: body / finally: cleanup]: the cleanup runs however the body
    leaves, and an exception of the cleanup replaces the body's outcome. *)
Definition try_finally {A} (body : M A) (cleanup : M unit) : M A :=
  fun w =>
    match body w with
    | (r, w') =>
        match cleanup w' with
        | (Returns _, w'') => (r, w'')
        | (Raises e, w'') => (Raises e, w'')
        end
    end.

Definition new_events (w w' : World) : list Event :=
  drop (length (trace w)) (trace w').

Section Primitives.
Variable env : Env.

  (** Record call [c], answered by [answer] at the current position. *)
Definition call {A} (c : Call) (answer : nat -> Outcome A) : M A :=
    fun w =>
      let o := answer (length (trace w)) in
      (o, mkWorld (files w) (states w)
                  (trace w ++ [mkEvent c (is_raise o)])).

  (** *** telebot *)

Definition bot_reply_to (message : Message.t) (text : string)
      (markdown : bool) : M Z :=
    call (ReplyTo (Message.chat_id message) (Message.message_id message) text
            markdown)
         (on_reply_to env).

Definition bot_edit_message_text (text : string) (chat_id message_id : Z)
      (markdown : bool) : M unit :=
    call (EditMessageText text chat_id message_id markdown)
         (on_edit_message_text env).

Definition bot_get_file (file_id : string) : M string :=
    call (GetFile file_id) (on_get_file env).

Definition bot_download_file (file_path : string) : M bytes :=
    call (DownloadFile file_path) (on_download_file env).

  (** [bot.set_state(user_id, state, chat_id)] on the memory storage. *)
Definition bot_set_state (user_id : Z) (s : UserState) (chat_id : Z)
      : M unit :=
    fun w =>
      (Returns tt,
       mkWorld (files w) (<[(chat_id, user_id) := s]> (states w)) (trace w)).

  (** [bot.delete_state(user_id, chat_id)] *)
Definition bot_delete_state (user_id chat_id : Z) : M unit :=
    fun w =>
      (Returns tt,
       mkWorld (files w) (delete (chat_id, user_id) (states w)) (trace w)).

  (** *** files *)

  (** [Path(p).is_file()] and [os.path.exists(p)] *)
Definition path_is_file (p : string) : M bool :=
    fun w => (Returns (bool_decide (is_Some (files w !! p))), w).

  (** [os.remove(p)] of an existing file *)
Definition os_remove (p : string) : M unit :=
    fun w => (Returns tt, mkWorld (delete p (files w)) (states w) (trace w)).

  (** [with open(p, 'wb') as f: f.write(data)]: opening creates or
      truncates the file; a failed write leaves what was written. *)
Definition write_file (p : string) (data : bytes) : M unit :=
    fun w =>
      let o := on_open_wb env (length (trace w)) in
      let tr := trace w ++ [mkEvent (OpenWb p)
                  (match o with Written => false | _ => true end)] in
      match o with
      | OpenFails e => (Raises e, mkWorld (files w) (states w) tr)
      | WriteFails e k =>
          (Raises e, mkWorld (<[p := take k data]> (files w)) (states w) tr)
      | Written => (Returns tt, mkWorld (<[p := data]> (files w)) (states w) tr)
      end.

  (** *** Kindwise *)

Definition api_identify (image_path : string) (asynchronous : bool)
      : M Identification.t :=
    call (Identify image_path asynchronous) (on_identify env).

Definition api_get_identification (token : string) : M Identification.t :=
    call (GetIdentification token) (on_get_identification env).

Definition api_search (name : string) : M SearchResult.t :=
    call (Search name) (on_search env).

Definition api_get_kb_detail (token : string) : M Details.t :=
    call (GetKbDetail token) (on_get_kb_detail env).

Definition api_ask_question (token question : string) : M Conversation :=
    call (AskQuestion token question) (on_ask_question env).

  (** *** OpenRouter and standard output *)

Definition requests_post (model prompt : string) : M Response.t :=
    call (RequestsPost model prompt) (on_requests_post env).

Definition print (line : string) : M unit :=
    call (Print line) (fun _ => Returns tt).
End Primitives.

(** ** Results of an identification *)

(** The [plant_info] dictionary of [main.py] and [papaboisfinal.py]:
    ["healing_properties"] is a key that may be missing. *)
Module PlantInfo.
Record t : Type := mk {
    name : string;
    confidence : spec_float;
    details : Details.t;
    healing_properties : option string
  }.
Definition set_details (p : t) (d : Details.t) : t :=
    mk (name p) (confidence p) d (healing_properties p).
Definition set_healing_properties (p : t) (h : string) : t :=
    mk (name p) (confidence p) (details p) (Some h).
End PlantInfo.

(** [{"error": msg}] or [{"success": True, "results": results}] *)
Inductive IdentifyResult (P : Type) : Type :=
| Error (msg : string)
| Success (results : list P).
Arguments Error {P} msg.
Arguments Success {P} results.

Definition INDEX_ERROR : string := "list index out of range".

Definition QUESTION : string :=
  "What are the traditional medicinal and healing properties of this plant?".

(** [f"temp_plant_{message.from_user.id}.jpg"] *)
Definition temp_photo_path (message : Message.t) : string :=
  "temp_plant_" +:+ pretty (Message.from_user_id message) +:+ ".jpg".

(** The locals that the [finally] block of [handle_photo] inspects:
    [photo_path] is bound once the download has returned. *)
Definition cleanup (message : Message.t)
    (photo_path : option string) : M unit :=
  (match photo_path with
   | Some p =>
       there <- path_is_file p ;;
       if (there : bool) then os_remove p else ret tt
   | None => ret tt
   end) ;;;
  bot_delete_state (Message.from_user_id message) (Message.chat_id message).

(** ** telebot's dispatch of an update

    [@bot.message_handler(commands=..., content_types=..., state=...)]
    registers a handler with its filters; [content_types] defaults to
    [['text']].  An incoming message goes to the first registered handler
    all of whose filters pass, and to none when no handler matches. *)

Definition is_space (c : ascii) : bool :=
  let k := nat_of_ascii c in
  ((9 <=? k)%nat && (k <=? 13)%nat) || ((28 <=? k)%nat && (k <=? 32)%nat).

Fixpoint command_name (s : string) : string :=
  match s with
  | EmptyString => EmptyString
  | String c s' =>
      if is_space c || bool_decide (c = "@"%char) then EmptyString
      else String c (command_name s')
  end.

(** [telebot.util.extract_command]:
    [text.split()[0].split('@')[0][1:] if text.startswith('/') else None] *)
Definition extract_command (text : string) : option string :=
  match text with
  | String "/" rest => Some (command_name rest)
  | _ => None
  end.

Record Handler : Type := mkHandler {
  h_commands : option (list string);
  h_content_types : list ContentType;
  h_state : option UserState;
  h_run : Message.t -> M unit
}.

Definition test_commands (commands : list string) (message : Message.t)
    : bool :=
  bool_decide (Message.content_type message = ct_text)
  && match extract_command (Message.text message) with
     | Some c => bool_decide (c ∈ commands)
     | None => false
     end.

(** [StateFilter]: the state stored for the chat and user of the message. *)
Definition test_state (s : UserState) (message : Message.t) (w : World)
    : bool :=
  bool_decide
    (states w !! (Message.chat_id message, Message.from_user_id message)
     = Some s).

Definition test_message_handler (h : Handler) (message : Message.t)
    (w : World) : bool :=
  bool_decide (Message.content_type message ∈ h_content_types h)
  && match h_commands h with
     | Some commands => test_commands commands message
     | None => true
     end
  && match h_state h with
     | Some s => test_state s message w
     | None => true
     end.

Fixpoint process_new_message (handlers : list Handler) (message : Message.t)
    : M unit :=
  match handlers with
  | [] => ret tt
  | h :: handlers' =>
      fun w =>
        if test_message_handler h message w then h_run h message w
        else process_new_message handlers' message w
  end.

(** The state of the sender of [message]: [None] is [idle]. *)
Definition user_state (w : World) (message : Message.t) : option UserState :=
  states w !! (Message.chat_id message, Message.from_user_id message).

(** * main.py *)
Module main.
Section Program.
Variable env : Env.

Definition HERB : string := "üåø".
Definition CAMERA : string := "üì∏".
Definition MAGNIFIER : string := "üîç".
Definition CROSS : string := "‚ùå".

  (** Lines 73-94: the body of the inner [try].  An exception of the
      search or of the detail request leaves [plant_info] as it was; one
      of the question leaves the details already stored. *)
Definition additional_details (identification : Identification.t)
      (suggestions : list Suggestion.t) (suggestion : Suggestion.t)
      (plant_info : PlantInfo.t) : M PlantInfo.t :=
    keep_on_error plant_info
      (search_result <- api_search env (Suggestion.name suggestion) ;;
       plant_info <-
         match SearchResult.entities search_result with
         | entity :: _ =>
             details <- api_get_kb_detail env entity ;;
             ret (PlantInfo.set_details plant_info details)
         | [] => ret plant_info
         end ;;
       keep_on_error plant_info
         (if bool_decide (Some suggestion = head suggestions) then
            healing_props <-
              api_ask_question env
                (Identification.access_token identification) QUESTION ;;
            match healing_props with
            | Messages contents =>
                match last contents with
                | Some content =>
                    ret (PlantInfo.set_healing_properties plant_info content)
                | None => raise INDEX_ERROR
                end
            | NoConversation | NoMessages => ret plant_info
            end
          else ret plant_info)).

  (** Lines 66-96: [for suggestion in suggestions[:3]], over what is left
      of the slice. *)
Fixpoint for_suggestions (identification : Identification.t)
      (suggestions rest : list Suggestion.t) (results : list PlantInfo.t)
      : M (list PlantInfo.t) :=
    match rest with
    | [] => ret results
    | suggestion :: rest' =>
        plant_info <-
          additional_details identification suggestions suggestion
            (PlantInfo.mk (Suggestion.name suggestion)
               (Suggestion.probability suggestion) Details.empty None) ;;
        for_suggestions identification suggestions rest'
          (results ++ [plant_info])
    end.

  (** Lines 38-102 *)
Definition identify_plant_from_path (image_path : string)
      : M (IdentifyResult PlantInfo.t) :=
    try_except
      (is_file <- path_is_file image_path ;;
       if negb is_file then raise ("Image file not found: " +:+ image_path)
       else
         identification <- api_identify env image_path false ;;
         match Identification.result identification with
         | NoResult | NoClassification =>
             ret (Error "No classification results available")
         | Classification suggestions =>
             match suggestions with
             | [] => ret (Error "No plant matches found")
             | _ :: _ =>
                 results <-
                   for_suggestions identification suggestions
                     (take 3 suggestions) [] ;;
                 ret (Success results)
             end
         end)
      (fun e => ret (Error e)).

  (** Lines 104-119 *)
Definition cmd_start (message : Message.t) : M unit :=
    bot_reply_to env message
      (HERB +:+ " Welcome! This bot identifies plants from photos using Kindwise."
       +:+ LF +:+ "Type /whois_plant to begin.") false ;;;
    ret tt.

Definition cmd_whois_plant (message : Message.t) : M unit :=
    bot_set_state (Message.from_user_id message) waiting_for_photo
      (Message.chat_id message) ;;;
    bot_reply_to env message
      (CAMERA +:+ " Please send me a photo of the plant you want to identify.")
      false ;;;
    ret tt.

  (** Lines 151-164: one round of the formatting loop. *)
Definition format_plant (idx : nat) (plant : PlantInfo.t)
      (response : string) : string :=
    let response :=
      response +:+ pretty idx +:+ ". *" +:+ PlantInfo.name plant +:+ "*" +:+ LF in
    let response :=
      response +:+ "   Confidence: "
      +:+ format_percent1 (PlantInfo.confidence plant) +:+ LF in
    let response :=
      match Details.common_names (PlantInfo.details plant) with
      | Present (n :: ns) =>
          response +:+ "   Common names: " +:+ py_join ", " (n :: ns) +:+ LF
      | _ => response
      end in
    let response :=
      match Details.description (PlantInfo.details plant) with
      | Present (String c d) =>
          response +:+ "   Description: " +:+ py_take 200 (String c d)
          +:+ "..." +:+ LF
      | _ => response
      end in
    let response :=
      match idx, PlantInfo.healing_properties plant with
      | 1%nat, Some h =>
          response +:+ LF +:+ "   Healing Properties:" +:+ LF +:+ "   "
          +:+ py_take 200 h +:+ "..." +:+ LF
      | _, _ => response
      end in
    response +:+ LF.

Fixpoint format_loop (idx : nat) (results : list PlantInfo.t)
      (response : string) : string :=
    match results with
    | [] => response
    | plant :: results' =>
        format_loop (S idx) results' (format_plant idx plant response)
    end.

  (** Lines 150-164 *)
Definition format_response (results : list PlantInfo.t) : string :=
    format_loop 1 results
      (HERB +:+ " *Plant Identification Results*" +:+ LF +:+ LF).

  (** Lines 126-131: up to the download; [photo_path] is not bound yet. *)
Definition receive_photo (message : Message.t) : M (Z * bytes) :=
    processing_msg <-
      bot_reply_to env message
        (MAGNIFIER +:+ " Processing your plant photo... Please wait...")
        false ;;
    file_id <-
      match last (Message.photo message) with
      | Some f => ret f
      | None => raise INDEX_ERROR
      end ;;
    file_path <- bot_get_file env file_id ;;
    downloaded_file <- bot_download_file env file_path ;;
    ret (processing_msg, downloaded_file).

  (** Lines 135-172: from the write to the reply. *)
Definition identify_and_reply (message : Message.t) (processing_msg : Z)
      (downloaded_file : bytes) (photo_path : string) : M unit :=
    write_file env photo_path downloaded_file ;;;
    identification_result <- identify_plant_from_path photo_path ;;
    match identification_result with
    | Error e =>
        bot_edit_message_text env (CROSS +:+ " " +:+ e)
          (Message.chat_id message) processing_msg false
    | Success results =>
        bot_edit_message_text env (format_response results)
          (Message.chat_id message) processing_msg true
    end.

  (** Lines 174-176 *)
Definition report_error (message : Message.t) (e : string) : M unit :=
    bot_reply_to env message (CROSS +:+ " An error occurred: " +:+ e) false ;;;
    ret tt.

  (** Lines 121-182 *)
Definition handle_photo (message : Message.t) : M unit :=
    fun w =>
      match receive_photo message w with
      | (Raises e, w1) =>
          try_finally (report_error message e) (cleanup message None) w1
      | (Returns (processing_msg, downloaded_file), w1) =>
          let photo_path := temp_photo_path message in
          try_finally
            (try_except
               (identify_and_reply message processing_msg downloaded_file
                  photo_path)
               (report_error message))
            (cleanup message (Some photo_path)) w1
      end.

  (** Lines 184-187 *)
Definition handle_invalid_input (message : Message.t) : M unit :=
    bot_reply_to env message
      ("Please send a photo " +:+ CAMERA
       +:+ " of the plant you want to identify.") false ;;;
    ret tt.
(** The handlers of [main.py] in the order of their decorators. *)
Definition message_handlers : list Handler :=
  [ mkHandler (Some ["start"]) [ct_text] None cmd_start;
    mkHandler (Some ["whois_plant"]) [ct_text] None cmd_whois_plant;
    mkHandler None [ct_photo] (Some waiting_for_photo) handle_photo;
    mkHandler None [ct_text; ct_document; ct_audio; ct_video]
      (Some waiting_for_photo) handle_invalid_input ].

(** One update handled by the polling loop; an exception that escapes a
    handler is logged by [infinity_polling] and the loop goes on. *)
Definition dispatch (message : Message.t) (w : World) : World :=
  snd (process_new_message message_handlers message w).
End Program.
End main.

Definition lift_outcome {A} (o : Outcome A) : M A := fun w => (o, w).

(** [TypeError] of [', '.join(None)] *)
Definition JOIN_ERROR : string := "can only join an iterable".

(** [', '.join(d.get('common_names', []))] *)
Definition joined_common_names (f : Field (list string)) : Outcome string :=
  match f with
  | Absent => Returns (py_join ", " [])
  | Null => Raises JOIN_ERROR
  | Present l => Returns (py_join ", " l)
  end.

(** [f"{d.get(key, default)}"] for a text field *)
Definition shown_or (default : string) (f : Field string) : string :=
  match f with
  | Absent => default
  | Null => "None"
  | Present s => s
  end.

(** * The handlers that [papaboisfinal.py] (lines 198-283) and
    [plantpersona.py] (lines 168-253) share word for word; they differ in
    the [identify_plant_from_path] and [get_plant_persona] they call. *)
Module persona_handlers.
Section Handlers.
Variable env : Env.
Context {P : Type}.
Variable name_of : P -> string.              (* plant['name'] *)
Variable confidence_of : P -> spec_float.    (* plant['confidence'] *)
Variable identify_plant_from_path : string -> M (IdentifyResult P).
Variable get_plant_persona : P -> M string.

Definition HERB : string := "🌿".
Definition CAMERA : string := "📸".
Definition MAGNIFIER : string := "🔍".
Definition CROSS : string := "❌".
Definition STAR : string := "🌟".
Definition SPARKLES : string := "✨".

Definition cmd_start (message : Message.t) : M unit :=
  bot_reply_to env message
    (HERB +:+ " Welcome! This bot identifies plants from photos using Kindwise."
     +:+ LF +:+ "Type /whois_plant to begin.") false ;;;
  ret tt.

Definition cmd_whois_plant (message : Message.t) : M unit :=
  bot_set_state (Message.from_user_id message) waiting_for_photo
    (Message.chat_id message) ;;;
  bot_reply_to env message
    (CAMERA +:+ " Please send me a photo of the plant you want to identify.")
    false ;;;
  ret tt.

(** One round of the formatting loop. *)
Definition format_plant (idx : nat) (plant : P) (response : string) : string :=
  let response :=
    response +:+ pretty idx +:+ ". *" +:+ name_of plant +:+ "*" +:+ LF in
  response +:+ "   Confidence: " +:+ format_percent1 (confidence_of plant)
  +:+ LF +:+ LF.

Fixpoint format_loop (idx : nat) (results : list P) (response : string)
    : string :=
  match results with
  | [] => response
  | plant :: results' =>
      format_loop (S idx) results' (format_plant idx plant response)
  end.

Definition format_response (results : list P) : string :=
  format_loop 1 results
    (HERB +:+ " *Plant Identification Results*" +:+ LF +:+ LF).

(** Up to the download; [photo_path] is not bound yet. *)
Definition receive_photo (message : Message.t) : M (Z * bytes) :=
  processing_msg <-
    bot_reply_to env message
      (MAGNIFIER +:+ " Processing your plant photo... Please wait...")
      false ;;
  file_id <-
    match last (Message.photo message) with
    | Some f => ret f
    | None => raise INDEX_ERROR
    end ;;
  file_path <- bot_get_file env file_id ;;
  downloaded_file <- bot_download_file env file_path ;;
  ret (processing_msg, downloaded_file).

(** From the write to the plant's message. *)
Definition identify_and_reply (message : Message.t) (processing_msg : Z)
    (downloaded_file : bytes) (photo_path : string) : M unit :=
  write_file env photo_path downloaded_file ;;;
  identification_result <- identify_plant_from_path photo_path ;;
  match identification_result with
  | Error e =>
      bot_edit_message_text env (CROSS +:+ " " +:+ e)
        (Message.chat_id message) processing_msg false
  | Success results =>
      bot_edit_message_text env (format_response results)
        (Message.chat_id message) processing_msg true ;;;
      top_plant <-
        match results with
        | p :: _ => ret p
        | [] => raise INDEX_ERROR
        end ;;
      bot_reply_to env message
        (STAR +:+ " Let me channel the spirit of this plant...") false ;;;
      plant_message <- get_plant_persona top_plant ;;
      bot_reply_to env message
        (SPARKLES +:+ " *A message from your plant:*" +:+ LF +:+ LF
         +:+ plant_message) true ;;;
      ret tt
  end.

Definition report_error (message : Message.t) (e : string) : M unit :=
  bot_reply_to env message (CROSS +:+ " An error occurred: " +:+ e) false ;;;
  ret tt.

Definition handle_photo (message : Message.t) : M unit :=
  fun w =>
    match receive_photo message w with
    | (Raises e, w1) =>
        try_finally (report_error message e) (cleanup message None) w1
    | (Returns (processing_msg, downloaded_file), w1) =>
        let photo_path := temp_photo_path message in
        try_finally
          (try_except
             (identify_and_reply message processing_msg downloaded_file
                photo_path)
             (report_error message))
          (cleanup message (Some photo_path)) w1
    end.

Definition handle_invalid_input (message : Message.t) : M unit :=
  bot_reply_to env message
    ("Please send a photo " +:+ CAMERA
     +:+ " of the plant you want to identify.") false ;;;
  ret tt.

Definition message_handlers : list Handler :=
  [ mkHandler (Some ["start"]) [ct_text] None cmd_start;
    mkHandler (Some ["whois_plant"]) [ct_text] None cmd_whois_plant;
    mkHandler None [ct_photo] (Some waiting_for_photo) handle_photo;
    mkHandler None [ct_text; ct_document; ct_audio; ct_video]
      (Some waiting_for_photo) handle_invalid_input ].

Definition dispatch (message : Message.t) (w : World) : World :=
  snd (process_new_message message_handlers message w).
End Handlers.
End persona_handlers.

(** * papaboisfinal.py *)
Module papaboisfinal.
Section Program.
Variable env : Env.

Definition MEDITATION : string :=
  "I seem to be in deep meditation at the moment... 🌿".
Definition COMMUNING : string :=
  "I am currently communing with nature... Try again later 🌱".

(** Lines 94-103 *)
Definition persona_prompt (plant_info : PlantInfo.t) : Outcome string :=
  match
    joined_common_names (Details.common_names (PlantInfo.details plant_info))
  with
  | Raises e => Raises e
  | Returns common_names =>
      let description :=
        shown_or "Unknown"
          (Details.description (PlantInfo.details plant_info)) in
      let healing_properties :=
        default "Unknown" (PlantInfo.healing_properties plant_info) in
      Returns
        ("You are "
         +:+ PlantInfo.name plant_info
         +:+ ", a mystical plant entity. "
         +:+ LF
         +:+ "Based on this information about yourself:"
         +:+ LF
         +:+ "- Scientific name: "
         +:+ PlantInfo.name plant_info
         +:+ LF
         +:+ "- Common names: "
         +:+ common_names
         +:+ LF
         +:+ "- Description: "
         +:+ description
         +:+ LF
         +:+ "- Healing properties: "
         +:+ healing_properties
         +:+ LF
         +:+ LF
         +:+ "Introduce yourself and tell us about who you are, where you're from, your benefits, and what makes you happy. "
         +:+ LF
         +:+ "Speak in a mystical, wise, and enchanting voice, as if you're an ancient being sharing your wisdom."
         +:+ LF
         +:+ "Keep the response concise but magical.")
  end.

(** Lines 91-132 *)
Definition get_plant_persona (plant_info : PlantInfo.t) : M string :=
  try_except
    (prompt <- lift_outcome (persona_prompt plant_info) ;;
     response <- requests_post env "x-ai/grok-2-1212" prompt ;;
     if Response.status_code response =? 200
     then lift_outcome (Response.json_content response)
     else ret MEDITATION)
    (fun _ => ret COMMUNING).

(** Lines 134-196, the text of [main.py] lines 38-102. *)
Definition identify_plant_from_path
    : string -> M (IdentifyResult PlantInfo.t) :=
  main.identify_plant_from_path env.

Definition handle_photo : Message.t -> M unit :=
  persona_handlers.handle_photo env PlantInfo.name PlantInfo.confidence
    identify_plant_from_path get_plant_persona.

Definition dispatch : Message.t -> World -> World :=
  persona_handlers.dispatch env PlantInfo.name PlantInfo.confidence
    identify_plant_from_path get_plant_persona.
End Program.
End papaboisfinal.

(** * plantpersona.py *)

(** Its [plant_info]: name and confidence, then the keys of
    [suggestion.details] merged in by [update], then the healing text. *)
Module FlatPlantInfo.
Record t : Type := mk {
  name : string;
  confidence : spec_float;
  common_names : Field (list string);
  description : Field string;
  healing_properties : option string
}.
Definition merge {A} (old new : Field A) : Field A :=
  match new with Absent => old | _ => new end.
(** [plant_info.update(details)] *)
Definition update (p : t) (d : Details.t) : t :=
  mk (name p) (confidence p)
     (merge (common_names p) (Details.common_names d))
     (merge (description p) (Details.description d))
     (healing_properties p).
Definition set_healing_properties (p : t) (h : string) : t :=
  mk (name p) (confidence p) (common_names p) (description p) (Some h).
End FlatPlantInfo.

Module plantpersona.
Section Program.
Variable env : Env.

Definition QUIET : string := "The spirits are quiet at the moment... 🌿".
Definition VEILED : string := "Nature's wisdom is temporarily veiled... 🍃".
Definition ELUDES : string :=
  "The ancient wisdom eludes me at this moment... 🌿".
Definition UNDISCOVERED : string := "Properties yet to be discovered...".

(** Lines 46-83 *)
Definition get_openrouter_response (prompt : string) : M string :=
  try_except
    (response <- requests_post env "gpt-3.5-turbo" prompt ;;
     if Response.status_code response =? 200
     then lift_outcome (Response.json_content response)
     else ret QUIET)
    (fun _ => ret VEILED).

(** Lines 88-102 *)
Definition persona_prompt (plant_info : FlatPlantInfo.t) : Outcome string :=
  match joined_common_names (FlatPlantInfo.common_names plant_info) with
  | Raises e => Raises e
  | Returns common_names =>
      let description :=
        shown_or "A mysterious plant of ancient wisdom"
          (FlatPlantInfo.description plant_info) in
      let healing_properties :=
        default "Powers yet to be fully understood"
          (FlatPlantInfo.healing_properties plant_info) in
      Returns
        ("You are "
         +:+ FlatPlantInfo.name plant_info
         +:+ ", speaking as a mystical plant entity."
         +:+ LF
         +:+ "        "
         +:+ LF
         +:+ "Scientific Details:"
         +:+ LF
         +:+ "- Name: "
         +:+ FlatPlantInfo.name plant_info
         +:+ LF
         +:+ "- Common Names: "
         +:+ common_names
         +:+ LF
         +:+ "- Description: "
         +:+ description
         +:+ LF
         +:+ "- Healing Properties: "
         +:+ healing_properties
         +:+ LF
         +:+ LF
         +:+ "Share your story in a mystical, wise voice, covering:"
         +:+ LF
         +:+ "1. Your origins and native lands"
         +:+ LF
         +:+ "2. Your healing powers and gifts to humanity"
         +:+ LF
         +:+ "3. What brings you joy in the natural world"
         +:+ LF
         +:+ "4. Ancient wisdom or warnings you wish to share"
         +:+ LF
         +:+ LF
         +:+ "Remember, speak as the plant itself, sharing deep wisdom while being engaging and unique.")
  end.

(** Lines 85-107 *)
Definition get_plant_persona (plant_info : FlatPlantInfo.t) : M string :=
  try_except
    (prompt <- lift_outcome (persona_prompt plant_info) ;;
     get_openrouter_response prompt)
    (fun _ => ret ELUDES).

(** Lines 109-116 *)
Definition get_healing_properties (plant_name : string) : M string :=
  try_except
    (get_openrouter_response
       ("What are the traditional medicinal and healing properties of "
        +:+ plant_name
        +:+ "? Include both benefits and any potential risks or warnings."))
    (fun _ => ret UNDISCOVERED).

(** Lines 146-160 *)
Fixpoint for_suggestions (suggestions rest : list Suggestion.t)
    (results : list FlatPlantInfo.t) : M (list FlatPlantInfo.t) :=
  match rest with
  | [] => ret results
  | suggestion :: rest' =>
      let plant_info :=
        FlatPlantInfo.mk (Suggestion.name suggestion)
          (Suggestion.probability suggestion) Absent Absent None in
      let plant_info :=
        FlatPlantInfo.update plant_info (Suggestion.details suggestion) in
      plant_info <-
        (if bool_decide (Some suggestion = head suggestions) then
           healing <- get_healing_properties (Suggestion.name suggestion) ;;
           ret (FlatPlantInfo.set_healing_properties plant_info healing)
         else ret plant_info) ;;
      for_suggestions suggestions rest' (results ++ [plant_info])
  end.

(** Lines 118-166 *)
Definition identify_plant_from_path (image_path : string)
    : M (IdentifyResult FlatPlantInfo.t) :=
  try_except
    (is_file <- path_is_file image_path ;;
     if negb is_file then raise ("Image file not found: " +:+ image_path)
     else
       identification <- api_identify env image_path false ;;
       match Identification.result identification with
       | NoResult | NoClassification =>
           ret (Error "No classification results available")
       | Classification suggestions =>
           match suggestions with
           | [] => ret (Error "No plant matches found")
           | _ :: _ =>
               results <-
                 for_suggestions suggestions (take 3 suggestions) [] ;;
               ret (Success results)
           end
       end)
    (fun e => ret (Error e)).

Definition handle_photo : Message.t -> M unit :=
  persona_handlers.handle_photo env FlatPlantInfo.name
    FlatPlantInfo.confidence identify_plant_from_path get_plant_persona.

Definition dispatch : Message.t -> World -> World :=
  persona_handlers.dispatch env FlatPlantInfo.name
    FlatPlantInfo.confidence identify_plant_from_path get_plant_persona.
End Program.
End plantpersona.

(** * plantid.py *)
Module plantid.
Section Program.
Variable env : Env.

Definition RULE : string :=
  "==================================================".

(** ['key' in details] and the use of the value: a key holding [None]
    makes the [join] or the slice raise [TypeError]. *)
Definition print_details (details : Details.t) : M unit :=
  match Details.common_names details with
  | Absent => ret tt
  | Null => raise JOIN_ERROR
  | Present l => print ("   Common names: " +:+ py_join ", " l)
  end ;;;
  match Details.description details with
  | Absent => ret tt
  | Null => raise "'NoneType' object is not subscriptable"
  | Present d => print ("   Description: " +:+ py_take 200 d +:+ "...")
  end.

(** Lines 68-95: the [try] of one round of the loop. *)
Definition additional_details (completed_identification : Identification.t)
    (idx : nat) (suggestion : Suggestion.t) : M unit :=
  try_except
    (search_result <- api_search env (Suggestion.name suggestion) ;;
     match SearchResult.entities search_result with
     | entity :: _ =>
         details <- api_get_kb_detail env entity ;;
         print_details details
     | [] => ret tt
     end ;;;
     if bool_decide (idx = 1%nat) then
       print (LF +:+ "   Healing Properties:") ;;;
       healing_props <-
         api_ask_question env
           (Identification.access_token completed_identification) QUESTION ;;
       match healing_props with
       | Messages contents =>
           match last contents with
           | Some content => print ("   " +:+ py_take 200 content +:+ "...")
           | None => raise INDEX_ERROR
           end
       | NoConversation | NoMessages => ret tt
       end
     else ret tt)
    (fun _ => ret tt).

(** Lines 64-95 *)
Fixpoint for_suggestions (completed_identification : Identification.t)
    (idx : nat) (rest : list Suggestion.t) : M unit :=
  match rest with
  | [] => ret tt
  | suggestion :: rest' =>
      print (LF +:+ pretty idx +:+ ". " +:+ Suggestion.name suggestion) ;;;
      print ("   Confidence: "
             +:+ format_percent1 (Suggestion.probability suggestion)) ;;;
      additional_details completed_identification idx suggestion ;;;
      for_suggestions completed_identification (S idx) rest'
  end.

(** Lines 17-101; the outer [except] logs and raises again. *)
Definition identify_plant (image_path api_key : string) : M unit :=
  try_except
    (is_file <- path_is_file image_path ;;
     if negb is_file then raise ("Image file not found: " +:+ image_path)
     else
       identification <- api_identify env image_path true ;;
       completed_identification <-
         api_get_identification env
           (Identification.access_token identification) ;;
       if negb (Identification.completed completed_identification)
       then ret tt
       else
         match Identification.result completed_identification with
         | NoResult | NoClassification => ret tt
         | Classification suggestions =>
             match suggestions with
             | [] => ret tt
             | _ :: _ =>
                 print (LF +:+ "🌿 Plant Identification Results:") ;;;
                 print RULE ;;;
                 for_suggestions completed_identification 1
                   (take 3 suggestions) ;;;
                 print (LF +:+ RULE)
             end
         end)
    (fun e => raise e).
End Program.
End plantid.


(** * Start-up *)

(** [not value] for what [os.getenv] returns: the variable is unset or
    empty. *)
Definition not_given (value : option string) : bool :=
  match value with
  | None => true
  | Some EmptyString => true
  | Some (String _ _) => false
  end.

(** [bot.infinity_polling()] over the updates that arrive: each goes
    through the dispatch in turn, and an exception of a handler does not
    stop the loop. *)
Fixpoint infinity_polling (dispatch : Message.t -> World -> World)
    (updates : list Message.t) (w : World) : World :=
  match updates with
  | [] => w
  | message :: rest => infinity_polling dispatch rest (dispatch message w)
  end.

Module startup.
(** [main.py] lines 21-27: [os.environ] is a map from names to values. *)
Definition main_environment (environ : gmap string string) : Outcome unit :=
  let TELEGRAM_BOT_TOKEN := environ !! "TELEGRAM_BOT_TOKEN" in
  let PLANT_API_KEY := environ !! "PLANT_API_KEY" in
  if not_given TELEGRAM_BOT_TOKEN
  then Raises "Please set the TELEGRAM_BOT_TOKEN env var"
  else if not_given PLANT_API_KEY
       then Raises "Please set the PLANT_API_KEY env var"
       else Returns tt.

(** [papaboisfinal.py] lines 73-79 and [plantpersona.py] lines 28-34: the
    loop over the items of the dictionary, in insertion order. *)
Fixpoint validate (items : list (string * option string)) : Outcome unit :=
  match items with
  | [] => Returns tt
  | (var_name, var_value) :: rest =>
      if not_given var_value
      then Raises ("Please set the " +:+ var_name +:+ " env var")
      else validate rest
  end.

Definition persona_environment (environ : gmap string string)
    : Outcome unit :=
  let TELEGRAM_BOT_TOKEN := environ !! "TELEGRAM_BOT_TOKEN" in
  let PLANT_API_KEY := environ !! "PLANT_API_KEY" in
  let OPENROUTER_API_KEY := environ !! "OPENROUTER_API_KEY" in
  validate [ ("TELEGRAM_BOT_TOKEN", TELEGRAM_BOT_TOKEN);
             ("PLANT_API_KEY", PLANT_API_KEY);
             ("OPENROUTER_API_KEY", OPENROUTER_API_KEY) ].
End startup.

(** * papaboisfinal.py: the installation of the dependencies *)
Module installer.

(** What the function does to the terminal and to pip. *)
Inductive Action : Type :=
| Say (line : string)            (* print *)
| Ask (prompt : string)          (* input *)
| Pip (package : string).        (* subprocess.check_call([... "install", package]) *)

(** [pkg_resources.get_distribution]: found, [DistributionNotFound], or
    another exception, which nothing catches. *)
Inductive Distribution : Type :=
| Found
| NotFound
| Broken (e : string).

(** The machine the script runs on. *)
Record Host : Type := mkHost {
  importable : string -> bool;          (* import <module> succeeds *)
  distribution : string -> Distribution;
  answer : string;                      (* what the user types *)
  pip_error : string -> option string   (* str(CalledProcessError) *)
}.

(** How the function, or the script, ends. *)
Inductive Ending (A : Type) : Type :=
| Done (a : A)
| Exit (code : Z)                (* sys.exit *)
| Failure (e : string).          (* an exception nothing catches *)
Arguments Done {A} a.
Arguments Exit {A} code.
Arguments Failure {A} e.

(** Lines 7-11: distribution and module name. *)
Definition required_packages : list (string * string) :=
  [ ("pyTelegramBotAPI", "telebot");
    ("kindwise-api-client", "kindwise");
    ("requests", "requests") ].

(** [str.lower], on the letters A-Z. *)
Definition lower_char (c : ascii) : ascii :=
  let k := nat_of_ascii c in
  if (65 <=? k)%nat && (k <=? 90)%nat then ascii_of_nat (k + 32) else c.

Fixpoint py_lower (s : string) : string :=
  match s with
  | EmptyString => EmptyString
  | String c s' => String (lower_char c) (py_lower s')
  end.

(** Lines 16-20: the packages that are missing, or the exception of the
    first check that breaks. *)
Fixpoint find_missing (host : Host) (packages : list (string * string))
    (missing_packages : list string) : Outcome (list string) :=
  match packages with
  | [] => Returns missing_packages
  | (package, import_name) :: rest =>
      match distribution host package with
      | Found => find_missing host rest missing_packages
      | NotFound => find_missing host rest (missing_packages ++ [package])
      | Broken e => Raises e
      end
  end.

(** Lines 30-36: the installation loop. *)
Fixpoint install (host : Host) (missing_packages : list string)
    : list Action * Ending unit :=
  match missing_packages with
  | [] => ([], Done tt)
  | package :: rest =>
      match pip_error host package with
      | Some e =>
          ([Pip package;
            Say ("Error installing " +:+ package +:+ ": " +:+ e)],
           Exit 1)
      | None =>
          let '(actions, ending) := install host rest in
          (Pip package :: Say ("Successfully installed " +:+ package)
             :: actions,
           ending)
      end
  end.

(** Lines 5-43 *)
Definition check_and_install_dependencies (host : Host)
    : list Action * Ending bool :=
  match find_missing host required_packages [] with
  | Raises e => ([], Failure e)
  | Returns [] => ([], Done true)
  | Returns (m :: ms) =>
      let missing_packages := m :: ms in
      let listing :=
        Say (LF +:+ "Some required packages are missing:")
        :: map (fun package => Say ("  - " +:+ package)) missing_packages in
      let response := py_lower (answer host) in
      let asked :=
        listing
        ++ [Ask (LF +:+ "Would you like to install them now? (y/n): ")] in
      if bool_decide (response = "y") then
        match install host missing_packages with
        | (actions, Done _) =>
            (asked ++ Say (LF +:+ "Installing dependencies...") :: actions
             ++ [Say (LF +:+ "All dependencies installed successfully!")],
             Done true)
        | (actions, Exit code) =>
            (asked ++ Say (LF +:+ "Installing dependencies...") :: actions,
             Exit code)
        | (actions, Failure e) =>
            (asked ++ Say (LF +:+ "Installing dependencies...") :: actions,
             Failure e)
        end
      else
        (asked
         ++ [Say (LF
                  +:+ "Cannot continue without required packages. Exiting...")],
         Exit 1)
  end.

(** Lines 46-57: the imports of the third-party modules, in order. *)
Fixpoint import_all (host : Host) (modules : list string) : Outcome unit :=
  match modules with
  | [] => Returns tt
  | name :: rest =>
      if importable host name then import_all host rest
      else Raises ("No module named '" +:+ name +:+ "'")
  end.

(** [papaboisfinal.py] as a script: the imports and the check of the
    environment run when the module is loaded, before the last lines call
    [check_and_install_dependencies()] and [main()]. *)
Definition script (host : Host) (env : Env) (environ : gmap string string)
    (updates : list Message.t) (w : World) : list Action * Ending World :=
  match import_all host ["telebot"; "kindwise"; "requests"] with
  | Raises e => ([], Failure e)
  | Returns _ =>
      match startup.persona_environment environ with
      | Raises e => ([], Failure e)
      | Returns _ =>
          match check_and_install_dependencies host with
          | (actions, Done _) =>
              (actions,
               Done (infinity_polling (papaboisfinal.dispatch env) updates w))
          | (actions, Exit code) => (actions, Exit code)
          | (actions, Failure e) => (actions, Failure e)
          end
      end
  end.
End installer.
(** * Vocabulary of the properties *)

(** [count p evs]: how many events of [evs] satisfy [p]. *)
Fixpoint count (p : Event -> bool) (evs : list Event) : nat :=
  match evs with
  | [] => 0
  | ev :: evs' => (if p ev then 1 else 0) + count p evs'
  end.

Definition is_ask_question (ev : Event) : bool :=
  match ev_call ev with AskQuestion _ _ => true | _ => false end.

Definition is_requests_post (ev : Event) : bool :=
  match ev_call ev with RequestsPost _ _ => true | _ => false end.

(** The knowledge-base lookup: the search and the detail request. *)
Definition is_lookup (ev : Event) : bool :=
  match ev_call ev with Search _ | GetKbDetail _ => true | _ => false end.

Definition lookup_raised (evs : list Event) : bool :=
  existsb (fun ev => is_lookup ev && ev_raised ev) evs.

(** Requests to Kindwise and to OpenRouter. *)
Definition is_kindwise_call (c : Call) : Prop :=
  match c with
  | Identify _ _ | GetIdentification _ | Search _ | GetKbDetail _
  | AskQuestion _ _ => True
  | _ => False
  end.

Definition is_openrouter_call (c : Call) : Prop :=
  match c with RequestsPost _ _ => True | _ => False end.

Definition is_service_call (c : Call) : bool :=
  match c with
  | Identify _ _ | GetIdentification _ | Search _ | GetKbDetail _
  | AskQuestion _ _ | RequestsPost _ _ => true
  | _ => false
  end.

Definition a_service_call_raised (evs : list Event) : bool :=
  existsb (fun ev => is_service_call (ev_call ev) && ev_raised ev) evs.

(** [m] leaves files and states alone and logs only calls in [P]. *)
Definition logs_only {A} (P : Call -> Prop) (m : M A) : Prop :=
  forall w,
    files (snd (m w)) = files w
    /\ states (snd (m w)) = states w
    /\ exists evs,
         trace (snd (m w)) = trace w ++ evs
         /\ Forall (fun ev => P (ev_call ev)) evs.

(** [m] never raises. *)
Definition total {A} (m : M A) : Prop :=
  forall w, exists a, fst (m w) = Returns a.

(** The [plant_info] a round of the loop starts from. *)
Definition bare (s : Suggestion.t) : PlantInfo.t :=
  PlantInfo.mk (Suggestion.name s) (Suggestion.probability s)
    Details.empty None.

(** What one round of the loop of [main.py] does for candidate [s]: it
    logs [evs], starting with the search, and appends [p]. *)
Definition round_ok (suggestions : list Suggestion.t) (s : Suggestion.t)
    (evs : list Event) (p : PlantInfo.t) : Prop :=
  PlantInfo.name p = Suggestion.name s
  /\ PlantInfo.confidence p = Suggestion.probability s
  /\ (lookup_raised evs = true -> p = bare s)
  /\ count is_ask_question evs
     = (if lookup_raised evs then 0
        else if bool_decide (Some s = head suggestions) then 1 else 0)%nat
  /\ Forall (fun ev => is_kindwise_call (ev_call ev)) evs
  /\ exists raised evs',
       evs = mkEvent (Search (Suggestion.name s)) raised :: evs'.

(** The reply entry of [plant] at rank [idx] in [main.py]: what one round
    of the formatting loop appends. *)
Definition main_entry (idx : nat) (plant : PlantInfo.t) : string :=
  main.format_plant idx plant EmptyString.

(** The entry that shows the rank, the name and the confidence only. *)
Definition plain_entry (idx : nat) (name : string) (confidence : spec_float)
    : string :=
  pretty idx +:+ ". *" +:+ name +:+ "*" +:+ LF
  +:+ "   Confidence: " +:+ format_percent1 confidence +:+ LF +:+ LF.

Definition error_form {P} (d : IdentifyResult P) : Prop :=
  exists msg, d = Error msg.

(** The identification response carries no candidate: no result, no
    classification, or an empty list of suggestions. *)
Definition no_candidates (id : Identification.t) : Prop :=
  Identification.result id = NoResult
  \/ Identification.result id = NoClassification
  \/ Identification.result id = Classification [].

(** What makes [identify_plant_from_path] answer with an error, for the
    identification request issued at the current position. *)
Definition identification_fails (env : Env) (image_path : string)
    (w : World) : Prop :=
  files w !! image_path = None
  \/ (exists e, on_identify env (length (trace w)) = Raises e)
  \/ (exists id, on_identify env (length (trace w)) = Returns id
                 /\ no_candidates id).

(** The two forms of the result, the error form exactly under [cause]. *)
Definition two_forms {P} (cause : Prop) (o : Outcome (IdentifyResult P))
    : Prop :=
  exists d,
    o = Returns d
    /\ (error_form d <-> cause)
    /\ (forall rs, d = Success rs -> rs <> []).

(** The reading under which every raising service call yields the error
    form. *)
Definition error_iff_some_call_raised (env : Env) (image_path : string)
    (w : World) : Prop :=
  let '(r, w') := main.identify_plant_from_path env image_path w in
  two_forms
    (files w !! image_path = None
     \/ (exists id, on_identify env (length (trace w)) = Returns id
                    /\ no_candidates id)
     \/ a_service_call_raised (new_events w w') = true)
    r.

(** ** Concrete inputs *)

Definition float_0_9876 : spec_float :=
  S754_finite false 8895509983982204 (-53).
Definition float_0_0625 : spec_float :=
  S754_finite false 4503599627370496 (-56).

Definition rosa : Suggestion.t :=
  Suggestion.mk "s1" "Rosa canina" float_0_9876 Details.empty.
Definition rubus : Suggestion.t :=
  Suggestion.mk "s2" "Rubus idaeus" float_0_0625 Details.empty.

Definition rosa_details : Details.t :=
  Details.mk (Present ["Dog rose"; "Wild rose"])
    (Present "A climbing wild rose.").

Definition identification_of (suggestions : list Suggestion.t)
    : Identification.t :=
  Identification.mk "tok" true (Classification suggestions).

(** Every service answers: one candidate, one knowledge-base entity. *)
Definition env_ok : Env :=
  mkEnv (fun _ => Returns 100) (fun _ => Returns tt)
    (fun _ => Returns "photos/file_1.jpg") (fun _ => Returns [])
    (fun _ => Written)
    (fun _ => Returns (identification_of [rosa]))
    (fun _ => Returns (identification_of [rosa]))
    (fun _ => Returns (SearchResult.mk ["kb1"]))
    (fun _ => Returns rosa_details)
    (fun _ => Returns (Messages ["Rich in vitamin C."]))
    (fun _ => Returns (Response.mk 200 "{}" (Returns "I am the rose."))).

Definition with_identify (f : nat -> Outcome Identification.t) (env : Env)
    : Env :=
  mkEnv (on_reply_to env) (on_edit_message_text env) (on_get_file env)
    (on_download_file env) (on_open_wb env) f (on_get_identification env)
    (on_search env) (on_get_kb_detail env) (on_ask_question env)
    (on_requests_post env).

Definition with_search (f : nat -> Outcome SearchResult.t) (env : Env)
    : Env :=
  mkEnv (on_reply_to env) (on_edit_message_text env) (on_get_file env)
    (on_download_file env) (on_open_wb env) (on_identify env)
    (on_get_identification env) f (on_get_kb_detail env)
    (on_ask_question env) (on_requests_post env).

Definition with_requests_post (f : nat -> Outcome Response.t) (env : Env)
    : Env :=
  mkEnv (on_reply_to env) (on_edit_message_text env) (on_get_file env)
    (on_download_file env) (on_open_wb env) (on_identify env)
    (on_get_identification env) (on_search env) (on_get_kb_detail env)
    (on_ask_question env) f.

(** The knowledge-base search is down. *)
Definition env_search_down : Env :=
  with_search (fun _ => Raises "503 Service Unavailable") env_ok.

(** The search issued at position [n] finds nothing instead. *)
Definition with_empty_search_at (n : nat) (env : Env) : Env :=
  with_search
    (fun k => if bool_decide (k = n) then Returns (SearchResult.mk [])
              else on_search env k)
    env.

Definition world_with_leaf : World :=
  mkWorld {[ "leaf.jpg" := [] ]} ∅ [].

Definition empty_world : World := mkWorld ∅ ∅ [].

(** The reading under which a failed lookup costs the entry nothing but
    its details: the round ends as it would had the search found no
    entity. *)
Definition lookup_failure_costs_only_details (env : Env)
    (id : Identification.t) (suggestions : list Suggestion.t)
    (s : Suggestion.t) (w : World) : Prop :=
  let round e := main.additional_details e id suggestions s (bare s) w in
  lookup_raised (new_events w (snd (round env))) = true ->
  fst (round env) = fst (round (with_empty_search_at (length (trace w)) env)).

(** The reading under which every successful identification asks the
    question exactly once. *)
Definition question_asked_exactly_once (env : Env) (image_path : string)
    (w : World) : Prop :=
  let '(r, w') := main.identify_plant_from_path env image_path w in
  forall rs, r = Returns (Success rs) ->
    count is_ask_question (new_events w w') = 1%nat.

(** [plantpersona.py] line 112 *)
Definition healing_prompt (plant_name : string) : string :=
  "What are the traditional medicinal and healing properties of "
  +:+ plant_name
  +:+ "? Include both benefits and any potential risks or warnings.".

(** The [plant_info] of [plantpersona.py] before the healing text. *)
Definition flat_of (s : Suggestion.t) : FlatPlantInfo.t :=
  FlatPlantInfo.update
    (FlatPlantInfo.mk (Suggestion.name s) (Suggestion.probability s)
       Absent Absent None)
    (Suggestion.details s).

(** One round of the loop of [plantpersona.py]: a candidate equal to the
    first one costs one OpenRouter request, any other none. *)
Definition flat_round_ok (suggestions : list Suggestion.t)
    (s : Suggestion.t) (evs : list Event) (p : FlatPlantInfo.t) : Prop :=
  FlatPlantInfo.name p = Suggestion.name s
  /\ FlatPlantInfo.confidence p = Suggestion.probability s
  /\ if bool_decide (Some s = head suggestions)
     then exists raised,
       evs = [mkEvent (RequestsPost "gpt-3.5-turbo"
                         (healing_prompt (Suggestion.name s))) raised]
     else evs = [] /\ p = flat_of s.

(** The answer [content] of a generation request made at position [n]:
    the request returned, with status 200 and a body that decodes. *)
Definition generated (env : Env) (n : nat) (content : string) : Prop :=
  exists response,
    on_requests_post env n = Returns response
    /\ Response.status_code response = 200
    /\ Response.json_content response = Returns content.

(** ** The shape of the reply *)

(** The blocks of a text, one after the other. *)
Definition text_of (blocks : list string) : string :=
  foldr String.append EmptyString blocks.

Definition is_digit (c : ascii) : bool :=
  let k := nat_of_ascii c in (48 <=? k)%nat && (k <=? 57)%nat.

Fixpoint all_digits (s : string) : bool :=
  match s with
  | EmptyString => true
  | String c s' => is_digit c && all_digits s'
  end.

(** A percentage with exactly one decimal place: an optional minus sign,
    at least one digit, the point, one digit, the percent sign. *)
Definition one_decimal_percent (s : string) : Prop :=
  exists sign int d,
    s = sign +:+ int +:+ "." +:+ String d "%"
    /\ (sign = EmptyString \/ sign = "-")
    /\ int <> EmptyString
    /\ all_digits int = true
    /\ is_digit d = true.

(** The hundredfold of [x] is a finite binary64 number: [x] is neither
    NaN nor infinite, and the product does not overflow. *)
Definition percent_finite (x : spec_float) : bool :=
  match binary64_mul x float_100 with
  | S754_zero _ | S754_finite _ _ _ => true
  | S754_infinity _ | S754_nan => false
  end.

(** A ranked entry: the rank and the name on one line, the confidence on
    the next, then [rest]. *)
Definition ranked_entry (rank : nat) (name pct rest : string) : string :=
  pretty rank +:+ ". *" +:+ name +:+ "*" +:+ LF
  +:+ "   Confidence: " +:+ pct +:+ LF +:+ rest.

(** The reply [header +:+ ...] lists [plants] in order, ranked from 1. *)
Definition lists_ranked {P} (name_of : P -> string) (header response : string)
    (plants : list P) : Prop :=
  exists entries,
    response = header +:+ text_of entries
    /\ length entries = length plants
    /\ forall i p, plants !! i = Some p ->
         exists pct rest,
           entries !! i = Some (ranked_entry (S i) (name_of p) pct rest)
           /\ one_decimal_percent pct.

Definition RESULTS_TITLE : string := " *Plant Identification Results*".

(** The reply entry of the persona bots at rank [idx]. *)
Definition persona_entry {P} (name_of : P -> string)
    (confidence_of : P -> spec_float) (idx : nat) (plant : P) : string :=
  persona_handlers.format_plant name_of confidence_of idx plant EmptyString.

(** [m] extends the trace, and only by calls in [P]. *)
Definition trace_only {A} (P : Call -> Prop) (m : M A) : Prop :=
  forall w,
    exists evs,
      trace (snd (m w)) = trace w ++ evs
      /\ Forall (fun ev => P (ev_call ev)) evs.

(** [m] leaves the state storage alone. *)
Definition keeps_states {A} (m : M A) : Prop :=
  forall w, states (snd (m w)) = states w.

(** [m] leaves the files alone. *)
Definition keeps_files {A} (m : M A) : Prop :=
  forall w, files (snd (m w)) = files w.

Definition is_telegram_call (c : Call) : Prop :=
  match c with
  | ReplyTo _ _ _ _ | EditMessageText _ _ _ _ | GetFile _ | DownloadFile _ =>
      True
  | _ => False
  end.

(** No file is opened for writing but [path]. *)
Definition writes_only (path : string) (c : Call) : Prop :=
  forall p, c = OpenWb p -> p = path.

Definition is_open_wb (ev : Event) : bool :=
  match ev_call ev with OpenWb _ => true | _ => false end.

(** The frame of [handle_photo], the same in the three bots: the download,
    then the processing under [try] / [except] / [finally]. *)
Definition photo_handler (receive : M (Z * bytes))
    (process : Z -> bytes -> string -> M unit) (report : string -> M unit)
    (message : Message.t) : M unit :=
  fun w =>
    match receive w with
    | (Raises e, w1) =>
        try_finally (report e) (cleanup message None) w1
    | (Returns (processing_msg, downloaded_file), w1) =>
        let photo_path := temp_photo_path message in
        try_finally
          (try_except (process processing_msg downloaded_file photo_path)
             report)
          (cleanup message (Some photo_path)) w1
    end.

(** The handlers of a bot with their filters, in the order of the
    decorators; the three bots register the same filters. *)
Definition bot_handlers (cmd_start cmd_whois_plant handle_photo
    handle_invalid_input : Message.t -> M unit) : list Handler :=
  [ mkHandler (Some ["start"]) [ct_text] None cmd_start;
    mkHandler (Some ["whois_plant"]) [ct_text] None cmd_whois_plant;
    mkHandler None [ct_photo] (Some waiting_for_photo) handle_photo;
    mkHandler None [ct_text; ct_document; ct_audio; ct_video]
      (Some waiting_for_photo) handle_invalid_input ].

(** After [handle] the sender has no state left, and the temporary file
    does not exist -- or the handler never came to write it: the files are
    as they were and nothing was opened for writing. *)
Definition cleans_up (handle : Message.t -> M unit) : Prop :=
  forall message w,
    let w' := snd (handle message w) in
    user_state w' message = None
    /\ (files w' !! temp_photo_path message = None
        \/ (files w' = files w
            /\ count is_open_wb (new_events w w') = 0%nat)).

(** Every file [handle] opens for writing is the sender's temporary
    file. *)
Definition writes_temp_file_only (handle : Message.t -> M unit) : Prop :=
  forall message w raised path,
    In (mkEvent (OpenWb path) raised)
       (new_events w (snd (handle message w))) ->
    path = "temp_plant_" +:+ pretty (Message.from_user_id message) +:+ ".jpg".

(** The bot's [handle_photo], in one of the three programs. *)
Definition is_photo_handler (env : Env) (handle : Message.t -> M unit)
    : Prop :=
  handle = main.handle_photo env
  \/ handle = papaboisfinal.handle_photo env
  \/ handle = plantpersona.handle_photo env.

(** ** The conversation state machine *)

(** The key of the sender in the state storage. *)
Definition sender (message : Message.t) : Z * Z :=
  (Message.chat_id message, Message.from_user_id message).

(** The transition a message causes: [/whois_plant] leads to
    [waiting_for_photo], a photo leads from there back to idle, and
    everything else changes nothing. *)
Definition next_state (message : Message.t) (s : option UserState)
    : option UserState :=
  if test_commands ["whois_plant"] message then Some waiting_for_photo
  else if bool_decide (Message.content_type message = ct_photo)
          && bool_decide (s = Some waiting_for_photo)
       then None
       else s.

(** The content types [handle_invalid_input] is registered for. *)
Definition REJECTED_TYPES : list ContentType :=
  [ct_text; ct_document; ct_audio; ct_video].

(** The reply "Please send a photo ..." with the bot's camera sign. *)
Definition rejection (camera : string) : string :=
  "Please send a photo " +:+ camera +:+ " of the plant you want to identify.".

(** The event of the rejection reply to [message] at the end of [w]. *)
Definition rejection_event (env : Env) (camera : string)
    (message : Message.t) (w : World) : Event :=
  mkEvent
    (ReplyTo (Message.chat_id message) (Message.message_id message)
       (rejection camera) false)
    (is_raise (on_reply_to env (length (trace w)))).

(** What a message that is no photo does to a sender in
    [waiting_for_photo]: nothing to the states and files; the rejection
    reply for the registered content types, commands apart; no reply for
    the other content types. *)
Definition rejects_non_photo (env : Env) (camera : string)
    (dispatch : Message.t -> World -> World) : Prop :=
  forall message w,
    user_state w message = Some waiting_for_photo ->
    Message.content_type message <> ct_photo ->
    let w' := dispatch message w in
    states w' = states w
    /\ files w' = files w
    /\ (Message.content_type message ∈ REJECTED_TYPES ->
        test_commands ["start"; "whois_plant"] message = false ->
        new_events w w' = [rejection_event env camera message w])
    /\ (Message.content_type message ∉ REJECTED_TYPES ->
        new_events w w' = []).

(** The reading under which every message that is no photo is answered
    with the rejection. *)
Definition every_non_photo_is_rejected (env : Env) (message : Message.t)
    (w : World) : Prop :=
  user_state w message = Some waiting_for_photo ->
  Message.content_type message <> ct_photo ->
  let w' := main.dispatch env message w in
  new_events w w' = [rejection_event env main.CAMERA message w]
  /\ user_state w' message = Some waiting_for_photo.

(** The bot follows [next_state] for the sender and leaves every other
    user's state alone. *)
Definition follows_state_machine (dispatch : Message.t -> World -> World)
    : Prop :=
  forall message w,
    user_state (dispatch message w) message
    = next_state message (user_state w message)
    /\ forall k, k <> sender message ->
         states (dispatch message w) !! k = states w !! k.

(** The reading under which any input that is no photo leads from
    [waiting_for_photo] back to idle. *)
Definition non_photo_returns_to_idle (env : Env) (message : Message.t)
    (w : World) : Prop :=
  user_state w message = Some waiting_for_photo ->
  Message.content_type message <> ct_photo ->
  user_state (main.dispatch env message w) message = None.

Definition photo_message : Message.t :=
  Message.mk 7 42 42 ct_photo EmptyString ["small"; "large"].
Definition other_photo_message : Message.t :=
  Message.mk 9 42 (-1001) ct_photo "caption" ["one"].
Definition text_message : Message.t :=
  Message.mk 8 42 42 ct_text "hello" [].
Definition sticker_message : Message.t :=
  Message.mk 8 42 42 ct_sticker EmptyString [].

Definition waiting_world : World :=
  mkWorld ∅ {[ (42, 42) := waiting_for_photo ]} [].

(** One of the three bots: its camera sign and its dispatch. *)
Definition is_bot (env : Env) (camera : string)
    (dispatch : Message.t -> World -> World) : Prop :=
  (camera = main.CAMERA /\ dispatch = main.dispatch env)
  \/ (camera = persona_handlers.CAMERA
      /\ dispatch = papaboisfinal.dispatch env)
  \/ (camera = persona_handlers.CAMERA
      /\ dispatch = plantpersona.dispatch env).

(** What the result keeps of candidate [s] whose round logged [evs]: the
    name and the confidence always; when the lookup raised, nothing else,
    and its reply entry is the plain one. *)
Definition kept_round (s : Suggestion.t) (evs : list Event)
    (p : PlantInfo.t) : Prop :=
  (exists raised evs',
     evs = mkEvent (Search (Suggestion.name s)) raised :: evs')
  /\ PlantInfo.name p = Suggestion.name s
  /\ PlantInfo.confidence p = Suggestion.probability s
  /\ (lookup_raised evs = true ->
      p = bare s
      /\ forall idx,
           main_entry idx p
           = plain_entry idx (Suggestion.name s) (Suggestion.probability s)).

(** The reading under which [get_plant_persona] answers every input with
    a placeholder, never with an empty text. *)
Definition persona_is_always_placeholder (env : Env)
    (plant_info : PlantInfo.t) (w : World) : Prop :=
  exists text,
    fst (papaboisfinal.get_plant_persona env plant_info w) = Returns text
    /\ (text = papaboisfinal.MEDITATION \/ text = papaboisfinal.COMMUNING)
    /\ text <> EmptyString.

(** The generation service answers 200 with an empty text. *)
Definition env_empty_answer : Env :=
  with_requests_post
    (fun _ => Returns (Response.mk 200 "{}" (Returns EmptyString))) env_ok.

Definition rosa_info : PlantInfo.t :=
  PlantInfo.mk "Rosa canina" float_0_9876 rosa_details None.


(** * More vocabulary *)

(** The variable [name] is set in [environ], and not empty. *)
Definition given (environ : gmap string string) (name : string) : Prop :=
  not_given (environ !! name) = false.

(** The variables a persona bot needs, in the order it checks them. *)
Definition REQUIRED_VARIABLES : list string :=
  ["TELEGRAM_BOT_TOKEN"; "PLANT_API_KEY"; "OPENROUTER_API_KEY"].

(** The packages pip was run for, in order. *)
Fixpoint pips (actions : list installer.Action) : list string :=
  match actions with
  | [] => []
  | installer.Pip package :: rest => package :: pips rest
  | _ :: rest => pips rest
  end.

(** How often the user was asked. *)
Fixpoint asks (actions : list installer.Action) : nat :=
  match actions with
  | [] => 0
  | installer.Ask _ :: rest => S (asks rest)
  | _ :: rest => asks rest
  end.

(** The required packages whose distribution is not found, in the order
    of the dictionary. *)
Definition not_found (host : installer.Host) : list string :=
  List.filter
    (fun package =>
       match installer.distribution host package with
       | installer.NotFound => true
       | _ => false
       end)
    (map fst installer.required_packages).

(** A package that is not installed cannot be imported. *)
Definition uninstalled_not_importable (host : installer.Host) : Prop :=
  forall package import_name,
    In (package, import_name) installer.required_packages ->
    installer.distribution host package = installer.NotFound ->
    installer.importable host import_name = false.

Definition host_without_requests : installer.Host :=
  installer.mkHost
    (fun name => negb (bool_decide (name = "requests")))
    (fun package =>
       if bool_decide (package = "requests") then installer.NotFound
       else installer.Found)
    "Y" (fun _ => None).

(** ** Runs of messages *)

(** The state of the user with key [me] after [updates], computed from
    the messages of that user alone. *)
Definition state_after (me : Z * Z) (updates : list Message.t)
    (s : option UserState) : option UserState :=
  fold_left
    (fun s u => if bool_decide (sender u = me) then next_state u s else s)
    updates s.

(** The state of every user after a run of messages depends on the
    messages of that user only. *)
Definition state_by_own_messages (dispatch : Message.t -> World -> World)
    : Prop :=
  forall updates w me,
    states (infinity_polling dispatch updates w) !! me
    = state_after me updates (states w !! me).

Definition is_identify (ev : Event) : bool :=
  match ev_call ev with Identify _ _ => true | _ => false end.

(** How many of [updates] are the command /whois_plant. *)
Definition whois_requests (updates : list Message.t) : nat :=
  length (List.filter (test_commands ["whois_plant"]) updates).

(** [m] logs at most [n] events that satisfy [p]. *)
Definition counts_at_most {A} (p : Event -> bool) (n : nat) (m : M A)
    : Prop :=
  forall w,
    exists evs,
      trace (snd (m w)) = trace w ++ evs /\ (count p evs <= n)%nat.

(** Over a run of messages the bot issues no more identification requests
    than there were /whois_plant commands and users waiting at the
    start. *)
Definition identifies_on_request_only
    (dispatch : Message.t -> World -> World) : Prop :=
  forall updates w,
    (count is_identify (trace (infinity_polling dispatch updates w))
     + size (states (infinity_polling dispatch updates w))
     <= count is_identify (trace w) + size (states w)
        + whois_requests updates)%nat.

(** The calls of one round of the enrichment loop. *)
Definition is_enrichment_call (c : Call) : Prop :=
  match c with
  | Search _ | GetKbDetail _ | AskQuestion _ _ | RequestsPost _ _ => True
  | _ => False
  end.

(** ** The photo handler, in detail *)

(** [m] changes no file but [path]. *)
Definition touches_only {A} (path : string) (m : M A) : Prop :=
  forall w p, p <> path -> files (snd (m w)) !! p = files w !! p.

(** [handle] changes no file but the sender's temporary file. *)
Definition touches_temp_file_only (handle : Message.t -> M unit) : Prop :=
  forall message w p,
    p <> temp_photo_path message ->
    files (snd (handle message w)) !! p = files w !! p.

(** The reply "An error occurred: e" to [message] at the end of [w]. *)
Definition error_reply_event (env : Env) (cross : string)
    (message : Message.t) (e : string) (w : World) : Event :=
  mkEvent
    (ReplyTo (Message.chat_id message) (Message.message_id message)
       (cross +:+ " An error occurred: " +:+ e) false)
    (is_raise (on_reply_to env (length (trace w)))).

(** [ev] is the write of the file [path], done without an exception. *)
Definition wrote (path : string) (ev : Event) : bool :=
  match ev_call ev with
  | OpenWb p => String.eqb p path && negb (ev_raised ev)
  | _ => false
  end.

(** No request to a service is in [evs] before a successful write of
    [path]; [written] tells whether the write precedes [evs]. *)
Fixpoint services_follow_write (path : string) (written : bool)
    (evs : list Event) : bool :=
  match evs with
  | [] => true
  | ev :: rest =>
      if is_service_call (ev_call ev)
      then written && services_follow_write path written rest
      else services_follow_write path (written || wrote path ev) rest
  end.

(** Whatever the world, [m] asks no service before it has written [path]. *)
Definition writes_before_services {A} (path : string) (m : M A) : Prop :=
  forall w,
    services_follow_write path false (new_events w (snd (m w))) = true.

(** [m] sends no request to a service. *)
Definition quiet {A} (m : M A) : Prop :=
  trace_only (fun c => is_service_call c = false) m.

(** [m] extends the trace, and asks no service before it has written
    [path]. *)
Definition guarded {A} (path : string) (m : M A) : Prop :=
  forall w,
    exists evs,
      trace (snd (m w)) = trace w ++ evs
      /\ services_follow_write path false evs = true.

(** An exception that leaves the [try] block of [handle], from the
    download or from the processing, is answered with the error reply,
    the last thing the run logs. *)
Definition reports_exceptions (env : Env) (cross : string)
    (receive : Message.t -> M (Z * bytes))
    (process : Message.t -> Z -> bytes -> string -> M unit)
    (handle : Message.t -> M unit) : Prop :=
  forall message w,
    (forall e w1,
       receive message w = (Raises e, w1) ->
       new_events w1 (snd (handle message w))
       = [error_reply_event env cross message e w1])
    /\ (forall pm data w1 e w2,
          receive message w = (Returns (pm, data), w1) ->
          process message pm data (temp_photo_path message) w1
          = (Raises e, w2) ->
          new_events w2 (snd (handle message w))
          = [error_reply_event env cross message e w2]).

(** Whatever messages arrive, the bot leaves no file behind: a file that
    exists after the run existed before it, with the same content. *)
Definition leaves_no_file_behind
    (dispatch : Message.t -> World -> World) : Prop :=
  forall updates w, files (infinity_polling dispatch updates w) ⊆ files w.

(** ** plantid.py *)

(** How a run of [identify_plant] ends, read off the file system and the
    answers of the two requests that precede the results. *)
Definition plantid_outcome (env : Env) (image_path : string) (w : World)
    : Outcome unit :=
  if bool_decide (is_Some (files w !! image_path)) then
    match on_identify env (length (trace w)) with
    | Raises e => Raises e
    | Returns _ =>
        match on_get_identification env (S (length (trace w))) with
        | Raises e => Raises e
        | Returns _ => Returns tt
        end
    end
  else Raises ("Image file not found: " +:+ image_path).

(** [m] never raises. *)
Definition returns {A} (m : M A) : Prop :=
  forall w, exists a, fst (m w) = Returns a.

(** ** What a run costs *)

(** [ev] is a request to Kindwise or to OpenRouter. *)
Definition is_service_request (ev : Event) : bool :=
  is_service_call (ev_call ev).

(** An exception leaves [handle] only when the error reply itself has
    failed: the run then ends with that reply, raised. *)
Definition raises_only_after_failed_report (cross : string)
    (handle : Message.t -> M unit) : Prop :=
  forall message w e,
    fst (handle message w) = Raises e ->
    exists text,
      last (trace (snd (handle message w)))
      = Some (mkEvent
                (ReplyTo (Message.chat_id message)
                   (Message.message_id message)
                   (cross +:+ " An error occurred: " +:+ text) false)
                true).

(** ** The run of a photo when nothing fails around the identification *)

(** Telegram answers every call. *)
Definition telegram_works (env : Env) : Prop :=
  forall n,
    is_raise (on_reply_to env n) = false
    /\ is_raise (on_edit_message_text env n) = false
    /\ is_raise (on_get_file env n) = false
    /\ is_raise (on_download_file env n) = false.

(** Every file can be opened and written. *)
Definition disk_works (env : Env) : Prop :=
  forall n, on_open_wb env n = Written.

(** [handle] returns, and the last thing it does is to put the outcome of
    the identification in place of its "Processing" message. *)
Definition answers_in_place (env : Env) (handle : Message.t -> M unit)
    (message : Message.t) (w : World) : Prop :=
  fst (handle message w) = Returns tt
  /\ exists processing_msg text markdown,
       on_reply_to env (length (trace w)) = Returns processing_msg
       /\ last (trace (snd (handle message w)))
          = Some (mkEvent
                    (EditMessageText text (Message.chat_id message)
                       processing_msg markdown)
                    false).

(** [handle] returns, and the last thing it does is to put the error of
    the identification in place of its "Processing" message, or to send
    the message of the plant. *)
Definition answers_as_plant (env : Env) (handle : Message.t -> M unit)
    (message : Message.t) (w : World) : Prop :=
  fst (handle message w) = Returns tt
  /\ exists processing_msg,
       on_reply_to env (length (trace w)) = Returns processing_msg
       /\ ((exists e,
              last (trace (snd (handle message w)))
              = Some (mkEvent
                        (EditMessageText
                           (persona_handlers.CROSS +:+ " " +:+ e)
                           (Message.chat_id message) processing_msg false)
                        false))
           \/ (exists plant_message,
                 last (trace (snd (handle message w)))
                 = Some (mkEvent
                           (ReplyTo (Message.chat_id message)
                              (Message.message_id message)
                              (persona_handlers.SPARKLES
                               +:+ " *A message from your plant:*"
                               +:+ LF +:+ LF +:+ plant_message)
                              true)
                           false))).
(** * Lemmas *)

(** ** The percent format on known values *)

Example format_percent1_0_9876 :
  format_percent1 (S754_finite false 8895509983982204 (-53)) = "98.8%".
Proof. vm_compute. reflexivity. Qed.

Example format_percent1_tie_to_even :
  format_percent1 (S754_finite false 4503599627370496 (-56)) = "6.2%".
Proof. vm_compute. reflexivity. Qed.

Example format_percent1_0_0005 :
  format_percent1 (S754_finite false 4611686018427388 (-63)) = "0.1%".
Proof. vm_compute. reflexivity. Qed.

Example format_percent1_one :
  format_percent1 (S754_finite false 4503599627370496 (-52)) = "100.0%".
Proof. vm_compute. reflexivity. Qed.

Example format_percent1_nan : format_percent1 S754_nan = "nan%".
Proof. vm_compute. reflexivity. Qed.

Lemma count_app p evs1 evs2 :
  count p (evs1 ++ evs2) = (count p evs1 + count p evs2)%nat.
Proof. induction evs1 as [|ev evs1 IH]; simpl; [reflexivity | rewrite IH; lia]. Qed.

Lemma new_events_app w evs fs st :
  new_events w (mkWorld fs st (trace w ++ evs)) = evs.
Proof. unfold new_events. simpl. by rewrite drop_app_length. Qed.

Section Logs.
Context {A B : Type}.
Variable P : Call -> Prop.

Lemma logs_only_ret (a : A) : logs_only P (ret a).
Proof.
  intros w. simpl. repeat split. exists []. by rewrite app_nil_r.
Qed.

Lemma logs_only_raise e : logs_only P (@raise A e).
Proof.
  intros w. simpl. repeat split. exists []. by rewrite app_nil_r.
Qed.

Lemma logs_only_lift (o : Outcome A) : logs_only P (lift_outcome o).
Proof.
  intros w. simpl. repeat split. exists []. by rewrite app_nil_r.
Qed.

Lemma logs_only_call c (answer : nat -> Outcome A) :
  P c -> logs_only P (call c answer).
Proof.
  intros Hc w. simpl. repeat split. eexists. split; [reflexivity|].
  by constructor.
Qed.

Lemma logs_only_bind (m : M A) (k : A -> M B) :
  logs_only P m -> (forall a, logs_only P (k a)) -> logs_only P (bind m k).
Proof.
  intros Hm Hk w. unfold bind. destruct (Hm w) as (Hf & Hs & evs & Ht & HP).
  destruct (m w) as [[a|e] w1]; simpl in *.
  - destruct (Hk a w1) as (Hf' & Hs' & evs' & Ht' & HP').
    rewrite Hf', Hs', Ht', Ht, Hf, Hs. repeat split.
    exists (evs ++ evs'). rewrite app_assoc. split; [done|].
    by apply Forall_app.
  - repeat split; eauto.
Qed.

Lemma logs_only_try_except (m : M A) (h : string -> M A) :
  logs_only P m -> (forall e, logs_only P (h e)) ->
  logs_only P (try_except m h).
Proof.
  intros Hm Hh w. unfold try_except.
  destruct (Hm w) as (Hf & Hs & evs & Ht & HP).
  destruct (m w) as [[a|e] w1]; simpl in *.
  - repeat split; eauto.
  - destruct (Hh e w1) as (Hf' & Hs' & evs' & Ht' & HP').
    rewrite Hf', Hs', Ht', Ht, Hf, Hs. repeat split.
    exists (evs ++ evs'). rewrite app_assoc. split; [done|].
    by apply Forall_app.
Qed.

Lemma logs_only_keep_on_error (a : A) (m : M A) :
  logs_only P m -> logs_only P (keep_on_error a m).
Proof.
  intros Hm. apply logs_only_try_except; [done|].
  intros _. apply logs_only_ret.
Qed.

Lemma logs_only_path_is_file p : logs_only P (path_is_file p).
Proof.
  intros w. simpl. repeat split. exists []. by rewrite app_nil_r.
Qed.
End Logs.

Lemma logs_only_weaken {A} (P Q : Call -> Prop) (m : M A) :
  (forall c, P c -> Q c) -> logs_only P m -> logs_only Q m.
Proof.
  intros HPQ Hm w. destruct (Hm w) as (Hf & Hs & evs & Ht & HP).
  repeat split; [done..|]. exists evs. split; [done|].
  eapply Forall_impl; [exact HP|]. intros ev. apply HPQ.
Qed.
Ltac run_step :=
  match goal with
  | |- context [match ?o with Returns _ => _ | Raises _ => _ end] =>
      let E := fresh "E" in destruct o eqn:E
  | |- context [match ?o with
                | NoConversation => _ | NoMessages => _ | Messages _ => _
                end] =>
      let E := fresh "E" in destruct o eqn:E
  | |- context [match ?o with [] => _ | _ :: _ => _ end] =>
      let E := fresh "E" in destruct o eqn:E
  | |- context [match ?o with Some _ => _ | None => _ end] =>
      let E := fresh "E" in destruct o eqn:E
  | |- context [bool_decide ?P] =>
      let E := fresh "E" in destruct (bool_decide P) eqn:E
  end.

Lemma main_additional_details_spec env id suggs s w :
  exists p evs,
    main.additional_details env id suggs s (bare s) w
    = (Returns p, mkWorld (files w) (states w) (trace w ++ evs))
    /\ round_ok suggs s evs p.
Proof.
  unfold round_ok, main.additional_details, keep_on_error, try_except, bind,
    ret, raise, api_search, api_get_kb_detail, api_ask_question, call.
  cbn [files states trace].
  repeat (run_step; cbn [files states trace is_raise]).
  all: rewrite <- ?app_assoc; cbn [app].
  all: eexists; eexists; (split; [reflexivity|]).
  all: cbn.
  all: rewrite ?E, ?E1, ?E2.
  all: repeat split; try reflexivity; try discriminate; try congruence.
  all: try (repeat constructor; done).
  all: eauto.
Qed.

Lemma main_for_suggestions_spec env id suggs rest :
  forall results w,
  exists rs evss,
    main.for_suggestions env id suggs rest results w
    = (Returns (results ++ rs),
       mkWorld (files w) (states w) (trace w ++ concat evss))
    /\ Forall3 (round_ok suggs) rest evss rs.
Proof.
  induction rest as [|s rest IH]; intros results w.
  - exists [], []. simpl. rewrite !app_nil_r. split; [by destruct w|constructor].
  - cbn [main.for_suggestions]. unfold bind.
    destruct (main_additional_details_spec env id suggs s w)
      as (p & evs & Hrun & Hok).
    fold (bare s). rewrite Hrun.
    destruct (IH (results ++ [p])
                (mkWorld (files w) (states w) (trace w ++ evs)))
      as (rs & evss & Hrest & Hall).
    rewrite Hrest. cbn [files states trace].
    exists (p :: rs), (evs :: evss). split.
    + by rewrite <- !app_assoc.
    + by constructor.
Qed.

Lemma Forall3_length_23 {A B C} (R : A -> B -> C -> Prop) l k k' :
  Forall3 R l k k' -> length k = length l /\ length k' = length l.
Proof. induction 1; simpl; lia. Qed.

(** The four ways [main.py]'s identification ends. *)
Lemma main_identify_missing env image_path w :
  files w !! image_path = None ->
  main.identify_plant_from_path env image_path w
  = (Returns (Error ("Image file not found: " +:+ image_path)), w).
Proof.
  intros Hnone. unfold main.identify_plant_from_path, try_except, bind,
    path_is_file, raise, ret.
  rewrite bool_decide_eq_false_2; [reflexivity|].
  rewrite Hnone. by intros [? ?].
Qed.

Lemma main_identify_raises env image_path w e :
  is_Some (files w !! image_path) ->
  on_identify env (length (trace w)) = Raises e ->
  main.identify_plant_from_path env image_path w
  = (Returns (Error e),
     mkWorld (files w) (states w)
       (trace w ++ [mkEvent (Identify image_path false) true])).
Proof.
  intros Hsome Hid. unfold main.identify_plant_from_path, try_except, bind,
    path_is_file, raise, ret, api_identify, call.
  rewrite bool_decide_eq_true_2 by done. cbn. by rewrite Hid.
Qed.

Lemma main_identify_returns env image_path w id :
  is_Some (files w !! image_path) ->
  on_identify env (length (trace w)) = Returns id ->
  let w1 := mkWorld (files w) (states w)
              (trace w ++ [mkEvent (Identify image_path false) false]) in
  match Identification.result id with
  | NoResult | NoClassification =>
      main.identify_plant_from_path env image_path w
      = (Returns (Error "No classification results available"), w1)
  | Classification [] =>
      main.identify_plant_from_path env image_path w
      = (Returns (Error "No plant matches found"), w1)
  | Classification suggestions =>
      exists rs evss,
        main.identify_plant_from_path env image_path w
        = (Returns (Success rs),
           mkWorld (files w) (states w)
             (trace w1 ++ concat evss))
        /\ Forall3 (round_ok suggestions) (take 3 suggestions) evss rs
  end.
Proof.
  intros Hsome Hid w1. unfold main.identify_plant_from_path, try_except, bind,
    path_is_file, raise, ret, api_identify, call.
  rewrite bool_decide_eq_true_2 by done. cbn [negb fst snd files states trace].
  rewrite Hid. cbn [is_raise].
  destruct (Identification.result id) as [| |[|s suggs]]; try reflexivity.
  destruct (main_for_suggestions_spec env id (s :: suggs) (take 3 (s :: suggs))
              [] w1) as (rs & evss & Hrun & Hall).
  fold w1. rewrite Hrun. exists rs, evss. split; [reflexivity|done].
Qed.

Lemma two_forms_error {P} (cause : Prop) msg :
  cause -> two_forms cause (Returns (@Error P msg)).
Proof.
  intros Hc. exists (Error msg). split; [done|]. split.
  - split; [done|]. intros _. by exists msg.
  - discriminate.
Qed.

Lemma two_forms_success {P} (cause : Prop) (rs : list P) :
  ~ cause -> rs <> [] -> two_forms cause (Returns (Success rs)).
Proof.
  intros Hc Hrs. exists (Success rs). split; [done|]. split.
  - split; [intros [msg ?]; discriminate | done].
  - congruence.
Qed.

Lemma main_identify_two_forms env image_path w :
  two_forms (identification_fails env image_path w)
    (fst (main.identify_plant_from_path env image_path w)).
Proof.
  destruct (files w !! image_path) as [data|] eqn:Hfile.
  - assert (is_Some (files w !! image_path)) as Hsome by (rewrite Hfile; eauto).
    destruct (on_identify env (length (trace w))) as [id|e] eqn:Hid.
    + pose proof (main_identify_returns env image_path w id Hsome Hid) as Hrun.
      cbv zeta in Hrun. unfold identification_fails, no_candidates.
      rewrite Hfile, Hid.
      destruct (Identification.result id) as [| |[|s suggs]] eqn:Hres.
      * rewrite Hrun. apply two_forms_error. right; right. eauto.
      * rewrite Hrun. apply two_forms_error. right; right. eauto.
      * rewrite Hrun. apply two_forms_error. right; right. eauto.
      * destruct Hrun as (rs & evss & Hrun & Hall). rewrite Hrun.
        apply two_forms_success.
        -- intros [?|[[e ?]|(id' & Heq & Hno)]]; try discriminate.
           injection Heq as <-. rewrite Hres in Hno.
           destruct Hno as [?|[?|?]]; discriminate.
        -- apply Forall3_length_23 in Hall as [_ Hlen].
           destruct rs; [discriminate|done].
    + rewrite (main_identify_raises env image_path w e Hsome Hid).
      apply two_forms_error. right; left. eauto.
  - rewrite (main_identify_missing env image_path w Hfile).
    apply two_forms_error. by left.
Qed.

(** ** plantpersona.py: the OpenRouter helpers *)

Lemma openrouter_response_spec env prompt w :
  exists text,
    plantpersona.get_openrouter_response env prompt w
    = (Returns text,
       mkWorld (files w) (states w)
         (trace w ++ [mkEvent (RequestsPost "gpt-3.5-turbo" prompt)
                        (is_raise (on_requests_post env (length (trace w))))]))
    /\ (text = plantpersona.QUIET \/ text = plantpersona.VEILED
        \/ generated env (length (trace w)) text)
    /\ (generated env (length (trace w)) text \/
        forall content, ~ generated env (length (trace w)) content).
Proof.
  unfold plantpersona.get_openrouter_response, try_except, bind, ret,
    requests_post, call, lift_outcome, generated.
  cbn [files states trace].
  destruct (on_requests_post env (length (trace w))) as [response|e] eqn:Hpost;
    cbn [is_raise].
  - destruct (Z.eqb_spec (Response.status_code response) 200) as [H200|H200].
    + destruct (Response.json_content response) as [content|e] eqn:Hjson.
      * exists content. split; [done|]. split; [right; right|left]; eauto.
      * exists plantpersona.VEILED. split; [done|]. split; [by auto|].
        right. intros content (r & Hr & _ & Hc). congruence.
    + exists plantpersona.QUIET. split; [done|]. split; [by auto|].
      right. intros content (r & Hr & Hs & _). congruence.
  - exists plantpersona.VEILED. split; [done|]. split; [by auto|].
    right. intros content (r & Hr & _). congruence.
Qed.

Lemma healing_properties_spec env plant_name w :
  exists text raised,
    plantpersona.get_healing_properties env plant_name w
    = (Returns text,
       mkWorld (files w) (states w)
         (trace w ++ [mkEvent (RequestsPost "gpt-3.5-turbo"
                                 (healing_prompt plant_name)) raised])).
Proof.
  unfold plantpersona.get_healing_properties, try_except.
  fold (healing_prompt plant_name).
  destruct (openrouter_response_spec env (healing_prompt plant_name) w)
    as (text & Hrun & _).
  rewrite Hrun. eauto.
Qed.

Lemma flat_for_suggestions_spec env suggs rest :
  forall results w,
  exists rs evss,
    plantpersona.for_suggestions env suggs rest results w
    = (Returns (results ++ rs),
       mkWorld (files w) (states w) (trace w ++ concat evss))
    /\ Forall3 (flat_round_ok suggs) rest evss rs.
Proof.
  induction rest as [|s rest IH]; intros results w.
  - exists [], []. simpl. rewrite !app_nil_r. split; [by destruct w|constructor].
  - cbn [plantpersona.for_suggestions]. cbv zeta. fold (flat_of s).
    unfold bind at 1.
    destruct (bool_decide (Some s = head suggs)) eqn:Htop.
    + unfold bind at 1.
      destruct (healing_properties_spec env (Suggestion.name s) w)
        as (text & raised & Hrun).
      rewrite Hrun. unfold ret at 1.
      match goal with
      | |- context [plantpersona.for_suggestions _ _ _ ?r ?w1] =>
          destruct (IH r w1) as (rs & evss & Hrest & Hall)
      end.
      rewrite Hrest. cbn [files states trace].
      exists (FlatPlantInfo.set_healing_properties (flat_of s) text :: rs),
        ([mkEvent (RequestsPost "gpt-3.5-turbo"
                     (healing_prompt (Suggestion.name s))) raised] :: evss).
      split.
      * cbn [concat]. rewrite <- !app_assoc. reflexivity.
      * constructor; [|done]. unfold flat_round_ok. rewrite Htop.
        repeat split. eauto.
    + unfold ret at 1.
      destruct (IH (results ++ [flat_of s]) w) as (rs & evss & Hrest & Hall).
      rewrite Hrest.
      exists (flat_of s :: rs), ([] :: evss). split.
      * rewrite <- !app_assoc. reflexivity.
      * constructor; [|done]. unfold flat_round_ok. rewrite Htop. done.
Qed.

Lemma flat_identify_missing env image_path w :
  files w !! image_path = None ->
  plantpersona.identify_plant_from_path env image_path w
  = (Returns (Error ("Image file not found: " +:+ image_path)), w).
Proof.
  intros Hnone. unfold plantpersona.identify_plant_from_path, try_except,
    bind, path_is_file, raise, ret.
  rewrite bool_decide_eq_false_2; [reflexivity|].
  rewrite Hnone. by intros [? ?].
Qed.

Lemma flat_identify_raises env image_path w e :
  is_Some (files w !! image_path) ->
  on_identify env (length (trace w)) = Raises e ->
  plantpersona.identify_plant_from_path env image_path w
  = (Returns (Error e),
     mkWorld (files w) (states w)
       (trace w ++ [mkEvent (Identify image_path false) true])).
Proof.
  intros Hsome Hid. unfold plantpersona.identify_plant_from_path, try_except,
    bind, path_is_file, raise, ret, api_identify, call.
  rewrite bool_decide_eq_true_2 by done. cbn. by rewrite Hid.
Qed.

Lemma flat_identify_returns env image_path w id :
  is_Some (files w !! image_path) ->
  on_identify env (length (trace w)) = Returns id ->
  let w1 := mkWorld (files w) (states w)
              (trace w ++ [mkEvent (Identify image_path false) false]) in
  match Identification.result id with
  | NoResult | NoClassification =>
      plantpersona.identify_plant_from_path env image_path w
      = (Returns (Error "No classification results available"), w1)
  | Classification [] =>
      plantpersona.identify_plant_from_path env image_path w
      = (Returns (Error "No plant matches found"), w1)
  | Classification suggestions =>
      exists rs evss,
        plantpersona.identify_plant_from_path env image_path w
        = (Returns (Success rs),
           mkWorld (files w) (states w) (trace w1 ++ concat evss))
        /\ Forall3 (flat_round_ok suggestions) (take 3 suggestions) evss rs
  end.
Proof.
  intros Hsome Hid w1. unfold plantpersona.identify_plant_from_path,
    try_except, bind, path_is_file, raise, ret, api_identify, call.
  rewrite bool_decide_eq_true_2 by done. cbn [negb fst snd files states trace].
  rewrite Hid. cbn [is_raise].
  destruct (Identification.result id) as [| |[|s suggs]]; try reflexivity.
  destruct (flat_for_suggestions_spec env (s :: suggs) (take 3 (s :: suggs))
              [] w1) as (rs & evss & Hrun & Hall).
  fold w1. rewrite Hrun. exists rs, evss. split; [reflexivity|done].
Qed.

Lemma flat_identify_two_forms env image_path w :
  two_forms (identification_fails env image_path w)
    (fst (plantpersona.identify_plant_from_path env image_path w)).
Proof.
  destruct (files w !! image_path) as [data|] eqn:Hfile.
  - assert (is_Some (files w !! image_path)) as Hsome by (rewrite Hfile; eauto).
    destruct (on_identify env (length (trace w))) as [id|e] eqn:Hid.
    + pose proof (flat_identify_returns env image_path w id Hsome Hid) as Hrun.
      cbv zeta in Hrun. unfold identification_fails, no_candidates.
      rewrite Hfile, Hid.
      destruct (Identification.result id) as [| |[|s suggs]] eqn:Hres.
      * rewrite Hrun. apply two_forms_error. right; right. eauto.
      * rewrite Hrun. apply two_forms_error. right; right. eauto.
      * rewrite Hrun. apply two_forms_error. right; right. eauto.
      * destruct Hrun as (rs & evss & Hrun & Hall). rewrite Hrun.
        apply two_forms_success.
        -- intros [?|[[e ?]|(id' & Heq & Hno)]]; try discriminate.
           injection Heq as <-. rewrite Hres in Hno.
           destruct Hno as [?|[?|?]]; discriminate.
        -- apply Forall3_length_23 in Hall as [_ Hlen].
           destruct rs; [discriminate|done].
    + rewrite (flat_identify_raises env image_path w e Hsome Hid).
      apply two_forms_error. right; left. eauto.
  - rewrite (flat_identify_missing env image_path w Hfile).
    apply two_forms_error. by left.
Qed.

(** ** Strings and the percent format *)

Lemma append_assoc (a b c : string) : (a +:+ b) +:+ c = a +:+ b +:+ c.
Proof.
  induction a as [|x a IH]; [reflexivity|].
  change (String x ((a +:+ b) +:+ c) = String x (a +:+ b +:+ c)).
  by rewrite IH.
Qed.

Lemma append_nil_r (a : string) : a +:+ EmptyString = a.
Proof.
  induction a as [|x a IH]; [reflexivity|].
  change (String x (a +:+ EmptyString) = String x a). by rewrite IH.
Qed.

Lemma pretty_N_char_digit x : is_digit (pretty_N_char x) = true.
Proof. unfold pretty_N_char. by repeat case_match. Qed.

Lemma pretty_N_go_digits x :
  forall s, all_digits s = true -> all_digits (pretty_N_go x s) = true.
Proof.
  induction (N.lt_wf_0 x) as [x _ IH]; intros s Hs.
  assert (x = 0 \/ 0 < x)%N as [->|Hpos] by lia.
  - by rewrite pretty_N_go_0.
  - rewrite pretty_N_go_step by done. apply IH.
    + apply N.div_lt; lia.
    + cbn. by rewrite pretty_N_char_digit, Hs.
Qed.

Lemma pretty_N_go_nonempty x :
  forall s, s <> EmptyString -> pretty_N_go x s <> EmptyString.
Proof.
  induction (N.lt_wf_0 x) as [x _ IH]; intros s Hs.
  assert (x = 0 \/ 0 < x)%N as [->|Hpos] by lia.
  - by rewrite pretty_N_go_0.
  - rewrite pretty_N_go_step by done. apply IH; [apply N.div_lt; lia|done].
Qed.

Lemma pretty_N_digits (x : N) :
  all_digits (pretty x) = true /\ pretty x <> EmptyString.
Proof.
  unfold pretty, pretty_N. case_decide as Hx; [done|]. split.
  - by apply pretty_N_go_digits.
  - rewrite pretty_N_go_step by lia. by apply pretty_N_go_nonempty.
Qed.

Lemma pretty_Z_digits (z : Z) :
  0 <= z -> all_digits (pretty z) = true /\ pretty z <> EmptyString.
Proof.
  intros Hz. destruct z as [|p|p]; [done| |lia].
  apply (pretty_N_digits (N.pos p)).
Qed.

Lemma pretty_Z_one_digit (z : Z) :
  0 <= z < 10 -> exists d, pretty z = String d EmptyString /\ is_digit d = true.
Proof.
  intros Hz.
  assert (z = 0 \/ z = 1 \/ z = 2 \/ z = 3 \/ z = 4 \/ z = 5 \/ z = 6
          \/ z = 7 \/ z = 8 \/ z = 9) as Hcases by lia.
  repeat (destruct Hcases as [->|Hcases]; [eexists; split; reflexivity|]).
  subst z. eexists; split; reflexivity.
Qed.

Lemma round_half_even_nonneg num den :
  0 <= num -> 0 < den -> 0 <= round_half_even num den.
Proof.
  intros Hn Hd. unfold round_half_even.
  assert (0 <= num / den) by (apply Z.div_pos; lia).
  destruct (2 * (num mod den) ?= den); [destruct (Z.even _)|..]; lia.
Qed.

Lemma tenths_nonneg m e : 0 <= tenths m e.
Proof.
  unfold tenths. destruct (Z.leb_spec 0 e).
  - assert (0 <= 2 ^ e) by (apply Z.pow_nonneg; lia). nia.
  - apply round_half_even_nonneg; [lia|]. apply Z.pow_pos_nonneg; lia.
Qed.

Lemma sign_str_cases s : sign_str s = EmptyString \/ sign_str s = "-".
Proof. destruct s; auto. Qed.

Lemma format_percent1_one_decimal x :
  percent_finite x = true -> one_decimal_percent (format_percent1 x).
Proof.
  unfold percent_finite, format_percent1, one_decimal_percent.
  destruct (binary64_mul x float_100) as [s|s| |s m e]; try discriminate;
    intros _; cbn [format_fixed1].
  - exists (sign_str s), "0", "0"%char.
    rewrite !append_assoc. repeat split; auto using sign_str_cases.
  - cbv zeta. pose proof (tenths_nonneg m e) as Ht.
    destruct (pretty_Z_one_digit (tenths m e mod 10)) as (d & Hd & Hdigit).
    { apply Z.mod_pos_bound. lia. }
    destruct (pretty_Z_digits (tenths m e / 10)) as [Hdigits Hne].
    { apply Z.div_pos; lia. }
    exists (sign_str s), (pretty (tenths m e / 10)), d.
    rewrite Hd, !append_assoc. repeat split; auto using sign_str_cases.
Qed.

(** ** The formatting loops *)

Lemma main_format_plant_append idx p response :
  main.format_plant idx p response = response +:+ main_entry idx p.
Proof.
  unfold main_entry, main.format_plant. cbv zeta.
  destruct (Details.common_names (PlantInfo.details p)) as [| |[|n ns]];
    destruct (Details.description (PlantInfo.details p)) as [| |[|c d]];
    destruct idx as [|[|idx]];
    destruct (PlantInfo.healing_properties p) as [h|];
    cbn [String.append]; rewrite ?append_assoc; reflexivity.
Qed.

Lemma main_format_loop_entries rs :
  forall idx response,
    main.format_loop idx rs response
    = response +:+ text_of (imap (fun i p => main_entry (idx + i) p) rs).
Proof.
  induction rs as [|p rs IH]; intros idx response; cbn.
  - by rewrite append_nil_r.
  - rewrite IH, main_format_plant_append, append_assoc, Nat.add_0_r.
    do 3 f_equal. apply imap_ext. intros i q _. cbn. f_equal. lia.
Qed.

Lemma main_entry_ranked idx p :
  exists rest,
    main_entry idx p
    = ranked_entry idx (PlantInfo.name p)
        (format_percent1 (PlantInfo.confidence p)) rest.
Proof.
  unfold main_entry, main.format_plant, ranked_entry. cbv zeta.
  destruct (Details.common_names (PlantInfo.details p)) as [| |[|n ns]];
    destruct (Details.description (PlantInfo.details p)) as [| |[|c d]];
    destruct idx as [|[|idx]];
    destruct (PlantInfo.healing_properties p) as [h|];
    cbn [String.append]; rewrite ?append_assoc; eexists; reflexivity.
Qed.

Lemma main_response_lists_ranked rs :
  Forall (fun p => percent_finite (PlantInfo.confidence p) = true) rs ->
  lists_ranked PlantInfo.name (main.HERB +:+ RESULTS_TITLE +:+ LF +:+ LF)
    (main.format_response rs) rs.
Proof.
  intros Hfin. exists (imap (fun i p => main_entry (S i) p) rs). split.
  - unfold main.format_response. rewrite main_format_loop_entries.
    unfold RESULTS_TITLE. by rewrite !append_assoc.
  - split; [by rewrite length_imap|].
    intros i p Hp. destruct (main_entry_ranked (S i) p) as [rest Hrest].
    exists (format_percent1 (PlantInfo.confidence p)), rest. split.
    + rewrite list_lookup_imap, Hp. cbn. by rewrite Hrest.
    + apply format_percent1_one_decimal.
      rewrite Forall_lookup in Hfin. by apply (Hfin i).
Qed.

Section PersonaFormat.
Context {P : Type}.
Variable name_of : P -> string.
Variable confidence_of : P -> spec_float.

Lemma persona_format_plant_append idx p response :
  persona_handlers.format_plant name_of confidence_of idx p response
  = response +:+ persona_entry name_of confidence_of idx p.
Proof.
  unfold persona_entry, persona_handlers.format_plant. cbv zeta.
  cbn [String.append]. by rewrite ?append_assoc.
Qed.

Lemma persona_format_loop_entries rs :
  forall idx response,
    persona_handlers.format_loop name_of confidence_of idx rs response
    = response
      +:+ text_of
            (imap (fun i p => persona_entry name_of confidence_of (idx + i) p)
               rs).
Proof.
  induction rs as [|p rs IH]; intros idx response; cbn.
  - by rewrite append_nil_r.
  - rewrite IH, persona_format_plant_append, append_assoc, Nat.add_0_r.
    do 3 f_equal. apply imap_ext. intros i q _. cbn. f_equal. lia.
Qed.

Lemma persona_response_lists_ranked rs :
  Forall (fun p => percent_finite (confidence_of p) = true) rs ->
  lists_ranked name_of (persona_handlers.HERB +:+ RESULTS_TITLE +:+ LF +:+ LF)
    (persona_handlers.format_response name_of confidence_of rs) rs.
Proof.
  intros Hfin.
  exists (imap (fun i p => persona_entry name_of confidence_of (S i) p) rs).
  split.
  - unfold persona_handlers.format_response.
    rewrite persona_format_loop_entries.
    unfold RESULTS_TITLE. by rewrite !append_assoc.
  - split; [by rewrite length_imap|].
    intros i p Hp. exists (format_percent1 (confidence_of p)), LF. split.
    + rewrite list_lookup_imap, Hp. cbn.
      unfold persona_entry, persona_handlers.format_plant, ranked_entry.
      cbv zeta. cbn [String.append]. by rewrite ?append_assoc.
    + apply format_percent1_one_decimal.
      rewrite Forall_lookup in Hfin. by apply (Hfin i).
Qed.
End PersonaFormat.

Lemma round_ok_confidences suggs rest evss rs :
  Forall3 (round_ok suggs) rest evss rs ->
  Forall (fun s => percent_finite (Suggestion.probability s) = true) rest ->
  Forall (fun p => percent_finite (PlantInfo.confidence p) = true) rs.
Proof.
  induction 1 as [|s evs p rest evss rs Hok _ IH]; intros Hfin;
    [constructor|].
  apply Forall_cons in Hfin as [Hs Hrest].
  constructor; [|by apply IH].
  destruct Hok as (_ & Hconf & _). by rewrite Hconf.
Qed.



(** ** Frames: what a computation leaves alone *)

Lemma logs_only_split {A} (P : Call -> Prop) (m : M A) :
  logs_only P m <-> keeps_files m /\ keeps_states m /\ trace_only P m.
Proof.
  split.
  - intros H. repeat split; intros w; destruct (H w) as (? & ? & ?); done.
  - intros (Hf & Hs & Ht) w. repeat split; [apply Hf|apply Hs|apply Ht].
Qed.

Section Frames.
Context {A B : Type}.

Lemma trace_only_weaken (P Q : Call -> Prop) (m : M A) :
  (forall c, P c -> Q c) -> trace_only P m -> trace_only Q m.
Proof.
  intros HPQ Hm w. destruct (Hm w) as (evs & Ht & HP).
  exists evs. split; [done|].
  eapply Forall_impl; [exact HP|]. intros ev. apply HPQ.
Qed.

Lemma trace_only_bind P (m : M A) (k : A -> M B) :
  trace_only P m -> (forall a, trace_only P (k a)) -> trace_only P (bind m k).
Proof.
  intros Hm Hk w. unfold bind. destruct (Hm w) as (evs & Ht & HP).
  destruct (m w) as [[a|e] w1]; simpl in *; [|eauto].
  destruct (Hk a w1) as (evs' & Ht' & HP').
  exists (evs ++ evs'). rewrite Ht', Ht, app_assoc. split; [done|].
  by apply Forall_app.
Qed.

Lemma trace_only_try_except P (m : M A) (h : string -> M A) :
  trace_only P m -> (forall e, trace_only P (h e)) ->
  trace_only P (try_except m h).
Proof.
  intros Hm Hh w. unfold try_except. destruct (Hm w) as (evs & Ht & HP).
  destruct (m w) as [[a|e] w1]; simpl in *; [eauto|].
  destruct (Hh e w1) as (evs' & Ht' & HP').
  exists (evs ++ evs'). rewrite Ht', Ht, app_assoc. split; [done|].
  by apply Forall_app.
Qed.

Lemma trace_only_try_finally P (m : M A) (c : M unit) :
  trace_only P m -> trace_only P c -> trace_only P (try_finally m c).
Proof.
  intros Hm Hc w. unfold try_finally. destruct (Hm w) as (evs & Ht & HP).
  destruct (m w) as [r w1]; simpl in *.
  destruct (Hc w1) as (evs' & Ht' & HP').
  exists (evs ++ evs'). rewrite app_assoc, <- Ht, <- Ht'. split.
  - by destruct (c w1) as [[[]|e] w2].
  - by apply Forall_app.
Qed.

Lemma keeps_states_bind (m : M A) (k : A -> M B) :
  keeps_states m -> (forall a, keeps_states (k a)) -> keeps_states (bind m k).
Proof.
  intros Hm Hk w. unfold bind. specialize (Hm w).
  destruct (m w) as [[a|e] w1]; simpl in *; [|done].
  by rewrite Hk.
Qed.

Lemma keeps_states_try_except (m : M A) (h : string -> M A) :
  keeps_states m -> (forall e, keeps_states (h e)) ->
  keeps_states (try_except m h).
Proof.
  intros Hm Hh w. unfold try_except. specialize (Hm w).
  destruct (m w) as [[a|e] w1]; simpl in *; [done|].
  by rewrite Hh.
Qed.
End Frames.

Lemma trace_only_write_file env P p data :
  P (OpenWb p) -> trace_only P (write_file env p data).
Proof.
  intros HP w. unfold write_file.
  destruct (on_open_wb env (length (trace w))); cbn;
    (eexists; split; [reflexivity|by repeat constructor]).
Qed.

Lemma keeps_states_write_file env p data :
  keeps_states (write_file env p data).
Proof.
  intros w. unfold write_file. by destruct (on_open_wb env (length (trace w))).
Qed.

Lemma trace_only_cleanup P message photo_path :
  trace_only P (cleanup message photo_path).
Proof.
  intros w. exists []. rewrite app_nil_r. split; [|constructor].
  unfold cleanup, bind, path_is_file, os_remove, bot_delete_state, ret.
  destruct photo_path as [p|]; cbn; [|done].
  by destruct (bool_decide _).
Qed.

Lemma cleanup_deletes_state message photo_path w :
  states (snd (cleanup message photo_path w))
  = delete (Message.chat_id message, Message.from_user_id message) (states w).
Proof.
  unfold cleanup, bind, path_is_file, os_remove, bot_delete_state, ret.
  destruct photo_path as [p|]; cbn; [|done].
  by destruct (bool_decide _).
Qed.

Lemma cleanup_removes_file message p w :
  files (snd (cleanup message (Some p) w)) !! p = None.
Proof.
  unfold cleanup, bind, path_is_file, os_remove, bot_delete_state, ret. cbn.
  destruct (bool_decide (is_Some (files w !! p))) eqn:Hthere; cbn.
  - apply lookup_delete_eq.
  - apply bool_decide_eq_false in Hthere.
    destruct (files w !! p) eqn:Hp; [|done]. destruct Hthere. eauto.
Qed.

Lemma cleanup_keeps_files message w :
  files (snd (cleanup message None w)) = files w.
Proof. reflexivity. Qed.

Lemma try_finally_world {A} (m : M A) (c : M unit) w :
  snd (try_finally m c w) = snd (c (snd (m w))).
Proof.
  unfold try_finally. destruct (m w) as [r w1]. cbn.
  by destruct (c w1) as [[[]|e] w2].
Qed.

(** ** What the identification functions log *)

Ltac logs_step :=
  first
    [ apply logs_only_ret
    | apply logs_only_raise
    | apply logs_only_lift
    | apply logs_only_path_is_file
    | apply logs_only_call; exact I
    | apply logs_only_keep_on_error
    | apply logs_only_bind; [|intros ?]
    | apply logs_only_try_except; [|intros ?]
    | match goal with
      | |- logs_only _ (match ?x with _ => _ end) => destruct x
      | |- logs_only _ (if ?x then _ else _) => destruct x
      end ].

Ltac logs := repeat logs_step.

Lemma main_additional_details_logs env id suggs s p :
  logs_only is_kindwise_call (main.additional_details env id suggs s p).
Proof.
  unfold main.additional_details, api_search, api_get_kb_detail,
    api_ask_question. logs.
Qed.

Lemma main_for_suggestions_logs env id suggs rest :
  forall results,
    logs_only is_kindwise_call
      (main.for_suggestions env id suggs rest results).
Proof.
  induction rest as [|s rest IH]; intros results; cbn [main.for_suggestions].
  - apply logs_only_ret.
  - apply logs_only_bind; [apply main_additional_details_logs|].
    intros p. apply IH.
Qed.

Lemma main_identify_logs env image_path :
  logs_only is_kindwise_call (main.identify_plant_from_path env image_path).
Proof.
  unfold main.identify_plant_from_path, api_identify.
  apply logs_only_try_except; [|intros; apply logs_only_ret].
  apply logs_only_bind; [apply logs_only_path_is_file|]. intros is_file.
  destruct (negb is_file); [apply logs_only_raise|].
  apply logs_only_bind; [apply logs_only_call; exact I|]. intros id.
  destruct (Identification.result id) as [| |[|s suggs]];
    try apply logs_only_ret.
  apply logs_only_bind; [apply main_for_suggestions_logs|].
  intros; apply logs_only_ret.
Qed.

Lemma openrouter_response_logs env prompt :
  logs_only is_openrouter_call (plantpersona.get_openrouter_response env prompt).
Proof. unfold plantpersona.get_openrouter_response, requests_post. logs. Qed.

Lemma flat_for_suggestions_logs env suggs rest :
  forall results,
    logs_only is_openrouter_call
      (plantpersona.for_suggestions env suggs rest results).
Proof.
  induction rest as [|s rest IH]; intros results;
    cbn [plantpersona.for_suggestions].
  - apply logs_only_ret.
  - cbv zeta. apply logs_only_bind; [|intros p; apply IH].
    destruct (bool_decide _); [|apply logs_only_ret].
    apply logs_only_bind; [|intros; apply logs_only_ret].
    unfold plantpersona.get_healing_properties.
    apply logs_only_try_except; [|intros; apply logs_only_ret].
    apply openrouter_response_logs.
Qed.

Lemma flat_identify_logs env image_path :
  logs_only (fun c => is_kindwise_call c \/ is_openrouter_call c)
    (plantpersona.identify_plant_from_path env image_path).
Proof.
  unfold plantpersona.identify_plant_from_path, api_identify.
  apply logs_only_try_except; [|intros; apply logs_only_ret].
  apply logs_only_bind; [apply logs_only_path_is_file|]. intros is_file.
  destruct (negb is_file); [apply logs_only_raise|].
  apply logs_only_bind; [apply logs_only_call; left; exact I|]. intros id.
  destruct (Identification.result id) as [| |[|s suggs]];
    try apply logs_only_ret.
  apply logs_only_bind; [|intros; apply logs_only_ret].
  eapply logs_only_weaken; [|apply flat_for_suggestions_logs]. by right.
Qed.

Lemma final_persona_logs env plant_info :
  logs_only is_openrouter_call (papaboisfinal.get_plant_persona env plant_info).
Proof. unfold papaboisfinal.get_plant_persona, requests_post. logs. Qed.

Lemma flat_persona_logs env plant_info :
  logs_only is_openrouter_call (plantpersona.get_plant_persona env plant_info).
Proof.
  unfold plantpersona.get_plant_persona.
  apply logs_only_try_except; [|intros; apply logs_only_ret].
  apply logs_only_bind; [apply logs_only_lift|].
  intros; apply openrouter_response_logs.
Qed.

(** ** The photo handler *)

Lemma count_none p evs :
  Forall (fun ev => p ev = false) evs -> count p evs = 0%nat.
Proof.
  induction 1 as [|ev evs Hev _ IH]; [reflexivity|].
  cbn. by rewrite Hev, IH.
Qed.

Lemma telegram_writes_only path c : is_telegram_call c -> writes_only path c.
Proof. intros Hc p ->. destruct Hc. Qed.

Lemma service_writes_only path c :
  is_kindwise_call c \/ is_openrouter_call c -> writes_only path c.
Proof. intros [Hc|Hc] p ->; destruct Hc. Qed.

Lemma logs_only_keeps_states {A} P (m : M A) :
  logs_only P m -> keeps_states m.
Proof. intros H. by apply logs_only_split in H as (_ & ? & _). Qed.

Lemma logs_only_keeps_files {A} P (m : M A) :
  logs_only P m -> keeps_files m.
Proof. intros H. by apply logs_only_split in H as (? & _ & _). Qed.

Lemma logs_only_trace_only {A} P (m : M A) :
  logs_only P m -> trace_only P m.
Proof. intros H. by apply logs_only_split in H as (_ & _ & ?). Qed.

Section PhotoHandler.
Variable receive : M (Z * bytes).
Variable process : Z -> bytes -> string -> M unit.
Variable report : string -> M unit.
Variable message : Message.t.

Hypothesis receive_logs : logs_only is_telegram_call receive.
Hypothesis report_logs : forall e, logs_only is_telegram_call (report e).
Hypothesis process_trace :
  forall pm data,
    trace_only (writes_only (temp_photo_path message))
      (process pm data (temp_photo_path message)).
Hypothesis process_states :
  forall pm data, keeps_states (process pm data (temp_photo_path message)).

Lemma photo_handler_trace :
  trace_only (writes_only (temp_photo_path message))
    (photo_handler receive process report message).
Proof.
  intros w. unfold photo_handler.
  destruct (receive_logs w) as (_ & _ & evs & Ht & HP).
  assert (forall e,
            trace_only (writes_only (temp_photo_path message)) (report e))
    as Hreport.
  { intros e. eapply trace_only_weaken; [apply telegram_writes_only|].
    eapply logs_only_trace_only, report_logs. }
  destruct (receive w) as [[[pm data]|e] w1]; cbn [snd] in Ht.
  - cbv zeta.
    edestruct (trace_only_try_finally
                 (writes_only (temp_photo_path message))
                 (try_except (process pm data (temp_photo_path message))
                    report)
                 (cleanup message (Some (temp_photo_path message))))
      as (evs' & Ht' & HP').
    { by apply trace_only_try_except. }
    { apply trace_only_cleanup. }
    exists (evs ++ evs'). rewrite Ht', Ht, app_assoc. split; [done|].
    apply Forall_app. split; [|done].
    eapply Forall_impl; [exact HP|]. intros ev. apply telegram_writes_only.
  - edestruct (trace_only_try_finally
                 (writes_only (temp_photo_path message))
                 (report e) (cleanup message None))
      as (evs' & Ht' & HP').
    { apply Hreport. }
    { apply trace_only_cleanup. }
    exists (evs ++ evs'). rewrite Ht', Ht, app_assoc. split; [done|].
    apply Forall_app. split; [|done].
    eapply Forall_impl; [exact HP|]. intros ev. apply telegram_writes_only.
Qed.

Lemma photo_handler_states w :
  states (snd (photo_handler receive process report message w))
  = delete (Message.chat_id message, Message.from_user_id message) (states w).
Proof.
  unfold photo_handler.
  destruct (receive_logs w) as (_ & Hs & _).
  destruct (receive w) as [[[pm data]|e] w1]; cbn [snd] in Hs; cbv zeta;
    rewrite try_finally_world, cleanup_deletes_state; f_equal.
  - rewrite <- Hs. apply keeps_states_try_except; [apply process_states|].
    intros e. eapply logs_only_keeps_states, report_logs.
  - rewrite <- Hs. eapply logs_only_keeps_states, report_logs.
Qed.

Lemma photo_handler_files w :
  let w' := snd (photo_handler receive process report message w) in
  files w' !! temp_photo_path message = None
  \/ (files w' = files w /\ count is_open_wb (new_events w w') = 0%nat).
Proof.
  unfold photo_handler.
  destruct (receive_logs w) as (Hf & _ & evs & Ht & HP).
  destruct (receive w) as [[[pm data]|e] w1]; cbn [snd] in Hf, Ht; cbv zeta;
    rewrite try_finally_world.
  - left. apply cleanup_removes_file.
  - right. destruct (report_logs e w1) as (Hf' & _ & evs' & Ht' & HP').
    split; [by rewrite cleanup_keeps_files, Hf'|].
    unfold new_events.
    destruct (trace_only_cleanup (fun _ => True) message None
                (snd (report e w1))) as (evs'' & Ht'' & _).
    assert (evs'' = []) as ->.
    { revert Ht''. cbn. intros Heq.
      apply (f_equal length) in Heq. rewrite length_app in Heq.
      destruct evs''; [done|cbn in Heq; lia]. }
    rewrite Ht'', app_nil_r, Ht', Ht, <- app_assoc, drop_app_length.
    apply count_none, Forall_app. split.
    + eapply Forall_impl; [exact HP|]. intros [c r] Hc; cbn in *.
      by destruct c.
    + eapply Forall_impl; [exact HP'|]. intros [c r] Hc; cbn in *.
      by destruct c.
Qed.

Lemma photo_handler_cleans_up w :
  let w' := snd (photo_handler receive process report message w) in
  user_state w' message = None
  /\ (files w' !! temp_photo_path message = None
      \/ (files w' = files w /\ count is_open_wb (new_events w w') = 0%nat)).
Proof.
  split; [|apply photo_handler_files].
  unfold user_state. rewrite photo_handler_states. apply lookup_delete_eq.
Qed.

Lemma photo_handler_writes w raised path :
  In (mkEvent (OpenWb path) raised)
     (new_events w (snd (photo_handler receive process report message w))) ->
  path = temp_photo_path message.
Proof.
  destruct (photo_handler_trace w) as (evs & Ht & HP).
  unfold new_events. rewrite Ht, drop_app_length. intros Hin.
  rewrite Forall_forall in HP.
  apply (HP (mkEvent (OpenWb path) raised)); [|reflexivity].
  by apply list_elem_of_In.
Qed.
End PhotoHandler.

(** *** main.py *)

Lemma main_handle_photo_frame env message :
  main.handle_photo env message
  = photo_handler (main.receive_photo env message)
      (main.identify_and_reply env message)
      (main.report_error env message) message.
Proof. reflexivity. Qed.

Lemma main_receive_photo_logs env message :
  logs_only is_telegram_call (main.receive_photo env message).
Proof.
  unfold main.receive_photo, bot_reply_to, bot_get_file, bot_download_file.
  logs.
Qed.

Lemma main_report_error_logs env message e :
  logs_only is_telegram_call (main.report_error env message e).
Proof. unfold main.report_error, bot_reply_to. logs. Qed.

Lemma main_identify_and_reply_trace env message pm data path :
  trace_only (writes_only path)
    (main.identify_and_reply env message pm data path).
Proof.
  unfold main.identify_and_reply, bot_edit_message_text.
  apply trace_only_bind; [by apply trace_only_write_file; intros ? [= ->]|].
  intros _. apply trace_only_bind.
  - eapply trace_only_weaken;
      [|eapply logs_only_trace_only, main_identify_logs].
    intros c Hc. apply service_writes_only. by left.
  - intros [e|rs];
      (eapply trace_only_weaken; [apply telegram_writes_only|]);
      apply (logs_only_trace_only is_telegram_call), logs_only_call; exact I.
Qed.

Lemma main_identify_and_reply_states env message pm data path :
  keeps_states (main.identify_and_reply env message pm data path).
Proof.
  unfold main.identify_and_reply, bot_edit_message_text.
  apply keeps_states_bind; [apply keeps_states_write_file|].
  intros _. apply keeps_states_bind.
  - eapply logs_only_keeps_states, main_identify_logs.
  - intros [e|rs];
      apply (logs_only_keeps_states is_telegram_call), logs_only_call;
      exact I.
Qed.

(** *** The persona bots *)

Section PersonaHandlers.
Variable env : Env.
Context {P : Type}.
Variable name_of : P -> string.
Variable confidence_of : P -> spec_float.
Variable identify_plant_from_path : string -> M (IdentifyResult P).
Variable get_plant_persona : P -> M string.

Hypothesis identify_logs :
  forall p,
    logs_only (fun c => is_kindwise_call c \/ is_openrouter_call c)
      (identify_plant_from_path p).
Hypothesis persona_logs :
  forall p, logs_only is_openrouter_call (get_plant_persona p).

Lemma persona_handle_photo_frame message :
  persona_handlers.handle_photo env name_of confidence_of
    identify_plant_from_path get_plant_persona message
  = photo_handler (persona_handlers.receive_photo env message)
      (persona_handlers.identify_and_reply env name_of confidence_of
         identify_plant_from_path get_plant_persona message)
      (persona_handlers.report_error env message) message.
Proof. reflexivity. Qed.

Lemma persona_receive_photo_logs message :
  logs_only is_telegram_call (persona_handlers.receive_photo env message).
Proof.
  unfold persona_handlers.receive_photo, bot_reply_to, bot_get_file,
    bot_download_file.
  logs.
Qed.

Lemma persona_report_error_logs message e :
  logs_only is_telegram_call (persona_handlers.report_error env message e).
Proof. unfold persona_handlers.report_error, bot_reply_to. logs. Qed.

Lemma persona_reply_logs message pm (d : IdentifyResult P) :
  logs_only (fun c => is_telegram_call c \/ is_openrouter_call c)
    (match d with
     | Error e =>
         bot_edit_message_text env (persona_handlers.CROSS +:+ " " +:+ e)
           (Message.chat_id message) pm false
     | Success results =>
         (bot_edit_message_text env
            (persona_handlers.format_response name_of confidence_of results)
            (Message.chat_id message) pm true ;;;
          top_plant <-
            match results with
            | p :: _ => ret p
            | [] => raise INDEX_ERROR
            end ;;
          bot_reply_to env message
            (persona_handlers.STAR
             +:+ " Let me channel the spirit of this plant...") false ;;;
          plant_message <- get_plant_persona top_plant ;;
          bot_reply_to env message
            (persona_handlers.SPARKLES +:+ " *A message from your plant:*"
             +:+ LF +:+ LF +:+ plant_message) true ;;;
          ret tt)%py
     end).
Proof.
  unfold bot_edit_message_text, bot_reply_to.
  destruct d as [e|rs].
  - apply logs_only_call. by left.
  - apply logs_only_bind; [apply logs_only_call; by left|]. intros _.
    apply logs_only_bind; [destruct rs; logs|]. intros top.
    apply logs_only_bind; [apply logs_only_call; by left|]. intros _.
    apply logs_only_bind.
    { eapply logs_only_weaken; [|apply persona_logs]. by right. }
    intros text.
    apply logs_only_bind; [apply logs_only_call; by left|]. intros _.
    apply logs_only_ret.
Qed.

Lemma persona_identify_and_reply_trace message pm data path :
  trace_only (writes_only path)
    (persona_handlers.identify_and_reply env name_of confidence_of
       identify_plant_from_path get_plant_persona message pm data path).
Proof.
  unfold persona_handlers.identify_and_reply.
  apply trace_only_bind; [by apply trace_only_write_file; intros ? [= ->]|].
  intros _. apply trace_only_bind.
  - eapply trace_only_weaken;
      [|eapply logs_only_trace_only, identify_logs].
    apply service_writes_only.
  - intros d. eapply trace_only_weaken;
      [|eapply logs_only_trace_only, (persona_reply_logs message pm d)].
    intros c [Hc|Hc]; [by apply telegram_writes_only|].
    apply service_writes_only. by right.
Qed.

Lemma persona_identify_and_reply_states message pm data path :
  keeps_states
    (persona_handlers.identify_and_reply env name_of confidence_of
       identify_plant_from_path get_plant_persona message pm data path).
Proof.
  unfold persona_handlers.identify_and_reply.
  apply keeps_states_bind; [apply keeps_states_write_file|].
  intros _. apply keeps_states_bind.
  - eapply logs_only_keeps_states, identify_logs.
  - intros d.
    eapply logs_only_keeps_states, (persona_reply_logs message pm d).
Qed.

Lemma persona_handle_photo_cleans_up :
  cleans_up
    (persona_handlers.handle_photo env name_of confidence_of
       identify_plant_from_path get_plant_persona).
Proof.
  intros message w. rewrite persona_handle_photo_frame.
  apply photo_handler_cleans_up.
  - apply persona_receive_photo_logs.
  - apply persona_report_error_logs.
  - intros. apply persona_identify_and_reply_states.
Qed.

Lemma persona_handle_photo_writes :
  writes_temp_file_only
    (persona_handlers.handle_photo env name_of confidence_of
       identify_plant_from_path get_plant_persona).
Proof.
  intros message w raised path. rewrite persona_handle_photo_frame.
  apply photo_handler_writes.
  - apply persona_receive_photo_logs.
  - apply persona_report_error_logs.
  - intros. apply persona_identify_and_reply_trace.
Qed.

Lemma persona_handle_photo_states message w :
  states
    (snd (persona_handlers.handle_photo env name_of confidence_of
            identify_plant_from_path get_plant_persona message w))
  = delete (Message.chat_id message, Message.from_user_id message) (states w).
Proof.
  rewrite persona_handle_photo_frame. apply photo_handler_states.
  - apply persona_receive_photo_logs.
  - apply persona_report_error_logs.
  - intros. apply persona_identify_and_reply_states.
Qed.
End PersonaHandlers.

Lemma main_handle_photo_cleans_up env : cleans_up (main.handle_photo env).
Proof.
  intros message w. rewrite main_handle_photo_frame.
  apply photo_handler_cleans_up.
  - apply main_receive_photo_logs.
  - apply main_report_error_logs.
  - intros. apply main_identify_and_reply_states.
Qed.

Lemma main_handle_photo_writes env :
  writes_temp_file_only (main.handle_photo env).
Proof.
  intros message w raised path. rewrite main_handle_photo_frame.
  apply photo_handler_writes.
  - apply main_receive_photo_logs.
  - apply main_report_error_logs.
  - intros. apply main_identify_and_reply_trace.
Qed.

Lemma main_handle_photo_states env message w :
  states (snd (main.handle_photo env message w))
  = delete (Message.chat_id message, Message.from_user_id message) (states w).
Proof.
  rewrite main_handle_photo_frame. apply photo_handler_states.
  - apply main_receive_photo_logs.
  - apply main_report_error_logs.
  - intros. apply main_identify_and_reply_states.
Qed.

Lemma final_identify_logs env p :
  logs_only (fun c => is_kindwise_call c \/ is_openrouter_call c)
    (papaboisfinal.identify_plant_from_path env p).
Proof.
  eapply logs_only_weaken; [|apply main_identify_logs]. by left.
Qed.


(** C10. Every file a run of [handle_photo] opens for writing has the
    path "temp_plant_<user id>.jpg": the path is a function of the
    sender's id alone, so two runs for the same user -- whatever the
    photos, the chats, the worlds they start from -- write to the same
    path. *)
Theorem photo_path_is_function_of_user_id
    env handle m1 m2 w1 w2 r1 r2 p1 p2 :
  is_photo_handler env handle ->
  Message.from_user_id m1 = Message.from_user_id m2 ->
  In (mkEvent (OpenWb p1) r1) (new_events w1 (snd (handle m1 w1))) ->
  In (mkEvent (OpenWb p2) r2) (new_events w2 (snd (handle m2 w2))) ->
  p1 = "temp_plant_" +:+ pretty (Message.from_user_id m1) +:+ ".jpg"
  /\ p2 = p1.
Proof.
  intros Hh Huser H1 H2.
  assert (writes_temp_file_only handle) as Hw.
  { destruct Hh as [->|[->| ->]].
    - apply main_handle_photo_writes.
    - apply persona_handle_photo_writes;
        [apply final_identify_logs|apply final_persona_logs].
    - apply persona_handle_photo_writes;
        [apply flat_identify_logs|apply flat_persona_logs]. }
  apply Hw in H1, H2. split; [done|]. by rewrite H2, H1, Huser.
Qed.

Lemma photo_path_is_function_of_user_id_witness :
  "temp_plant_42.jpg"
  = "temp_plant_" +:+ pretty (Message.from_user_id photo_message) +:+ ".jpg"
  /\ "temp_plant_42.jpg" = "temp_plant_42.jpg".
Proof.
  apply (photo_path_is_function_of_user_id env_ok (main.handle_photo env_ok)
           photo_message other_photo_message waiting_world empty_world
           false false).
  - left. reflexivity.
  - reflexivity.
  - vm_compute. do 3 right. left. reflexivity.
  - vm_compute. do 3 right. left. reflexivity.
Defined.

(** ** The dispatch *)

Lemma test_commands_text commands message :
  test_commands commands message = true ->
  Message.content_type message = ct_text.
Proof.
  unfold test_commands. intros [H _]%andb_true_iff.
  by apply bool_decide_eq_true in H.
Qed.

Lemma test_commands_two a b message :
  test_commands [a; b] message
  = test_commands [a] message || test_commands [b] message.
Proof.
  unfold test_commands.
  destruct (bool_decide (Message.content_type message = ct_text));
    [|reflexivity].
  destruct (extract_command (Message.text message)) as [c|]; [|reflexivity].
  cbn. rewrite <- bool_decide_or. apply bool_decide_ext.
  rewrite !elem_of_cons, elem_of_nil. tauto.
Qed.

Lemma test_commands_start_not_whois message :
  test_commands ["start"] message = true ->
  test_commands ["whois_plant"] message = false.
Proof.
  unfold test_commands.
  destruct (bool_decide (Message.content_type message = ct_text));
    [|discriminate].
  destruct (extract_command (Message.text message)) as [c|]; [|discriminate].
  cbn. intros Hc%bool_decide_eq_true. apply bool_decide_eq_false.
  apply list_elem_of_singleton in Hc as ->. rewrite list_elem_of_singleton.
  discriminate.
Qed.

Lemma dispatch_cases cmd_start cmd_whois_plant handle_photo
    handle_invalid_input message w :
  process_new_message
    (bot_handlers cmd_start cmd_whois_plant handle_photo handle_invalid_input)
    message w
  = if test_commands ["start"] message then cmd_start message w
    else if test_commands ["whois_plant"] message
         then cmd_whois_plant message w
    else if bool_decide (Message.content_type message = ct_photo)
            && test_state waiting_for_photo message w
         then handle_photo message w
    else if bool_decide (Message.content_type message ∈ REJECTED_TYPES)
            && test_state waiting_for_photo message w
         then handle_invalid_input message w
    else (Returns tt, w).
Proof.
  unfold bot_handlers, process_new_message, test_message_handler, ret.
  cbn [h_commands h_content_types h_state h_run].
  rewrite !andb_true_r.
  assert (forall cs,
            bool_decide (Message.content_type message ∈ [ct_text])
            && test_commands cs message
            = test_commands cs message) as Htext.
  { intros cs. destruct (test_commands cs message) eqn:Hcs;
      [|by rewrite andb_false_r].
    apply test_commands_text in Hcs. rewrite Hcs.
    rewrite bool_decide_eq_true_2; [done|apply list_elem_of_here]. }
  rewrite !Htext.
  assert (bool_decide (Message.content_type message ∈ [ct_photo])
          = bool_decide (Message.content_type message = ct_photo)) as ->.
  { apply bool_decide_ext. apply list_elem_of_singleton. }
  reflexivity.
Qed.

Lemma new_events_refl w : new_events w w = [].
Proof. unfold new_events. apply drop_all. Qed.

Section Router.
Variable env : Env.
Variable camera : string.
Variables cmd_start cmd_whois_plant handle_photo handle_invalid_input
  : Message.t -> M unit.

Hypothesis start_logs :
  forall m, logs_only is_telegram_call (cmd_start m).
Hypothesis whois_states :
  forall m w,
    states (snd (cmd_whois_plant m w))
    = <[sender m := waiting_for_photo]> (states w).
Hypothesis whois_files : forall m, keeps_files (cmd_whois_plant m).
Hypothesis photo_states :
  forall m w,
    states (snd (handle_photo m w)) = delete (sender m) (states w).
Hypothesis invalid_run :
  forall m w,
    snd (handle_invalid_input m w)
    = mkWorld (files w) (states w)
        (trace w ++ [rejection_event env camera m w]).

Let dispatch (message : Message.t) (w : World) : World :=
  snd (process_new_message
         (bot_handlers cmd_start cmd_whois_plant handle_photo
            handle_invalid_input)
         message w).

Lemma router_follows_state_machine : follows_state_machine dispatch.
Proof.
  intros message w. unfold dispatch. rewrite dispatch_cases.
  unfold user_state, next_state, test_state. fold (sender message).
  destruct (test_commands ["start"] message) eqn:Hstart.
  { rewrite (test_commands_start_not_whois _ Hstart).
    apply test_commands_text in Hstart. rewrite Hstart.
    pose proof (logs_only_keeps_states _ _ (start_logs message) w) as Hs.
    rewrite Hs, bool_decide_eq_false_2 by discriminate. done. }
  destruct (test_commands ["whois_plant"] message) eqn:Hwhois.
  { rewrite whois_states. split; [apply lookup_insert_eq|].
    intros k Hk. by apply lookup_insert_ne. }
  destruct (bool_decide (Message.content_type message = ct_photo)) eqn:Hphoto;
    destruct (bool_decide (states w !! sender message
                           = Some waiting_for_photo)) eqn:Hwait;
    cbn [andb].
  - rewrite photo_states. split; [apply lookup_delete_eq|].
    intros k Hk. by apply lookup_delete_ne.
  - by destruct (bool_decide (_ ∈ REJECTED_TYPES)); cbn [andb snd].
  - destruct (bool_decide (_ ∈ REJECTED_TYPES)); cbn [andb snd];
      [rewrite invalid_run|]; done.
  - by destruct (bool_decide (_ ∈ REJECTED_TYPES)); cbn [andb snd].
Qed.

Lemma router_rejects_non_photo : rejects_non_photo env camera dispatch.
Proof.
  intros message w Hwait Hphoto. unfold dispatch. rewrite dispatch_cases.
  unfold user_state in Hwait. fold (sender message) in Hwait.
  unfold test_state. fold (sender message). rewrite Hwait.
  rewrite (bool_decide_eq_false_2 _ Hphoto), (bool_decide_eq_true_2 _ eq_refl).
  cbn [andb]. rewrite andb_true_r.
  destruct (test_commands ["start"] message) eqn:Hstart.
  { cbv zeta. rewrite test_commands_two, Hstart.
    pose proof (test_commands_text _ _ Hstart) as Htext.
    destruct (start_logs message w) as (Hf & Hs & _).
    repeat split; [done..|discriminate|].
    intros Hnot. destruct Hnot. rewrite Htext. apply list_elem_of_here. }
  destruct (test_commands ["whois_plant"] message) eqn:Hwhois.
  { cbv zeta. rewrite test_commands_two, Hwhois, orb_true_r.
    pose proof (test_commands_text _ _ Hwhois) as Htext.
    rewrite whois_states, whois_files.
    repeat split; [by apply insert_id|discriminate|].
    intros Hnot. destruct Hnot. rewrite Htext. apply list_elem_of_here. }
  destruct (bool_decide (Message.content_type message ∈ REJECTED_TYPES))
    eqn:Hrej; cbv zeta.
  - apply bool_decide_eq_true in Hrej. rewrite invalid_run.
    repeat split; [|done]. intros _ _. apply new_events_app.
  - apply bool_decide_eq_false in Hrej. cbn [snd].
    repeat split; [done|]. intros _. apply new_events_refl.
Qed.
End Router.

Lemma main_whois_states env m w :
  states (snd (main.cmd_whois_plant env m w))
  = <[sender m := waiting_for_photo]> (states w).
Proof.
  unfold main.cmd_whois_plant, bind, bot_set_state, bot_reply_to, call, ret.
  cbn. by destruct (on_reply_to env (length (trace w))).
Qed.

Lemma main_whois_files env m : keeps_files (main.cmd_whois_plant env m).
Proof.
  intros w.
  unfold main.cmd_whois_plant, bind, bot_set_state, bot_reply_to, call, ret.
  cbn. by destruct (on_reply_to env (length (trace w))).
Qed.

Lemma main_invalid_run env m w :
  snd (main.handle_invalid_input env m w)
  = mkWorld (files w) (states w)
      (trace w ++ [rejection_event env main.CAMERA m w]).
Proof.
  unfold main.handle_invalid_input, bind, bot_reply_to, call, ret,
    rejection_event, rejection.
  cbn. by destruct (on_reply_to env (length (trace w))).
Qed.

Lemma persona_whois_states env m w :
  states (snd (persona_handlers.cmd_whois_plant env m w))
  = <[sender m := waiting_for_photo]> (states w).
Proof.
  unfold persona_handlers.cmd_whois_plant, bind, bot_set_state, bot_reply_to,
    call, ret.
  cbn. by destruct (on_reply_to env (length (trace w))).
Qed.

Lemma persona_whois_files env m :
  keeps_files (persona_handlers.cmd_whois_plant env m).
Proof.
  intros w.
  unfold persona_handlers.cmd_whois_plant, bind, bot_set_state, bot_reply_to,
    call, ret.
  cbn. by destruct (on_reply_to env (length (trace w))).
Qed.

Lemma persona_invalid_run env m w :
  snd (persona_handlers.handle_invalid_input env m w)
  = mkWorld (files w) (states w)
      (trace w ++ [rejection_event env persona_handlers.CAMERA m w]).
Proof.
  unfold persona_handlers.handle_invalid_input, bind, bot_reply_to, call, ret,
    rejection_event, rejection.
  cbn. by destruct (on_reply_to env (length (trace w))).
Qed.

Lemma main_rejects_non_photo env :
  rejects_non_photo env main.CAMERA (main.dispatch env).
Proof.
  apply (router_rejects_non_photo env main.CAMERA (main.cmd_start env)
           (main.cmd_whois_plant env) (main.handle_photo env)
           (main.handle_invalid_input env)).
  - intros m. unfold main.cmd_start, bot_reply_to. logs.
  - apply main_whois_states.
  - apply main_whois_files.
  - apply main_invalid_run.
Qed.

Lemma main_follows_state_machine env :
  follows_state_machine (main.dispatch env).
Proof.
  apply (router_follows_state_machine env main.CAMERA (main.cmd_start env)
           (main.cmd_whois_plant env) (main.handle_photo env)
           (main.handle_invalid_input env)).
  - intros m. unfold main.cmd_start, bot_reply_to. logs.
  - apply main_whois_states.
  - apply main_handle_photo_states.
  - apply main_invalid_run.
Qed.

Section PersonaRouter.
Variable env : Env.
Context {P : Type}.
Variable name_of : P -> string.
Variable confidence_of : P -> spec_float.
Variable identify_plant_from_path : string -> M (IdentifyResult P).
Variable get_plant_persona : P -> M string.

Hypothesis identify_logs :
  forall p,
    logs_only (fun c => is_kindwise_call c \/ is_openrouter_call c)
      (identify_plant_from_path p).
Hypothesis persona_logs :
  forall p, logs_only is_openrouter_call (get_plant_persona p).

Lemma persona_rejects_non_photo :
  rejects_non_photo env persona_handlers.CAMERA
    (persona_handlers.dispatch env name_of confidence_of
       identify_plant_from_path get_plant_persona).
Proof.
  apply (router_rejects_non_photo env persona_handlers.CAMERA
           (persona_handlers.cmd_start env)
           (persona_handlers.cmd_whois_plant env)
           (persona_handlers.handle_photo env name_of confidence_of
              identify_plant_from_path get_plant_persona)
           (persona_handlers.handle_invalid_input env)).
  - intros m. unfold persona_handlers.cmd_start, bot_reply_to. logs.
  - apply persona_whois_states.
  - apply persona_whois_files.
  - apply persona_invalid_run.
Qed.

Lemma persona_follows_state_machine :
  follows_state_machine
    (persona_handlers.dispatch env name_of confidence_of
       identify_plant_from_path get_plant_persona).
Proof.
  apply (router_follows_state_machine env persona_handlers.CAMERA
           (persona_handlers.cmd_start env)
           (persona_handlers.cmd_whois_plant env)
           (persona_handlers.handle_photo env name_of confidence_of
              identify_plant_from_path get_plant_persona)
           (persona_handlers.handle_invalid_input env)).
  - intros m. unfold persona_handlers.cmd_start, bot_reply_to. logs.
  - apply persona_whois_states.
  - by apply persona_handle_photo_states.
  - apply persona_invalid_run.
Qed.
End PersonaRouter.






(** ** The claims about the identification *)

Lemma plantid_identify_missing env image_path api_key w :
  files w !! image_path = None ->
  plantid.identify_plant env image_path api_key w
  = (Raises ("Image file not found: " +:+ image_path), w).
Proof.
  intros Hnone. unfold plantid.identify_plant, try_except, bind,
    path_is_file, raise, ret.
  rewrite bool_decide_eq_false_2; [reflexivity|].
  rewrite Hnone. by intros [? ?].
Qed.

(** C3. When the path names no existing file, the identification ends
    with the error "Image file not found: <path>" and leaves the world as
    it was: the trace is unchanged, so no identification, search,
    knowledge-base, question or generation request was issued.  The three
    bots return the error in the result; the command-line program of
    [plantid.py] raises it. *)
Theorem missing_file_is_error_without_any_call env image_path api_key w :
  files w !! image_path = None ->
  let e := "Image file not found: " +:+ image_path in
  main.identify_plant_from_path env image_path w = (Returns (Error e), w)
  /\ papaboisfinal.identify_plant_from_path env image_path w
     = (Returns (Error e), w)
  /\ plantpersona.identify_plant_from_path env image_path w
     = (Returns (Error e), w)
  /\ plantid.identify_plant env image_path api_key w = (Raises e, w).
Proof.
  intros Hnone. cbv zeta. repeat split.
  - by apply main_identify_missing.
  - by apply main_identify_missing.
  - by apply flat_identify_missing.
  - by apply plantid_identify_missing.
Qed.

Lemma missing_file_is_error_without_any_call_witness :
  let e := "Image file not found: " +:+ "nowhere.jpg" in
  main.identify_plant_from_path env_ok "nowhere.jpg" world_with_leaf
  = (Returns (Error e), world_with_leaf)
  /\ papaboisfinal.identify_plant_from_path env_ok "nowhere.jpg"
       world_with_leaf
     = (Returns (Error e), world_with_leaf)
  /\ plantpersona.identify_plant_from_path env_ok "nowhere.jpg"
       world_with_leaf
     = (Returns (Error e), world_with_leaf)
  /\ plantid.identify_plant env_ok "nowhere.jpg" "key" world_with_leaf
     = (Raises e, world_with_leaf).
Proof.
  apply (missing_file_is_error_without_any_call env_ok "nowhere.jpg" "key"
           world_with_leaf).
  vm_compute. reflexivity.
Defined.



Lemma main_entry_bare idx s :
  main_entry idx (bare s)
  = plain_entry idx (Suggestion.name s) (Suggestion.probability s).
Proof.
  unfold main_entry, main.format_plant, plain_entry, bare. cbn.
  destruct idx as [|[|idx]]; by rewrite ?append_assoc.
Qed.

Lemma round_ok_kept suggs rest evss rs :
  Forall3 (round_ok suggs) rest evss rs -> Forall3 kept_round rest evss rs.
Proof.
  induction 1 as [|s evs p rest evss rs Hok _ IH]; constructor; [|done].
  destruct Hok as (Hname & Hconf & Hraised & _ & _ & Hhead).
  split; [done|]. split; [done|]. split; [done|].
  intros Hr. split; [by apply Hraised|].
  intros idx. rewrite (Hraised Hr). apply main_entry_bare.
Qed.

(** C5 (amended). Every candidate of a successful identification is
    appended to the results with its name and its confidence, whatever
    its knowledge-base lookup does, and the reply has one entry for each
    result.  When the search or the detail request of a candidate raises,
    its entry shows the rank, the name and the confidence and nothing
    else: the detail fields are missing and, for the top candidate, the
    healing properties too, since the question is asked after the lookup
    in the same [try] block.  The result is the success form, so no error
    is reported to the user. *)
Theorem failed_lookup_keeps_plain_entry env image_path w id suggestions :
  is_Some (files w !! image_path) ->
  on_identify env (length (trace w)) = Returns id ->
  Identification.result id = Classification suggestions ->
  suggestions <> [] ->
  exists rs evss,
    main.identify_plant_from_path env image_path w
    = (Returns (Success rs),
       mkWorld (files w) (states w)
         (trace w ++ mkEvent (Identify image_path false) false
                     :: concat evss))
    /\ main.format_response rs
       = (main.HERB +:+ RESULTS_TITLE +:+ LF +:+ LF)
         +:+ text_of (imap (fun i p => main_entry (S i) p) rs)
    /\ Forall3 kept_round (take 3 suggestions) evss rs.
Proof.
  intros Hfile Hid Hres Hne.
  pose proof (main_identify_returns env image_path w id Hfile Hid) as Hrun.
  cbv zeta in Hrun. rewrite Hres in Hrun.
  destruct suggestions as [|s suggs]; [done|].
  destruct Hrun as (rs & evss & Hrun & Hall).
  exists rs, evss. split; [|split].
  - rewrite Hrun. cbn [trace]. by rewrite <- app_assoc.
  - unfold main.format_response. rewrite main_format_loop_entries.
    unfold RESULTS_TITLE. by rewrite !append_assoc.
  - exact (round_ok_kept _ _ _ _ Hall).
Qed.

Lemma failed_lookup_keeps_plain_entry_witness :
  exists rs evss,
    main.identify_plant_from_path env_search_down "leaf.jpg" world_with_leaf
    = (Returns (Success rs),
       mkWorld (files world_with_leaf) (states world_with_leaf)
         (trace world_with_leaf
          ++ mkEvent (Identify "leaf.jpg" false) false :: concat evss))
    /\ main.format_response rs
       = (main.HERB +:+ RESULTS_TITLE +:+ LF +:+ LF)
         +:+ text_of (imap (fun i p => main_entry (S i) p) rs)
    /\ Forall3 kept_round (take 3 [rosa]) evss rs.
Proof.
  apply (failed_lookup_keeps_plain_entry env_search_down "leaf.jpg"
           world_with_leaf (identification_of [rosa]) [rosa]).
  - vm_compute. eauto.
  - reflexivity.
  - reflexivity.
  - discriminate.
Defined.

(** C5, as worded, fails for the top candidate: when its search raises,
    the round ends without the healing properties that the same round
    stores when the search merely finds nothing. *)
Lemma failed_lookup_costs_healing_properties :
  ~ lookup_failure_costs_only_details env_search_down
      (identification_of [rosa]) [rosa] rosa empty_world.
Proof.
  unfold lookup_failure_costs_only_details. cbv zeta. intros H.
  assert (Heq := H ltac:(vm_compute; reflexivity)).
  vm_compute in Heq. discriminate Heq.
Qed.

Lemma other_rounds_ask_nothing top suggs rest evss rs :
  head suggs = Some top ->
  Forall3 (round_ok suggs) rest evss rs ->
  Forall (fun s => s <> top) rest ->
  count is_ask_question (concat evss) = 0%nat.
Proof.
  intros Htop. induction 1 as [|s evs p rest evss rs Hok _ IH];
    intros Hother; [reflexivity|].
  apply Forall_cons in Hother as [Hs Hrest].
  cbn [concat]. rewrite count_app, (IH Hrest).
  destruct Hok as (_ & _ & _ & -> & _).
  destruct (lookup_raised evs); [reflexivity|].
  rewrite Htop, bool_decide_eq_false_2; [reflexivity|congruence].
Qed.

Lemma other_rounds_request_nothing top suggs rest evss rs :
  head suggs = Some top ->
  Forall3 (flat_round_ok suggs) rest evss rs ->
  Forall (fun s => s <> top) rest ->
  concat evss = [].
Proof.
  intros Htop. induction 1 as [|s evs p rest evss rs Hok _ IH];
    intros Hother; [reflexivity|].
  apply Forall_cons in Hother as [Hs Hrest].
  cbn [concat]. rewrite (IH Hrest).
  destruct Hok as (_ & _ & Hevs).
  rewrite Htop, bool_decide_eq_false_2 in Hevs by congruence.
  by destruct Hevs as [-> _].
Qed.




(** ** The persona *)

Lemma final_persona_spec env plant_info w :
  exists text,
    fst (papaboisfinal.get_plant_persona env plant_info w) = Returns text
    /\ (text = papaboisfinal.MEDITATION
        \/ text = papaboisfinal.COMMUNING
        \/ (exists prompt,
              papaboisfinal.persona_prompt plant_info = Returns prompt
              /\ generated env (length (trace w)) text)).
Proof.
  unfold papaboisfinal.get_plant_persona, try_except, bind, ret,
    requests_post, call, lift_outcome, generated.
  destruct (papaboisfinal.persona_prompt plant_info) as [prompt|e];
    [|by eauto].
  cbn [trace].
  destruct (on_requests_post env (length (trace w))) as [response|e];
    [|by eauto].
  destruct (Z.eqb_spec (Response.status_code response) 200) as [H200|H200];
    [|by eauto].
  destruct (Response.json_content response) as [content|e] eqn:Hjson;
    [|by eauto].
  exists content. split; [done|]. right; right. eauto 10.
Qed.

Lemma flat_persona_spec env plant_info w :
  exists text,
    fst (plantpersona.get_plant_persona env plant_info w) = Returns text
    /\ (text = plantpersona.QUIET
        \/ text = plantpersona.VEILED
        \/ text = plantpersona.ELUDES
        \/ (exists prompt,
              plantpersona.persona_prompt plant_info = Returns prompt
              /\ generated env (length (trace w)) text)).
Proof.
  unfold plantpersona.get_plant_persona, try_except, bind, lift_outcome, ret.
  destruct (plantpersona.persona_prompt plant_info) as [prompt|e];
    [|by eauto 10].
  destruct (openrouter_response_spec env prompt w)
    as (text & Hrun & Htext & _).
  rewrite Hrun. exists text. split; [done|].
  destruct Htext as [->|[->|Hgen]]; eauto 10.
Qed.



(** * Start-up *)

Lemma validate_returns items :
  startup.validate items = Returns tt
  <-> Forall (fun item => not_given (snd item) = false) items.
Proof.
  induction items as [|[name value] items IH]; cbn.
  - split; [constructor|done].
  - rewrite Forall_cons. cbn. destruct (not_given value).
    + split; [discriminate|]. by intros [? _].
    + rewrite IH. tauto.
Qed.

(** X1. The start-up check lets a bot run exactly when every variable it
    needs is set and not empty: the token and the Kindwise key for
    [main.py], these and the OpenRouter key for the persona bots.  So an
    environment that starts a persona bot starts [main.py] too. *)
Theorem environment_accepted_iff_all_given environ :
  (startup.main_environment environ = Returns tt
   <-> given environ "TELEGRAM_BOT_TOKEN" /\ given environ "PLANT_API_KEY")
  /\ (startup.persona_environment environ = Returns tt
      <-> Forall (given environ) REQUIRED_VARIABLES)
  /\ (startup.persona_environment environ = Returns tt ->
      startup.main_environment environ = Returns tt).
Proof.
  unfold startup.main_environment, startup.persona_environment, given.
  cbv zeta. rewrite validate_returns, !Forall_cons, Forall_nil. cbn [snd].
  unfold REQUIRED_VARIABLES. rewrite !Forall_cons, Forall_nil.
  destruct (not_given (environ !! "TELEGRAM_BOT_TOKEN"));
    destruct (not_given (environ !! "PLANT_API_KEY"));
    destruct (not_given (environ !! "OPENROUTER_API_KEY"));
    intuition congruence.
Qed.

(** X2. When the start-up check of a persona bot fails, the exception
    names the first variable, in the order token, Kindwise key,
    OpenRouter key, that is unset or empty; the variables before it are
    given. *)
Theorem environment_error_names_first_missing environ e :
  startup.persona_environment environ = Raises e ->
  exists before name after,
    REQUIRED_VARIABLES = before ++ name :: after
    /\ Forall (given environ) before
    /\ ~ given environ name
    /\ e = "Please set the " +:+ name +:+ " env var".
Proof.
  unfold startup.persona_environment, REQUIRED_VARIABLES, given. cbv zeta.
  cbn [startup.validate].
  destruct (not_given (environ !! "TELEGRAM_BOT_TOKEN")) eqn:Ht.
  { intros [= <-]. exists [], "TELEGRAM_BOT_TOKEN",
      ["PLANT_API_KEY"; "OPENROUTER_API_KEY"].
    repeat split; [constructor|congruence]. }
  destruct (not_given (environ !! "PLANT_API_KEY")) eqn:Hp.
  { intros [= <-]. exists ["TELEGRAM_BOT_TOKEN"], "PLANT_API_KEY",
      ["OPENROUTER_API_KEY"].
    repeat split; [by repeat constructor|congruence]. }
  destruct (not_given (environ !! "OPENROUTER_API_KEY")) eqn:Ho;
    [|discriminate].
  intros [= <-].
  exists ["TELEGRAM_BOT_TOKEN"; "PLANT_API_KEY"], "OPENROUTER_API_KEY", [].
  repeat split; [by repeat constructor|congruence].
Qed.

Lemma environment_error_names_first_missing_witness :
  exists before name after,
    REQUIRED_VARIABLES = before ++ name :: after
    /\ Forall (given {[ "TELEGRAM_BOT_TOKEN" := "123:abc" ]}) before
    /\ ~ given {[ "TELEGRAM_BOT_TOKEN" := "123:abc" ]} name
    /\ "Please set the PLANT_API_KEY env var"
       = "Please set the " +:+ name +:+ " env var".
Proof.
  apply (environment_error_names_first_missing
           {[ "TELEGRAM_BOT_TOKEN" := "123:abc" ]}).
  vm_compute. reflexivity.
Defined.

(** * The installation of the dependencies *)

Lemma find_missing_spec host packages :
  forall acc missing,
    installer.find_missing host packages acc = Returns missing ->
    missing
    = acc ++ List.filter
               (fun package =>
                  match installer.distribution host package with
                  | installer.NotFound => true
                  | _ => false
                  end)
               (map fst packages).
Proof.
  induction packages as [|[package import_name] packages IH];
    intros acc missing; cbn.
  - intros [= <-]. by rewrite app_nil_r.
  - destruct (installer.distribution host package); [..|discriminate].
    + apply IH.
    + intros ->%IH. by rewrite <- app_assoc.
Qed.

Lemma pips_app a b : pips (a ++ b) = pips a ++ pips b.
Proof.
  induction a as [|[line|prompt|package] a IH]; cbn; by rewrite ?IH.
Qed.

Lemma pips_listing (l : list string) :
  pips (map (fun package => installer.Say ("  - " +:+ package)) l) = [].
Proof. induction l; cbn; done. Qed.

Lemma asks_listing (l : list string) :
  asks (map (fun package => installer.Say ("  - " +:+ package)) l) = 0%nat.
Proof. induction l; cbn; done. Qed.

Lemma asks_app a b : asks (a ++ b) = (asks a + asks b)%nat.
Proof.
  induction a as [|[line|prompt|package] a IH]; cbn; by rewrite ?IH.
Qed.

Lemma install_spec host missing :
  forall actions ending,
    installer.install host missing = (actions, ending) ->
    pips actions `prefix_of` missing
    /\ asks actions = 0%nat
    /\ (ending = installer.Done tt
        <-> Forall (fun m => installer.pip_error host m = None) missing)
    /\ (ending = installer.Done tt -> pips actions = missing)
    /\ (ending = installer.Done tt \/ ending = installer.Exit 1).
Proof.
  induction missing as [|m missing IH]; intros actions ending; cbn.
  - intros [= <- <-]. split; [by exists []|]. repeat split; auto.
  - destruct (installer.pip_error host m) as [e|] eqn:Hm.
    + intros [= <- <-]. cbn.
      split; [by exists missing|]. split; [done|].
      split; [|split; [discriminate|by right]].
      split; [discriminate|]. intros [Hnone _]%Forall_cons. congruence.
    + destruct (installer.install host missing) as [actions' ending'].
      intros [= <- <-]. cbn.
      destruct (IH _ _ eq_refl) as (Hpre & Hasks & Hiff & Hall & Hend).
      split; [by apply prefix_cons|]. split; [done|].
      split; [|split; [|done]].
      * split.
        -- intros Hd. constructor; [done|]. by apply Hiff.
        -- intros [_ Hrest]%Forall_cons. by apply Hiff.
      * intros Hd. f_equal. by apply Hall.
Qed.

(** X3. [check_and_install_dependencies] runs pip only after the user
    answered y or Y, and only for required packages whose distribution
    was not found: the packages it installs are, in the order of the
    dictionary, a first part of the missing ones -- all of them when it
    returns True -- and the user is asked at most once. *)
Theorem installer_installs_missing_only host actions ending :
  installer.check_and_install_dependencies host = (actions, ending) ->
  pips actions `prefix_of` not_found host
  /\ (installer.py_lower (installer.answer host) <> "y" -> pips actions = [])
  /\ (ending = installer.Done true -> pips actions = not_found host)
  /\ (asks actions <= 1)%nat.
Proof.
  unfold installer.check_and_install_dependencies, not_found.
  destruct (installer.find_missing host installer.required_packages [])
    as [missing|e] eqn:Hmissing.
  2:{ intros [= <- <-]. repeat split; [by apply prefix_nil|discriminate|].
      cbn. lia. }
  apply find_missing_spec in Hmissing. cbn [app] in Hmissing.
  rewrite <- Hmissing. clear Hmissing.
  destruct missing as [|m ms].
  { intros [= <- <-]. repeat split; cbn; [done|lia]. }
  cbv zeta.
  set (listing :=
         installer.Say (LF +:+ "Some required packages are missing:")
         :: map (fun package => installer.Say ("  - " +:+ package)) (m :: ms)).
  assert (pips listing = [] /\ asks listing = 0%nat) as [Hlp Hla].
  { unfold listing. cbn [pips asks].
    by rewrite pips_listing, (asks_listing (m :: ms)). }
  clearbody listing. case_bool_decide as Hy.
  - destruct (installer.install host (m :: ms)) as [acts e] eqn:Hinstall.
    destruct (install_spec _ _ _ _ Hinstall)
      as (Hpre & Hasks & Hiff & Hall & Hend).
    destruct e as [[]|code|e]; intros [= <- <-];
      rewrite !pips_app, !asks_app, Hlp, Hla; cbn [pips asks app];
      rewrite ?pips_app, ?asks_app, ?Hasks; cbn [pips asks app];
      rewrite ?app_nil_r.
    + split; [done|]. split; [congruence|]. split; [by intros _; apply Hall|].
      lia.
    + split; [done|]. split; [congruence|]. split; [discriminate|lia].
    + split; [done|]. split; [congruence|]. split; [discriminate|lia].
  - intros [= <- <-]. rewrite !pips_app, !asks_app, Hlp, Hla.
    cbn [pips asks app].
    split; [by apply prefix_nil|]. split; [done|]. split; [discriminate|lia].
Qed.

Lemma installer_installs_missing_only_witness :
  pips (fst (installer.check_and_install_dependencies host_without_requests))
    `prefix_of` not_found host_without_requests
  /\ (installer.py_lower (installer.answer host_without_requests) <> "y" ->
      pips (fst (installer.check_and_install_dependencies
                   host_without_requests)) = [])
  /\ (snd (installer.check_and_install_dependencies host_without_requests)
      = installer.Done true ->
      pips (fst (installer.check_and_install_dependencies
                   host_without_requests))
      = not_found host_without_requests)
  /\ (asks (fst (installer.check_and_install_dependencies
                   host_without_requests)) <= 1)%nat.
Proof.
  apply (installer_installs_missing_only host_without_requests).
  vm_compute. reflexivity.
Defined.

(** X4. [check_and_install_dependencies] never returns False: when the
    checks of the distributions go through, it returns True exactly when
    nothing is missing, or the user answered y or Y and pip installed
    every missing package; in every other case it ends the program with
    exit status 1. *)
Theorem installer_returns_true_or_exits host missing :
  installer.find_missing host installer.required_packages [] = Returns missing ->
  let ending := snd (installer.check_and_install_dependencies host) in
  missing = not_found host
  /\ (ending = installer.Done true
      <-> missing = []
          \/ (installer.py_lower (installer.answer host) = "y"
              /\ Forall (fun m => installer.pip_error host m = None) missing))
  /\ (ending = installer.Done true \/ ending = installer.Exit 1).
Proof.
  intros Hmissing. cbv zeta.
  split; [exact (find_missing_spec _ _ _ _ Hmissing)|].
  unfold installer.check_and_install_dependencies. rewrite Hmissing.
  destruct missing as [|m ms]; [cbn; split; [split|]; auto|]. cbv zeta.
  case_bool_decide as Hy.
  - destruct (installer.install host (m :: ms)) as [acts e] eqn:Hinstall.
    destruct (install_spec _ _ _ _ Hinstall)
      as (_ & _ & Hiff & _ & Hend).
    destruct e as [[]|code|e]; cbn [snd].
    + split; [|by left]. split; [|done]. intros _. right.
      split; [done|]. by apply Hiff.
    + destruct Hend as [Hend|[= ->]]; [discriminate|].
      split; [|by right]. split; [discriminate|].
      intros [?|[_ Hall]]; [discriminate|].
      apply Hiff in Hall. discriminate.
    + destruct Hend; discriminate.
  - cbn [snd]. split; [|by right]. split; [discriminate|].
    intros [?|[? _]]; [discriminate|done].
Qed.

Lemma installer_returns_true_or_exits_witness :
  let ending :=
    snd (installer.check_and_install_dependencies host_without_requests) in
  ["requests"] = not_found host_without_requests
  /\ (ending = installer.Done true
      <-> ["requests"] = []
          \/ (installer.py_lower (installer.answer host_without_requests)
              = "y"
              /\ Forall
                   (fun m =>
                      installer.pip_error host_without_requests m = None)
                   ["requests"]))
  /\ (ending = installer.Done true \/ ending = installer.Exit 1).
Proof.
  apply (installer_returns_true_or_exits host_without_requests ["requests"]).
  vm_compute. reflexivity.
Defined.

Lemma import_all_returns host modules :
  installer.import_all host modules = Returns tt ->
  Forall (fun name => installer.importable host name = true) modules.
Proof.
  induction modules as [|name modules IH]; cbn; [constructor|].
  destruct (installer.importable host name) eqn:Hname; [|discriminate].
  intros Hrest. constructor; [done|by apply IH].
Qed.

(** X5. In [papaboisfinal.py] the third-party modules are imported when
    the script is loaded, before its last lines call
    [check_and_install_dependencies()].  So on a machine where a package
    that is not installed cannot be imported, the script never asks the
    user and never runs pip, and it never exits with a status: a missing
    package ends it at the import. *)
Theorem installer_is_never_reached_with_missing_package
    host env environ updates w :
  uninstalled_not_importable host ->
  let '(actions, ending) := installer.script host env environ updates w in
  actions = [] /\ forall code, ending <> installer.Exit code.
Proof.
  intros Hhost. unfold installer.script.
  destruct (installer.import_all host ["telebot"; "kindwise"; "requests"])
    as [[]|e] eqn:Himport; [|by split].
  destruct (startup.persona_environment environ) as [[]|e]; [|by split].
  apply import_all_returns in Himport.
  rewrite !Forall_cons in Himport. destruct Himport as (Ht & Hk & Hr & _).
  assert (forall package import_name,
            In (package, import_name) installer.required_packages ->
            installer.importable host import_name = true ->
            match installer.distribution host package with
            | installer.NotFound => true
            | _ => false
            end = false) as Hfound.
  { intros package import_name Hin Himp.
    destruct (installer.distribution host package) eqn:Hd; try reflexivity.
    rewrite (Hhost _ _ Hin Hd) in Himp. discriminate. }
  assert (not_found host = []) as Hnone.
  { unfold not_found. cbn.
    rewrite (Hfound _ "telebot"), (Hfound _ "kindwise"),
      (Hfound _ "requests"); cbn; auto. }
  unfold installer.check_and_install_dependencies.
  destruct (installer.find_missing host installer.required_packages [])
    as [missing|e] eqn:Hmissing; [|by split].
  apply find_missing_spec in Hmissing. cbn [app] in Hmissing.
  fold (not_found host) in Hmissing. rewrite Hnone in Hmissing. subst missing.
  by split.
Qed.

Lemma installer_is_never_reached_with_missing_package_witness :
  let '(actions, ending) :=
    installer.script host_without_requests env_ok ∅ [] empty_world in
  actions = [] /\ forall code, ending <> installer.Exit code.
Proof.
  apply (installer_is_never_reached_with_missing_package
           host_without_requests env_ok ∅ [] empty_world).
  intros package import_name [H|[H|[H|[]]]]; injection H as <- <-;
    vm_compute; congruence.
Defined.

(** * Runs of messages *)

Lemma polling_state_by_own_messages dispatch :
  follows_state_machine dispatch -> state_by_own_messages dispatch.
Proof.
  intros Hd updates. induction updates as [|u updates IH]; intros w me;
    [reflexivity|].
  cbn [infinity_polling state_after fold_left].
  fold (state_after me updates). rewrite IH. f_equal.
  destruct (Hd u w) as [Hown Hother]. case_bool_decide as Hme.
  - subst me. exact Hown.
  - apply Hother. congruence.
Qed.


Lemma dispatch_ignores_idle cmd_start cmd_whois_plant handle_photo
    handle_invalid_input message w :
  user_state w message = None ->
  test_commands ["start"; "whois_plant"] message = false ->
  snd (process_new_message
         (bot_handlers cmd_start cmd_whois_plant handle_photo
            handle_invalid_input)
         message w)
  = w.
Proof.
  intros Hidle Hcmd. rewrite dispatch_cases.
  rewrite test_commands_two in Hcmd. apply orb_false_iff in Hcmd as [-> ->].
  unfold test_state. unfold user_state in Hidle. rewrite Hidle.
  rewrite (bool_decide_eq_false_2 (None = Some waiting_for_photo))
    by discriminate.
  by rewrite !andb_false_r.
Qed.



Section Counting.
Context {A B : Type}.
Variable p : Event -> bool.

Lemma counts_at_most_weaken n n' (m : M A) :
  (n <= n')%nat -> counts_at_most p n m -> counts_at_most p n' m.
Proof.
  intros Hn Hm w. destruct (Hm w) as (evs & Ht & Hc).
  exists evs. split; [done|lia].
Qed.

Lemma counts_none P (m : M A) :
  (forall ev, P (ev_call ev) -> p ev = false) ->
  trace_only P m -> counts_at_most p 0 m.
Proof.
  intros HP Hm w. destruct (Hm w) as (evs & Ht & Hall).
  exists evs. split; [done|]. rewrite count_none; [lia|].
  eapply Forall_impl; [exact Hall|]. exact HP.
Qed.

Lemma counts_at_most_call c (answer : nat -> Outcome A) :
  counts_at_most p 1 (call c answer).
Proof.
  intros w. eexists. split; [reflexivity|]. cbn.
  destruct (p _); lia.
Qed.

Lemma counts_at_most_bind n1 n2 (m : M A) (k : A -> M B) :
  counts_at_most p n1 m -> (forall a, counts_at_most p n2 (k a)) ->
  counts_at_most p (n1 + n2) (bind m k).
Proof.
  intros Hm Hk w. unfold bind. destruct (Hm w) as (evs & Ht & Hc).
  destruct (m w) as [[a|e] w1]; cbn [snd] in *.
  - destruct (Hk a w1) as (evs' & Ht' & Hc').
    exists (evs ++ evs'). rewrite Ht', Ht, app_assoc, count_app.
    split; [done|lia].
  - exists evs. split; [done|lia].
Qed.

Lemma counts_at_most_try_except n1 n2 (m : M A) (h : string -> M A) :
  counts_at_most p n1 m -> (forall e, counts_at_most p n2 (h e)) ->
  counts_at_most p (n1 + n2) (try_except m h).
Proof.
  intros Hm Hh w. unfold try_except. destruct (Hm w) as (evs & Ht & Hc).
  destruct (m w) as [[a|e] w1]; cbn [snd] in *.
  - exists evs. split; [done|lia].
  - destruct (Hh e w1) as (evs' & Ht' & Hc').
    exists (evs ++ evs'). rewrite Ht', Ht, app_assoc, count_app.
    split; [done|lia].
Qed.

Lemma counts_at_most_try_finally n1 n2 (m : M A) (c : M unit) :
  counts_at_most p n1 m -> counts_at_most p n2 c ->
  counts_at_most p (n1 + n2) (try_finally m c).
Proof.
  intros Hm Hc w. destruct (Hm w) as (evs & Ht & Hn).
  destruct (Hc (snd (m w))) as (evs' & Ht' & Hn').
  exists (evs ++ evs'). rewrite try_finally_world, Ht', Ht, app_assoc.
  rewrite count_app. split; [done|lia].
Qed.
End Counting.

Lemma telegram_not_identify ev :
  is_telegram_call (ev_call ev) -> is_identify ev = false.
Proof. destruct ev as [[] r]; cbn; done. Qed.

Lemma enrichment_not_identify ev :
  is_enrichment_call (ev_call ev) -> is_identify ev = false.
Proof. destruct ev as [[] r]; cbn; done. Qed.

Lemma main_for_suggestions_enrichment env id suggs rest :
  forall results,
    logs_only is_enrichment_call
      (main.for_suggestions env id suggs rest results).
Proof.
  induction rest as [|s rest IH]; intros results; cbn [main.for_suggestions].
  - apply logs_only_ret.
  - apply logs_only_bind; [|intros; apply IH].
    unfold main.additional_details, api_search, api_get_kb_detail,
      api_ask_question. logs.
Qed.

Lemma flat_for_suggestions_enrichment env suggs rest :
  forall results,
    logs_only is_enrichment_call
      (plantpersona.for_suggestions env suggs rest results).
Proof.
  intros results. eapply logs_only_weaken;
    [|apply flat_for_suggestions_logs].
  by intros [].
Qed.

Lemma main_identify_once env image_path :
  counts_at_most is_identify 1
    (main.identify_plant_from_path env image_path).
Proof.
  unfold main.identify_plant_from_path, api_identify.
  apply (counts_at_most_try_except _ 1 0).
  2:{ intros e. apply (counts_none _ (fun _ => False)); [done|].
      eapply logs_only_trace_only, logs_only_ret. }
  apply (counts_at_most_bind _ 0 1).
  { apply (counts_none _ (fun _ => False)); [done|].
    eapply logs_only_trace_only, logs_only_path_is_file. }
  intros is_file. destruct (negb is_file).
  { apply (counts_at_most_weaken _ 0); [lia|].
    apply (counts_none _ (fun _ => False)); [done|].
    eapply logs_only_trace_only, logs_only_raise. }
  apply (counts_at_most_bind _ 1 0); [apply counts_at_most_call|].
  intros id. apply (counts_none _ is_enrichment_call);
    [apply enrichment_not_identify|].
  apply logs_only_trace_only.
  destruct (Identification.result id) as [| |[|s suggs]];
    try apply logs_only_ret.
  apply logs_only_bind; [apply main_for_suggestions_enrichment|].
  intros; apply logs_only_ret.
Qed.

Lemma flat_identify_once env image_path :
  counts_at_most is_identify 1
    (plantpersona.identify_plant_from_path env image_path).
Proof.
  unfold plantpersona.identify_plant_from_path, api_identify.
  apply (counts_at_most_try_except _ 1 0).
  2:{ intros e. apply (counts_none _ (fun _ => False)); [done|].
      eapply logs_only_trace_only, logs_only_ret. }
  apply (counts_at_most_bind _ 0 1).
  { apply (counts_none _ (fun _ => False)); [done|].
    eapply logs_only_trace_only, logs_only_path_is_file. }
  intros is_file. destruct (negb is_file).
  { apply (counts_at_most_weaken _ 0); [lia|].
    apply (counts_none _ (fun _ => False)); [done|].
    eapply logs_only_trace_only, logs_only_raise. }
  apply (counts_at_most_bind _ 1 0); [apply counts_at_most_call|].
  intros id. apply (counts_none _ is_enrichment_call);
    [apply enrichment_not_identify|].
  apply logs_only_trace_only.
  destruct (Identification.result id) as [| |[|s suggs]];
    try apply logs_only_ret.
  apply logs_only_bind; [apply flat_for_suggestions_enrichment|].
  intros; apply logs_only_ret.
Qed.

Section PhotoHandlerCount.
Variable receive : M (Z * bytes).
Variable process : Z -> bytes -> string -> M unit.
Variable report : string -> M unit.
Variable message : Message.t.

Hypothesis receive_logs : logs_only is_telegram_call receive.
Hypothesis report_logs : forall e, logs_only is_telegram_call (report e).
Hypothesis process_once :
  forall pm data path, counts_at_most is_identify 1 (process pm data path).

Lemma photo_handler_identifies_once :
  counts_at_most is_identify 1 (photo_handler receive process report message).
Proof.
  intros w. unfold photo_handler.
  destruct (receive_logs w) as (_ & _ & evs & Ht & HP).
  assert (count is_identify evs = 0%nat) as Hevs.
  { apply count_none. eapply Forall_impl; [exact HP|].
    apply telegram_not_identify. }
  assert (forall e, counts_at_most is_identify 0 (report e)) as Hreport.
  { intros e. apply (counts_none _ is_telegram_call);
      [apply telegram_not_identify|].
    eapply logs_only_trace_only, report_logs. }
  assert (forall pp, counts_at_most is_identify 0 (cleanup message pp))
    as Hcleanup.
  { intros pp. apply (counts_none _ (fun _ => False)); [done|].
    apply trace_only_cleanup. }
  destruct (receive w) as [[[pm data]|e] w1]; cbn [snd] in Ht; cbv zeta.
  - destruct (counts_at_most_try_finally is_identify (1 + 0) 0
                (try_except (process pm data (temp_photo_path message)) report)
                (cleanup message (Some (temp_photo_path message)))
                (counts_at_most_try_except _ _ _ _ _
                   (process_once pm data _) Hreport)
                (Hcleanup _) w1) as (evs' & Ht' & Hc').
    exists (evs ++ evs'). rewrite Ht', Ht, app_assoc, count_app.
    split; [done|lia].
  - destruct (counts_at_most_try_finally is_identify 0 0
                (report e) (cleanup message None) (Hreport e) (Hcleanup _) w1)
      as (evs' & Ht' & Hc').
    exists (evs ++ evs'). rewrite Ht', Ht, app_assoc, count_app.
    split; [done|lia].
Qed.
End PhotoHandlerCount.

Lemma main_handle_photo_identifies_once env message :
  counts_at_most is_identify 1 (main.handle_photo env message).
Proof.
  rewrite main_handle_photo_frame. apply photo_handler_identifies_once.
  - apply main_receive_photo_logs.
  - apply main_report_error_logs.
  - intros pm data path. unfold main.identify_and_reply.
    apply (counts_at_most_bind _ 0 1).
    { apply (counts_none _
               (fun c => match c with OpenWb _ => True | _ => False end));
        [|by apply trace_only_write_file].
      intros [[] r]; cbn; done. }
    intros _. apply (counts_at_most_bind _ 1 0); [apply main_identify_once|].
    intros d. apply (counts_none _ is_telegram_call);
      [apply telegram_not_identify|].
    unfold bot_edit_message_text.
    destruct d; apply logs_only_trace_only, logs_only_call; exact I.
Qed.

Section PersonaHandlerCount.
Variable env : Env.
Context {P : Type}.
Variable name_of : P -> string.
Variable confidence_of : P -> spec_float.
Variable identify_plant_from_path : string -> M (IdentifyResult P).
Variable get_plant_persona : P -> M string.

Hypothesis identify_once :
  forall p, counts_at_most is_identify 1 (identify_plant_from_path p).
Hypothesis persona_logs :
  forall p, logs_only is_openrouter_call (get_plant_persona p).

Lemma persona_handle_photo_identifies_once message :
  counts_at_most is_identify 1
    (persona_handlers.handle_photo env name_of confidence_of
       identify_plant_from_path get_plant_persona message).
Proof.
  rewrite persona_handle_photo_frame. apply photo_handler_identifies_once.
  - apply persona_receive_photo_logs.
  - apply persona_report_error_logs.
  - intros pm data path. unfold persona_handlers.identify_and_reply.
    apply (counts_at_most_bind _ 0 1).
    { apply (counts_none _
               (fun c => match c with OpenWb _ => True | _ => False end));
        [|by apply trace_only_write_file].
      intros [[] r]; cbn; done. }
    intros _. apply (counts_at_most_bind _ 1 0); [apply identify_once|].
    intros d.
    apply (counts_none _ (fun c => is_telegram_call c \/ is_openrouter_call c)).
    { intros [[] r]; cbn; tauto. }
    apply logs_only_trace_only.
    apply (persona_reply_logs env name_of confidence_of get_plant_persona
             persona_logs message pm d).
Qed.
End PersonaHandlerCount.

Section RouterCount.
Variable env : Env.
Variable camera : string.
Variables cmd_start cmd_whois_plant handle_photo handle_invalid_input
  : Message.t -> M unit.

Hypothesis start_logs :
  forall m, logs_only is_telegram_call (cmd_start m).
Hypothesis whois_states :
  forall m w,
    states (snd (cmd_whois_plant m w))
    = <[sender m := waiting_for_photo]> (states w).
Hypothesis whois_trace :
  forall m, trace_only is_telegram_call (cmd_whois_plant m).
Hypothesis photo_states :
  forall m w,
    states (snd (handle_photo m w)) = delete (sender m) (states w).
Hypothesis photo_once :
  forall m, counts_at_most is_identify 1 (handle_photo m).
Hypothesis invalid_run :
  forall m w,
    snd (handle_invalid_input m w)
    = mkWorld (files w) (states w)
        (trace w ++ [rejection_event env camera m w]).

Let dispatch (message : Message.t) (w : World) : World :=
  snd (process_new_message
         (bot_handlers cmd_start cmd_whois_plant handle_photo
            handle_invalid_input)
         message w).

Lemma router_step_identifies_on_request message w :
  (count is_identify (trace (dispatch message w))
   + size (states (dispatch message w))
   <= count is_identify (trace w) + size (states w)
      + (if test_commands ["whois_plant"] message then 1 else 0))%nat.
Proof.
  unfold dispatch. rewrite dispatch_cases.
  destruct (test_commands ["start"] message) eqn:Hstart.
  { destruct (start_logs message w) as (_ & -> & evs & -> & Hevs).
    rewrite count_app, (count_none is_identify evs); [lia|].
    eapply Forall_impl; [exact Hevs|]. apply telegram_not_identify. }
  destruct (test_commands ["whois_plant"] message) eqn:Hwhois.
  { rewrite whois_states. destruct (whois_trace message w) as (evs & -> & Hevs).
    rewrite count_app, (count_none is_identify evs).
    2:{ eapply Forall_impl; [exact Hevs|]. apply telegram_not_identify. }
    rewrite map_size_insert. destruct (states w !! sender message); cbn; lia. }
  destruct (bool_decide (Message.content_type message = ct_photo)
            && test_state waiting_for_photo message w) eqn:Hphoto.
  { apply andb_true_iff in Hphoto as [_ Hwait].
    apply bool_decide_eq_true in Hwait. fold (sender message) in Hwait.
    rewrite photo_states. destruct (photo_once message w) as (evs & -> & Hevs).
    rewrite count_app, map_size_delete, Hwait.
    assert (size (states w) <> 0%nat) as Hsize.
    { apply (map_size_ne_0_lookup_2 _ (sender message)). rewrite Hwait. eauto. }
    cbn. lia. }
  destruct (bool_decide (Message.content_type message ∈ REJECTED_TYPES)
            && test_state waiting_for_photo message w).
  { rewrite invalid_run. cbn [trace states]. rewrite count_app. cbn. lia. }
  cbn [snd]. lia.
Qed.

Lemma router_identifies_on_request_only :
  identifies_on_request_only dispatch.
Proof.
  intros updates. induction updates as [|u updates IH]; intros w.
  - cbn. lia.
  - cbn [infinity_polling]. specialize (IH (dispatch u w)).
    pose proof (router_step_identifies_on_request u w) as Hstep.
    unfold whois_requests in *. cbn [List.filter].
    destruct (test_commands ["whois_plant"] u); cbn [length]; lia.
Qed.
End RouterCount.

Lemma main_whois_trace env m :
  trace_only is_telegram_call (main.cmd_whois_plant env m).
Proof.
  intros w.
  unfold main.cmd_whois_plant, bind, bot_set_state, bot_reply_to, call, ret.
  cbn. destruct (on_reply_to env (length (trace w))); cbn;
    (eexists; split; [reflexivity|by repeat constructor]).
Qed.

Lemma persona_whois_trace env m :
  trace_only is_telegram_call (persona_handlers.cmd_whois_plant env m).
Proof.
  intros w.
  unfold persona_handlers.cmd_whois_plant, bind, bot_set_state, bot_reply_to,
    call, ret.
  cbn. destruct (on_reply_to env (length (trace w))); cbn;
    (eexists; split; [reflexivity|by repeat constructor]).
Qed.


(** * The photo handler, in detail *)

Section Touches.
Context {A B : Type}.
Variable path : string.

Lemma touches_only_keeps (m : M A) : keeps_files m -> touches_only path m.
Proof. intros Hm w p _. by rewrite Hm. Qed.

Lemma touches_only_bind (m : M A) (k : A -> M B) :
  touches_only path m -> (forall a, touches_only path (k a)) ->
  touches_only path (bind m k).
Proof.
  intros Hm Hk w p Hp. unfold bind. specialize (Hm w p Hp).
  destruct (m w) as [[a|e] w1]; cbn [snd] in *; [|done].
  by rewrite Hk.
Qed.

Lemma touches_only_try_except (m : M A) (h : string -> M A) :
  touches_only path m -> (forall e, touches_only path (h e)) ->
  touches_only path (try_except m h).
Proof.
  intros Hm Hh w p Hp. unfold try_except. specialize (Hm w p Hp).
  destruct (m w) as [[a|e] w1]; cbn [snd] in *; [done|].
  by rewrite Hh.
Qed.

Lemma touches_only_try_finally (m : M A) (c : M unit) :
  touches_only path m -> touches_only path c ->
  touches_only path (try_finally m c).
Proof.
  intros Hm Hc w p Hp. rewrite try_finally_world.
  by rewrite Hc, Hm.
Qed.
End Touches.

Lemma touches_only_write_file env path data :
  touches_only path (write_file env path data).
Proof.
  intros w p Hp. unfold write_file.
  destruct (on_open_wb env (length (trace w))); cbn; [done|..];
    by rewrite lookup_insert_ne.
Qed.

Lemma touches_only_cleanup message :
  forall photo_path,
    touches_only (temp_photo_path message)
      (cleanup message
         (if (photo_path : bool) then Some (temp_photo_path message)
          else None)).
Proof.
  intros [|] w p Hp; [|done].
  unfold cleanup, bind, path_is_file, os_remove, bot_delete_state, ret. cbn.
  destruct (bool_decide _); cbn; [|done].
  by rewrite lookup_delete_ne.
Qed.

Section PhotoHandlerFiles.
Variable env : Env.
Variable cross : string.
Variable receive : M (Z * bytes).
Variable process : Z -> bytes -> string -> M unit.
Variable message : Message.t.

Let report (e : string) : M unit :=
  (bot_reply_to env message (cross +:+ " An error occurred: " +:+ e) false ;;;
   ret tt)%py.

Hypothesis receive_logs : logs_only is_telegram_call receive.
Hypothesis process_touches :
  forall pm data,
    touches_only (temp_photo_path message)
      (process pm data (temp_photo_path message)).

Lemma report_logs e : logs_only is_telegram_call (report e).
Proof. unfold report, bot_reply_to. logs. Qed.

Lemma report_run e w :
  snd (report e w)
  = mkWorld (files w) (states w)
      (trace w ++ [error_reply_event env cross message e w]).
Proof.
  unfold report, bind, bot_reply_to, call, ret, error_reply_event. cbn.
  by destruct (on_reply_to env (length (trace w))).
Qed.

Lemma photo_handler_touches w p :
  p <> temp_photo_path message ->
  files (snd (photo_handler receive process report message w)) !! p
  = files w !! p.
Proof.
  intros Hp. unfold photo_handler.
  destruct (receive_logs w) as (Hf & _).
  destruct (receive w) as [[[pm data]|e] w1]; cbn [snd] in Hf; cbv zeta;
    rewrite <- Hf.
  - apply (touches_only_try_finally (temp_photo_path message)); [| |done].
    + apply touches_only_try_except; [apply process_touches|].
      intros e. apply touches_only_keeps.
      eapply logs_only_keeps_files, report_logs.
    + apply (touches_only_cleanup message true).
  - apply (touches_only_try_finally (temp_photo_path message)); [| |done].
    + apply touches_only_keeps. eapply logs_only_keeps_files, report_logs.
    + apply (touches_only_cleanup message false).
Qed.

(** An exception of the download ends the run with the error reply. *)
Lemma photo_handler_reports_receive w e w1 :
  receive w = (Raises e, w1) ->
  new_events w1 (snd (photo_handler receive process report message w))
  = [error_reply_event env cross message e w1].
Proof.
  intros Hr. unfold photo_handler. rewrite Hr.
  rewrite try_finally_world, report_run.
  unfold cleanup, bind, bot_delete_state, ret. cbn.
  apply (new_events_app w1).
Qed.

(** An exception of the processing ends the run with the error reply. *)
Lemma photo_handler_reports_process w pm data w1 e w2 :
  receive w = (Returns (pm, data), w1) ->
  process pm data (temp_photo_path message) w1 = (Raises e, w2) ->
  new_events w2 (snd (photo_handler receive process report message w))
  = [error_reply_event env cross message e w2].
Proof.
  intros Hr Hp. unfold photo_handler. rewrite Hr. cbv zeta.
  rewrite try_finally_world. unfold try_except. rewrite Hp, report_run.
  unfold cleanup, bind, path_is_file, os_remove, bot_delete_state, ret. cbn.
  destruct (bool_decide _); cbn; apply (new_events_app w2).
Qed.
End PhotoHandlerFiles.

Lemma main_identify_and_reply_touches env message pm data path :
  touches_only path (main.identify_and_reply env message pm data path).
Proof.
  unfold main.identify_and_reply, bot_edit_message_text.
  apply touches_only_bind; [apply touches_only_write_file|]. intros _.
  apply touches_only_bind.
  - apply touches_only_keeps.
    eapply logs_only_keeps_files, main_identify_logs.
  - intros [e|rs]; apply touches_only_keeps;
      apply (logs_only_keeps_files is_telegram_call), logs_only_call;
      exact I.
Qed.

Lemma main_handle_photo_touches env :
  touches_temp_file_only (main.handle_photo env).
Proof.
  intros message w p Hp. rewrite main_handle_photo_frame.
  apply (photo_handler_touches env main.CROSS); [| |done].
  - apply main_receive_photo_logs.
  - intros. apply main_identify_and_reply_touches.
Qed.

Lemma main_reports_exceptions env :
  reports_exceptions env main.CROSS (main.receive_photo env)
    (main.identify_and_reply env) (main.handle_photo env).
Proof.
  intros message w. split.
  - intros e w1 Hr. rewrite main_handle_photo_frame.
    by apply (photo_handler_reports_receive env main.CROSS).
  - intros pm data w1 e w2 Hr Hp. rewrite main_handle_photo_frame.
    by apply (photo_handler_reports_process env main.CROSS _ _ _ _ pm data w1).
Qed.

Section PersonaHandlerFiles.
Variable env : Env.
Context {P : Type}.
Variable name_of : P -> string.
Variable confidence_of : P -> spec_float.
Variable identify_plant_from_path : string -> M (IdentifyResult P).
Variable get_plant_persona : P -> M string.

Hypothesis identify_logs :
  forall p,
    logs_only (fun c => is_kindwise_call c \/ is_openrouter_call c)
      (identify_plant_from_path p).
Hypothesis persona_logs :
  forall p, logs_only is_openrouter_call (get_plant_persona p).

Lemma persona_handle_photo_touches :
  touches_temp_file_only
    (persona_handlers.handle_photo env name_of confidence_of
       identify_plant_from_path get_plant_persona).
Proof.
  intros message w p Hp. rewrite persona_handle_photo_frame.
  apply (photo_handler_touches env persona_handlers.CROSS); [| |done].
  - apply persona_receive_photo_logs.
  - intros pm data. unfold persona_handlers.identify_and_reply.
    apply touches_only_bind; [apply touches_only_write_file|]. intros _.
    apply touches_only_bind.
    + apply touches_only_keeps. eapply logs_only_keeps_files, identify_logs.
    + intros d. apply touches_only_keeps.
      eapply logs_only_keeps_files.
      apply (persona_reply_logs env name_of confidence_of get_plant_persona
               persona_logs message pm d).
Qed.

Lemma persona_reports_exceptions :
  reports_exceptions env persona_handlers.CROSS
    (persona_handlers.receive_photo env)
    (persona_handlers.identify_and_reply env name_of confidence_of
       identify_plant_from_path get_plant_persona)
    (persona_handlers.handle_photo env name_of confidence_of
       identify_plant_from_path get_plant_persona).
Proof.
  intros message w. split.
  - intros e w1 Hr. rewrite persona_handle_photo_frame.
    by apply (photo_handler_reports_receive env persona_handlers.CROSS).
  - intros pm data w1 e w2 Hr Hp. rewrite persona_handle_photo_frame.
    by apply (photo_handler_reports_process env persona_handlers.CROSS
                _ _ _ _ pm data w1).
Qed.
End PersonaHandlerFiles.

(** X9. [handle_photo] changes no file but the sender's temporary image:
    every other path holds after the run what it held before, however
    the run ends. *)
Theorem handle_photo_touches_temp_file_only env :
  touches_temp_file_only (main.handle_photo env)
  /\ touches_temp_file_only (papaboisfinal.handle_photo env)
  /\ touches_temp_file_only (plantpersona.handle_photo env).
Proof.
  split; [apply main_handle_photo_touches|]. split.
  - apply persona_handle_photo_touches;
      [apply final_identify_logs|apply final_persona_logs].
  - apply persona_handle_photo_touches;
      [apply flat_identify_logs|apply flat_persona_logs].
Qed.

(** X10. Whatever exception leaves the [try] block of [handle_photo] --
    raised by the processing reply, the download, the write, or a reply
    after the identification -- the handler answers the user with
    "An error occurred: " followed by the text of the exception, and that
    reply is the last call of the run. *)
Theorem handle_photo_reports_exceptions env :
  reports_exceptions env main.CROSS (main.receive_photo env)
    (main.identify_and_reply env) (main.handle_photo env)
  /\ reports_exceptions env persona_handlers.CROSS
       (persona_handlers.receive_photo env)
       (persona_handlers.identify_and_reply env PlantInfo.name
          PlantInfo.confidence (papaboisfinal.identify_plant_from_path env)
          (papaboisfinal.get_plant_persona env))
       (papaboisfinal.handle_photo env)
  /\ reports_exceptions env persona_handlers.CROSS
       (persona_handlers.receive_photo env)
       (persona_handlers.identify_and_reply env FlatPlantInfo.name
          FlatPlantInfo.confidence
          (plantpersona.identify_plant_from_path env)
          (plantpersona.get_plant_persona env))
       (plantpersona.handle_photo env).
Proof.
  split; [apply main_reports_exceptions|].
  split; apply persona_reports_exceptions.
Qed.

(** ** Services are asked after the write *)

Lemma services_follow_write_mono path b c evs :
  services_follow_write path b evs = true ->
  services_follow_write path (b || c) evs = true.
Proof.
  revert b. induction evs as [|ev evs IH]; intros b; cbn; [done|].
  destruct (is_service_call (ev_call ev)).
  - intros [-> H]%andb_true_iff. cbn. by apply (IH true).
  - intros H. rewrite <- orb_assoc, (orb_comm c), orb_assoc. by apply IH.
Qed.

Lemma services_follow_write_written path evs :
  services_follow_write path true evs = true.
Proof.
  induction evs as [|ev evs IH]; cbn; [done|].
  by destruct (is_service_call (ev_call ev)).
Qed.

Lemma services_follow_write_quiet path b evs :
  Forall (fun ev => is_service_call (ev_call ev) = false) evs ->
  services_follow_write path b evs = true.
Proof.
  intros H. revert b. induction H as [|ev evs Hev _ IH]; intros b; cbn;
    [done|].
  rewrite Hev. apply IH.
Qed.

Lemma services_follow_write_quiet_app path b l1 l2 :
  Forall (fun ev => is_service_call (ev_call ev) = false) l1 ->
  services_follow_write path b l2 = true ->
  services_follow_write path b (l1 ++ l2) = true.
Proof.
  intros H. revert b. induction H as [|ev evs Hev _ IH]; intros b H2; cbn;
    [done|].
  rewrite Hev. apply IH. by apply services_follow_write_mono.
Qed.

Lemma services_follow_write_app_quiet path b l1 l2 :
  services_follow_write path b l1 = true ->
  Forall (fun ev => is_service_call (ev_call ev) = false) l2 ->
  services_follow_write path b (l1 ++ l2) = true.
Proof.
  revert b. induction l1 as [|ev l1 IH]; intros b H1 H2; cbn.
  - by apply services_follow_write_quiet.
  - cbn in H1. destruct (is_service_call (ev_call ev)).
    + apply andb_true_iff in H1 as [-> H1]. cbn. by apply IH.
    + by apply IH.
Qed.

Lemma telegram_quiet {A} (m : M A) :
  logs_only is_telegram_call m -> quiet m.
Proof.
  intros H. eapply trace_only_weaken; [|eapply logs_only_trace_only, H].
  by intros [].
Qed.

Lemma quiet_guarded {A} path (m : M A) : quiet m -> guarded path m.
Proof.
  intros H w. destruct (H w) as (evs & Ht & Hq). exists evs.
  split; [done|]. by apply services_follow_write_quiet.
Qed.

Lemma guarded_try_except {A} path (m : M A) (h : string -> M A) :
  guarded path m -> (forall e, quiet (h e)) -> guarded path (try_except m h).
Proof.
  intros Hm Hh w. unfold try_except. destruct (Hm w) as (evs & Ht & HP).
  destruct (m w) as [[a|e] w1]; simpl in *; [eauto|].
  destruct (Hh e w1) as (evs' & Ht' & HP').
  exists (evs ++ evs'). rewrite Ht', Ht, app_assoc. split; [done|].
  by apply services_follow_write_app_quiet.
Qed.

Lemma guarded_try_finally {A} path (m : M A) (c : M unit) :
  guarded path m -> quiet c -> guarded path (try_finally m c).
Proof.
  intros Hm Hc w. unfold try_finally. destruct (Hm w) as (evs & Ht & HP).
  destruct (m w) as [r w1]; simpl in *.
  destruct (Hc w1) as (evs' & Ht' & HP').
  exists (evs ++ evs'). rewrite app_assoc, <- Ht, <- Ht'. split.
  - by destruct (c w1) as [[[]|e] w2].
  - by apply services_follow_write_app_quiet.
Qed.

Lemma write_then_guarded {A} env P path data (rest : M A) :
  trace_only P rest ->
  guarded path (bind (write_file env path data) (fun _ => rest)).
Proof.
  intros Hrest w. unfold bind, write_file.
  destruct (on_open_wb env (length (trace w))); cbn [fst snd trace];
    [by eexists|by eexists|].
  match goal with |- context [rest ?w1] => destruct (Hrest w1) as (evs & Ht & _)
  end.
  cbn [trace] in Ht.
  exists (mkEvent (OpenWb path) false :: evs). split.
  - destruct (rest _) as [r w2]. cbn [snd] in *. rewrite Ht.
    by rewrite <- app_assoc.
  - cbn. unfold wrote. cbn. rewrite String.eqb_refl. cbn.
    apply services_follow_write_written.
Qed.

Lemma guarded_writes_before_services {A} path (m : M A) :
  guarded path m -> writes_before_services path m.
Proof.
  intros H w. destruct (H w) as (evs & Ht & Hs).
  unfold new_events. by rewrite Ht, drop_app_length.
Qed.

Section PhotoHandlerOrder.
Variable env : Env.
Variable receive : M (Z * bytes).
Variable process : Z -> bytes -> string -> M unit.
Variable report : string -> M unit.
Variable message : Message.t.

Hypothesis receive_logs : logs_only is_telegram_call receive.
Hypothesis report_logs : forall e, logs_only is_telegram_call (report e).
Hypothesis process_guarded :
  forall pm data,
    guarded (temp_photo_path message)
      (process pm data (temp_photo_path message)).

Lemma photo_handler_guarded :
  guarded (temp_photo_path message)
    (photo_handler receive process report message).
Proof.
  intros w. unfold photo_handler.
  destruct (telegram_quiet _ receive_logs w) as (evs & Ht & HP).
  destruct (receive w) as [[[pm data]|e] w1]; cbn [snd] in Ht.
  - cbv zeta.
    edestruct (guarded_try_finally (temp_photo_path message)
                 (try_except (process pm data (temp_photo_path message))
                    report)
                 (cleanup message (Some (temp_photo_path message))))
      as (evs' & Ht' & HP').
    { apply guarded_try_except; [apply process_guarded|].
      intros e. apply telegram_quiet, report_logs. }
    { apply trace_only_cleanup. }
    exists (evs ++ evs'). rewrite Ht', Ht, app_assoc. split; [done|].
    by apply services_follow_write_quiet_app.
  - edestruct (guarded_try_finally (temp_photo_path message)
                 (report e) (cleanup message None))
      as (evs' & Ht' & HP').
    { apply quiet_guarded, telegram_quiet, report_logs. }
    { apply trace_only_cleanup. }
    exists (evs ++ evs'). rewrite Ht', Ht, app_assoc. split; [done|].
    by apply services_follow_write_quiet_app.
Qed.
End PhotoHandlerOrder.

Lemma main_handle_photo_guarded env message :
  guarded (temp_photo_path message) (main.handle_photo env message).
Proof.
  rewrite main_handle_photo_frame. apply photo_handler_guarded.
  - apply main_receive_photo_logs.
  - apply main_report_error_logs.
  - intros pm data. unfold main.identify_and_reply.
    apply (write_then_guarded env (fun _ => True)).
    unfold bot_edit_message_text. apply trace_only_bind.
    + eapply trace_only_weaken;
        [|eapply logs_only_trace_only, main_identify_logs].
      done.
    + intros [e|rs];
        (eapply trace_only_weaken;
           [|apply (logs_only_trace_only is_telegram_call), logs_only_call;
             exact I]);
        done.
Qed.

Section PersonaHandlerOrder.
Variable env : Env.
Context {P : Type}.
Variable name_of : P -> string.
Variable confidence_of : P -> spec_float.
Variable identify_plant_from_path : string -> M (IdentifyResult P).
Variable get_plant_persona : P -> M string.

Hypothesis identify_logs :
  forall p,
    logs_only (fun c => is_kindwise_call c \/ is_openrouter_call c)
      (identify_plant_from_path p).
Hypothesis persona_logs :
  forall p, logs_only is_openrouter_call (get_plant_persona p).

Lemma persona_handle_photo_guarded message :
  guarded (temp_photo_path message)
    (persona_handlers.handle_photo env name_of confidence_of
       identify_plant_from_path get_plant_persona message).
Proof.
  rewrite persona_handle_photo_frame. apply photo_handler_guarded.
  - apply persona_receive_photo_logs.
  - apply persona_report_error_logs.
  - intros pm data. unfold persona_handlers.identify_and_reply.
    apply (write_then_guarded env (fun _ => True)).
    apply trace_only_bind.
    + eapply trace_only_weaken;
        [|eapply logs_only_trace_only, identify_logs].
      done.
    + intros d. eapply trace_only_weaken;
        [|eapply logs_only_trace_only,
            (persona_reply_logs env name_of confidence_of get_plant_persona
               persona_logs message pm d)].
      done.
Qed.
End PersonaHandlerOrder.

(** X11. [handle_photo] sends nothing to Kindwise or OpenRouter before the
    image has been written to the sender's temporary file: in the calls of
    a run, every request to a service comes after a write of that file
    that raised no exception. *)
Theorem handle_photo_writes_before_services env message :
  writes_before_services (temp_photo_path message)
    (main.handle_photo env message)
  /\ writes_before_services (temp_photo_path message)
       (papaboisfinal.handle_photo env message)
  /\ writes_before_services (temp_photo_path message)
       (plantpersona.handle_photo env message).
Proof.
  split; [|split]; apply guarded_writes_before_services.
  - apply main_handle_photo_guarded.
  - apply persona_handle_photo_guarded;
      [apply final_identify_logs|apply final_persona_logs].
  - apply persona_handle_photo_guarded;
      [apply flat_identify_logs|apply flat_persona_logs].
Qed.

(** ** No file is left behind *)

Lemma handler_files_subseteq (handle : Message.t -> M unit) :
  cleans_up handle -> touches_temp_file_only handle ->
  forall m w, files (snd (handle m w)) ⊆ files w.
Proof.
  intros Hclean Htouch m w. apply map_subseteq_spec. intros p x Hp.
  destruct (decide (p = temp_photo_path m)) as [->|Hne].
  - destruct (Hclean m w) as [_ [Hnone|[Hsame _]]]; [congruence|].
    by rewrite <- Hsame.
  - by rewrite <- (Htouch m w p Hne).
Qed.

Section RouterFiles.
Variable env : Env.
Variable camera : string.
Variables cmd_start cmd_whois_plant handle_photo handle_invalid_input
  : Message.t -> M unit.

Hypothesis start_logs :
  forall m, logs_only is_telegram_call (cmd_start m).
Hypothesis whois_files : forall m, keeps_files (cmd_whois_plant m).
Hypothesis photo_files :
  forall m w, files (snd (handle_photo m w)) ⊆ files w.
Hypothesis invalid_run :
  forall m w,
    snd (handle_invalid_input m w)
    = mkWorld (files w) (states w)
        (trace w ++ [rejection_event env camera m w]).

Let dispatch (message : Message.t) (w : World) : World :=
  snd (process_new_message
         (bot_handlers cmd_start cmd_whois_plant handle_photo
            handle_invalid_input)
         message w).

Lemma router_step_files message w : files (dispatch message w) ⊆ files w.
Proof.
  unfold dispatch. rewrite dispatch_cases.
  destruct (test_commands ["start"] message).
  { by destruct (start_logs message w) as (-> & _). }
  destruct (test_commands ["whois_plant"] message).
  { by rewrite whois_files. }
  destruct (bool_decide (Message.content_type message = ct_photo)
            && test_state waiting_for_photo message w).
  { apply photo_files. }
  destruct (bool_decide (Message.content_type message ∈ REJECTED_TYPES)
            && test_state waiting_for_photo message w).
  { by rewrite invalid_run. }
  done.
Qed.

Lemma router_leaves_no_file_behind : leaves_no_file_behind dispatch.
Proof.
  intros updates. induction updates as [|u updates IH]; intros w; [done|].
  cbn [infinity_polling]. etrans; [apply IH|apply router_step_files].
Qed.
End RouterFiles.


(** ** plantid.py *)

Lemma returns_bind {A B} (m : M A) (k : A -> M B) :
  returns m -> (forall a, returns (k a)) -> returns (bind m k).
Proof.
  intros Hm Hk w. unfold bind. destruct (Hm w) as (a & Ha).
  destruct (m w) as [r w1]. cbn in Ha. subst r. apply Hk.
Qed.

Lemma returns_print line : returns (print line).
Proof. intros w. by exists tt. Qed.

Lemma returns_try_except {A} (m : M A) (h : string -> M A) :
  (forall e, returns (h e)) -> returns (try_except m h).
Proof.
  intros Hh w. unfold try_except. destruct (m w) as [[a|e] w1]; [by eexists|].
  apply Hh.
Qed.

Lemma plantid_for_suggestions_returns env ci rest :
  forall idx, returns (plantid.for_suggestions env ci idx rest).
Proof.
  induction rest as [|s rest IH]; intros idx; [by eexists|].
  cbn [plantid.for_suggestions].
  apply returns_bind; [apply returns_print|]. intros _.
  apply returns_bind; [apply returns_print|]. intros _.
  apply returns_bind; [|intros _; apply IH].
  apply returns_try_except. intros e w. by eexists.
Qed.

Lemma plantid_results_return env (ci : Identification.t) :
  returns
    (if negb (Identification.completed ci)
     then ret tt
     else
       match Identification.result ci with
       | NoResult | NoClassification => ret tt
       | Classification suggestions =>
           match suggestions with
           | [] => ret tt
           | _ :: _ =>
               print (LF +:+ "🌿 Plant Identification Results:") ;;;
               print plantid.RULE ;;;
               plantid.for_suggestions env ci 1 (take 3 suggestions) ;;;
               print (LF +:+ plantid.RULE)
           end
       end)%py.
Proof.
  destruct (negb (Identification.completed ci)); [by eexists|].
  destruct (Identification.result ci) as [| |[|s suggs]]; try by eexists.
  apply returns_bind; [apply returns_print|]. intros _.
  apply returns_bind; [apply returns_print|]. intros _.
  apply returns_bind; [apply plantid_for_suggestions_returns|]. intros _.
  apply returns_print.
Qed.

(** X13. [identify_plant] of plantid.py fails only before the results:
    for a missing file, or when the identification request or the request
    for its result raises.  Once the result is there it returns, whatever
    the searches, the details and the question do. *)
Theorem plantid_fails_only_before_results env image_path api_key w :
  fst (plantid.identify_plant env image_path api_key w)
  = plantid_outcome env image_path w.
Proof.
  unfold plantid.identify_plant, plantid_outcome, try_except.
  unfold bind at 1. unfold path_is_file. cbn [fst snd].
  destruct (bool_decide (is_Some (files w !! image_path))); cbn [negb];
    [|done].
  unfold bind at 1. unfold api_identify, call at 1.
  destruct (on_identify env (length (trace w))) as [i|e]; [|done].
  unfold bind at 1. unfold api_get_identification, call at 1.
  cbn [trace]. rewrite length_app, Nat.add_1_r. cbn [length].
  destruct (on_get_identification env (S (length (trace w)))) as [ci|e];
    [|done].
  match goal with
  | |- context [match ?m ?w1 with _ => _ end] =>
      destruct (plantid_results_return env ci w1) as ([] & H);
      destruct (m w1) as [r w2]
  end.
  cbn in H. subst r. reflexivity.
Qed.

(** ** What a run costs *)

Section Costs.
Variable p : Event -> bool.

Lemma counts_ret {A} n (a : A) : counts_at_most p n (ret a).
Proof. intros w. exists []. rewrite app_nil_r. split; [done|cbn; lia]. Qed.

Lemma counts_raise {A} n e : counts_at_most p n (@raise A e).
Proof. intros w. exists []. rewrite app_nil_r. split; [done|cbn; lia]. Qed.

Lemma counts_lift {A} n (o : Outcome A) : counts_at_most p n (lift_outcome o).
Proof. intros w. exists []. rewrite app_nil_r. split; [done|cbn; lia]. Qed.

Lemma counts_path_is_file n path : counts_at_most p n (path_is_file path).
Proof. intros w. exists []. rewrite app_nil_r. split; [done|cbn; lia]. Qed.

Lemma counts_call_skip {A} n c (answer : nat -> Outcome A) :
  (forall r, p (mkEvent c r) = false) -> counts_at_most p n (call c answer).
Proof.
  intros Hc w. eexists. split; [reflexivity|]. cbn. rewrite Hc. lia.
Qed.

Lemma counts_call {A} n c (answer : nat -> Outcome A) :
  counts_at_most p (S n) (call c answer).
Proof.
  intros w. eexists. split; [reflexivity|]. cbn. destruct (p _); lia.
Qed.

Lemma counts_write_file env n path data :
  (forall r, p (mkEvent (OpenWb path) r) = false) ->
  counts_at_most p n (write_file env path data).
Proof.
  intros Hc w. unfold write_file.
  destruct (on_open_wb env (length (trace w))); cbn;
    (eexists; split; [reflexivity|]; cbn; rewrite Hc; lia).
Qed.

Lemma counts_bind0 {A B} n (m : M A) (k : A -> M B) :
  counts_at_most p 0 m -> (forall a, counts_at_most p n (k a)) ->
  counts_at_most p n (bind m k).
Proof. apply (counts_at_most_bind p 0 n). Qed.

Lemma counts_bind1 {A B} n (m : M A) (k : A -> M B) :
  counts_at_most p 1 m -> (forall a, counts_at_most p n (k a)) ->
  counts_at_most p (S n) (bind m k).
Proof. apply (counts_at_most_bind p 1 n). Qed.

Lemma counts_try_except0 {A} n (m : M A) (h : string -> M A) :
  counts_at_most p n m -> (forall e, counts_at_most p 0 (h e)) ->
  counts_at_most p n (try_except m h).
Proof.
  intros Hm Hh. apply (counts_at_most_weaken p (n + 0)); [lia|].
  by apply counts_at_most_try_except.
Qed.
End Costs.

Ltac cnt :=
  lazymatch goal with
  | |- counts_at_most _ _ (ret _) => apply counts_ret
  | |- counts_at_most _ _ (raise _) => apply counts_raise
  | |- counts_at_most _ _ (lift_outcome _) => apply counts_lift
  | |- counts_at_most _ _ (path_is_file _) => apply counts_path_is_file
  | |- counts_at_most _ _ (call _ _) =>
      first [ by apply counts_call_skip | apply counts_call ]
  | |- counts_at_most _ _ (bind _ _) =>
      first [ apply counts_bind0; [cnt|intros; cnt]
            | apply counts_bind1; [cnt|intros; cnt] ]
  | |- counts_at_most _ _ (try_except _ _) =>
      apply counts_try_except0; [cnt|intros; cnt]
  | |- counts_at_most _ _ (if ?b then _ else _) => destruct b; cnt
  | |- counts_at_most _ _ (match ?x with _ => _ end) => destruct x; cnt
  | |- _ => solve [auto]
  end.

Lemma plantid_additional_details_costs env ci idx s :
  counts_at_most is_service_request (2 + (if bool_decide (idx = 1%nat)
                                          then 1 else 0))
    (plantid.additional_details env ci idx s)
  /\ counts_at_most is_ask_question (if bool_decide (idx = 1%nat)
                                     then 1 else 0)
       (plantid.additional_details env ci idx s).
Proof.
  unfold plantid.additional_details, plantid.print_details, api_search,
    api_get_kb_detail, api_ask_question, print.
  destruct (bool_decide (idx = 1%nat)); cbn [Nat.add]; split; cnt.
Qed.

Lemma plantid_for_suggestions_costs env ci rest :
  forall idx,
    counts_at_most is_service_request
      (2 * length rest + (if (idx <=? 1)%nat then 1 else 0))
      (plantid.for_suggestions env ci idx rest)
    /\ counts_at_most is_ask_question (if (idx <=? 1)%nat then 1 else 0)
         (plantid.for_suggestions env ci idx rest).
Proof.
  induction rest as [|s rest IH]; intros idx.
  { split; apply counts_ret. }
  cbn [plantid.for_suggestions length].
  destruct (IH (S idx)) as [IHs IHq].
  destruct (plantid_additional_details_costs env ci idx s) as [Hs Hq].
  assert ((if bool_decide (idx = 1%nat) then 1 else 0)
          + (if (S idx <=? 1)%nat then 1 else 0)
          <= (if (idx <=? 1)%nat then 1 else 0))%nat as Hle.
  { case_bool_decide; [by subst|].
    destruct idx as [|[|idx]]; cbn; [lia|done|lia]. }
  unfold print. split.
  - apply counts_bind0; [cnt|]. intros _.
    apply counts_bind0; [cnt|]. intros _.
    eapply counts_at_most_weaken;
      [|apply counts_at_most_bind; [exact Hs|intros _; exact IHs]].
    lia.
  - apply counts_bind0; [cnt|]. intros _.
    apply counts_bind0; [cnt|]. intros _.
    eapply counts_at_most_weaken;
      [|apply counts_at_most_bind; [exact Hq|intros _; exact IHq]].
    lia.
Qed.

(** X14. A run of [identify_plant] of plantid.py sends at most nine
    requests to Kindwise, and asks the question about healing properties
    at most once: in the first round of the loop only, also when the
    candidates repeat. *)
Theorem plantid_run_costs_at_most_nine_requests env image_path api_key :
  counts_at_most is_service_request 9
    (plantid.identify_plant env image_path api_key)
  /\ counts_at_most is_ask_question 1
       (plantid.identify_plant env image_path api_key).
Proof.
  assert (forall ci suggestions,
            counts_at_most is_service_request 7
              (plantid.for_suggestions env ci 1 (take 3 suggestions))
            /\ counts_at_most is_ask_question 1
                 (plantid.for_suggestions env ci 1 (take 3 suggestions)))
    as Hloop.
  { intros ci suggestions.
    destruct (plantid_for_suggestions_costs env ci (take 3 suggestions) 1)
      as [Hs Hq].
    split; [|exact Hq].
    eapply counts_at_most_weaken; [|exact Hs].
    rewrite length_take. change (if (1 <=? 1)%nat then 1 else 0)%nat with 1%nat. lia. }
  unfold plantid.identify_plant, api_identify, api_get_identification, print.
  split.
  - apply counts_try_except0; [|intros; cnt].
    apply counts_bind0; [cnt|]. intros is_file.
    destruct (negb is_file); [cnt|].
    apply counts_bind1; [cnt|]. intros identification.
    apply counts_bind1; [cnt|]. intros ci.
    destruct (negb (Identification.completed ci)); [cnt|].
    destruct (Identification.result ci) as [| |[|s suggs]]; try cnt.
    apply counts_bind0; [cnt|]. intros _.
    apply counts_bind0; [cnt|]. intros _.
    apply (counts_at_most_bind _ 7 0); [apply Hloop|intros _; cnt].
  - apply counts_try_except0; [|intros; cnt].
    apply counts_bind0; [cnt|]. intros is_file.
    destruct (negb is_file); [cnt|].
    apply counts_bind0; [cnt|]. intros identification.
    apply counts_bind0; [cnt|]. intros ci.
    destruct (negb (Identification.completed ci)); [cnt|].
    destruct (Identification.result ci) as [| |[|s suggs]]; try cnt.
    apply counts_bind0; [cnt|]. intros _.
    apply counts_bind0; [cnt|]. intros _.
    apply (counts_at_most_bind _ 1 0); [apply Hloop|intros _; cnt].
Qed.

Lemma main_for_suggestions_costs env id suggs rest :
  forall results,
    counts_at_most is_service_request (3 * length rest)
      (main.for_suggestions env id suggs rest results).
Proof.
  induction rest as [|s rest IH]; intros results; [apply counts_ret|].
  cbn [main.for_suggestions length].
  apply (counts_at_most_weaken _ (3 + 3 * length rest)); [lia|].
  apply counts_at_most_bind; [|intros; apply IH].
  unfold main.additional_details, keep_on_error, api_search,
    api_get_kb_detail, api_ask_question.
  cnt.
Qed.

Lemma main_identify_costs env image_path :
  counts_at_most is_service_request 10
    (main.identify_plant_from_path env image_path).
Proof.
  unfold main.identify_plant_from_path, api_identify.
  apply counts_try_except0; [|intros; cnt].
  apply counts_bind0; [cnt|]. intros is_file.
  destruct (negb is_file); [cnt|].
  apply counts_bind1; [cnt|]. intros id.
  destruct (Identification.result id) as [| |[|s suggs]]; try cnt.
  apply (counts_at_most_bind _ 9 0); [|intros; cnt].
  eapply counts_at_most_weaken; [|apply main_for_suggestions_costs].
  rewrite length_take. lia.
Qed.

Lemma flat_for_suggestions_costs env suggs rest :
  forall results,
    counts_at_most is_service_request (length rest)
      (plantpersona.for_suggestions env suggs rest results).
Proof.
  induction rest as [|s rest IH]; intros results; [apply counts_ret|].
  cbn [plantpersona.for_suggestions length]. cbv zeta.
  apply (counts_at_most_bind _ 1 (length rest)); [|intros; apply IH].
  unfold plantpersona.get_healing_properties,
    plantpersona.get_openrouter_response, requests_post.
  cnt.
Qed.

Lemma flat_identify_costs env image_path :
  counts_at_most is_service_request 4
    (plantpersona.identify_plant_from_path env image_path).
Proof.
  unfold plantpersona.identify_plant_from_path, api_identify.
  apply counts_try_except0; [|intros; cnt].
  apply counts_bind0; [cnt|]. intros is_file.
  destruct (negb is_file); [cnt|].
  apply counts_bind1; [cnt|]. intros id.
  destruct (Identification.result id) as [| |[|s suggs]]; try cnt.
  apply (counts_at_most_bind _ 3 0); [|intros; cnt].
  eapply counts_at_most_weaken; [|apply flat_for_suggestions_costs].
  rewrite length_take. lia.
Qed.

Lemma final_persona_costs env plant_info :
  counts_at_most is_service_request 1
    (papaboisfinal.get_plant_persona env plant_info).
Proof. unfold papaboisfinal.get_plant_persona, requests_post. cnt. Qed.

Lemma flat_persona_costs env plant_info :
  counts_at_most is_service_request 1
    (plantpersona.get_plant_persona env plant_info).
Proof.
  unfold plantpersona.get_plant_persona,
    plantpersona.get_openrouter_response, requests_post.
  cnt.
Qed.

Lemma telegram_not_service ev :
  is_telegram_call (ev_call ev) -> is_service_request ev = false.
Proof. destruct ev as [[] r]; cbn; done. Qed.

Section PhotoHandlerCosts.
Variable receive : M (Z * bytes).
Variable process : Z -> bytes -> string -> M unit.
Variable report : string -> M unit.
Variable message : Message.t.
Variable n : nat.

Hypothesis receive_logs : logs_only is_telegram_call receive.
Hypothesis report_logs : forall e, logs_only is_telegram_call (report e).
Hypothesis process_costs :
  forall pm data path,
    counts_at_most is_service_request n (process pm data path).

Lemma photo_handler_costs :
  counts_at_most is_service_request n
    (photo_handler receive process report message).
Proof.
  intros w. unfold photo_handler.
  destruct (receive_logs w) as (_ & _ & evs & Ht & HP).
  assert (count is_service_request evs = 0%nat) as Hevs.
  { apply count_none. eapply Forall_impl; [exact HP|].
    apply telegram_not_service. }
  assert (forall e, counts_at_most is_service_request 0 (report e))
    as Hreport.
  { intros e. apply (counts_none _ is_telegram_call);
      [apply telegram_not_service|].
    eapply logs_only_trace_only, report_logs. }
  assert (forall pp, counts_at_most is_service_request 0 (cleanup message pp))
    as Hcleanup.
  { intros pp. apply (counts_none _ (fun _ => False)); [done|].
    apply trace_only_cleanup. }
  destruct (receive w) as [[[pm data]|e] w1]; cbn [snd] in Ht; cbv zeta.
  - destruct (counts_at_most_try_finally is_service_request (n + 0) 0
                (try_except (process pm data (temp_photo_path message)) report)
                (cleanup message (Some (temp_photo_path message)))
                (counts_at_most_try_except _ _ _ _ _
                   (process_costs pm data _) Hreport)
                (Hcleanup _) w1) as (evs' & Ht' & Hc').
    exists (evs ++ evs'). rewrite Ht', Ht, app_assoc, count_app.
    split; [done|lia].
  - destruct (counts_at_most_try_finally is_service_request 0 0
                (report e) (cleanup message None) (Hreport e) (Hcleanup _) w1)
      as (evs' & Ht' & Hc').
    exists (evs ++ evs'). rewrite Ht', Ht, app_assoc, count_app.
    split; [done|lia].
Qed.
End PhotoHandlerCosts.

Lemma main_handle_photo_costs env message :
  counts_at_most is_service_request 10 (main.handle_photo env message).
Proof.
  rewrite main_handle_photo_frame. apply photo_handler_costs.
  - apply main_receive_photo_logs.
  - apply main_report_error_logs.
  - intros pm data path.
    unfold main.identify_and_reply, bot_edit_message_text.
    apply counts_bind0; [by apply counts_write_file|]. intros _.
    apply (counts_at_most_bind _ 10 0); [apply main_identify_costs|].
    intros d. cnt.
Qed.

Section PersonaHandlerCosts.
Variable env : Env.
Context {P : Type}.
Variable name_of : P -> string.
Variable confidence_of : P -> spec_float.
Variable identify_plant_from_path : string -> M (IdentifyResult P).
Variable get_plant_persona : P -> M string.
Variable n : nat.

Hypothesis identify_costs :
  forall p, counts_at_most is_service_request n (identify_plant_from_path p).
Hypothesis persona_costs :
  forall p, counts_at_most is_service_request 1 (get_plant_persona p).

Lemma persona_handle_photo_costs message :
  counts_at_most is_service_request (n + 1)
    (persona_handlers.handle_photo env name_of confidence_of
       identify_plant_from_path get_plant_persona message).
Proof.
  rewrite persona_handle_photo_frame. apply photo_handler_costs.
  - apply persona_receive_photo_logs.
  - apply persona_report_error_logs.
  - intros pm data path.
    unfold persona_handlers.identify_and_reply, bot_edit_message_text,
      bot_reply_to.
    apply counts_bind0; [by apply counts_write_file|]. intros _.
    apply counts_at_most_bind; [apply identify_costs|].
    intros d. cnt.
Qed.
End PersonaHandlerCosts.

(** X15. One photo costs a bounded number of requests to Kindwise and
    OpenRouter, however the services answer: at most 10 in main.py, 11 in
    papaboisfinal.py and 5 in plantpersona.py. *)
Theorem photo_costs_are_bounded env message :
  counts_at_most is_service_request 10 (main.handle_photo env message)
  /\ counts_at_most is_service_request 11
       (papaboisfinal.handle_photo env message)
  /\ counts_at_most is_service_request 5
       (plantpersona.handle_photo env message).
Proof.
  split; [apply main_handle_photo_costs|]. split.
  - apply (persona_handle_photo_costs env PlantInfo.name PlantInfo.confidence
             (papaboisfinal.identify_plant_from_path env)
             (papaboisfinal.get_plant_persona env) 10).
    + apply main_identify_costs.
    + apply final_persona_costs.
  - apply (persona_handle_photo_costs env FlatPlantInfo.name
             FlatPlantInfo.confidence
             (plantpersona.identify_plant_from_path env)
             (plantpersona.get_plant_persona env) 4).
    + apply flat_identify_costs.
    + apply flat_persona_costs.
Qed.

(** ** plantpersona.py: the fallbacks *)

(** X16. In plantpersona.py the handler of [get_healing_properties] is
    never reached, [get_openrouter_response] catching everything itself:
    the function is that request, and its text "Properties yet to be
    discovered..." is never the fallback.  [get_plant_persona] reaches its
    own handler only when the prompt cannot be built, and then sends no
    request. *)
Theorem plantpersona_fallbacks env w :
  (forall plant_name,
     plantpersona.get_healing_properties env plant_name w
     = plantpersona.get_openrouter_response env (healing_prompt plant_name) w)
  /\ (forall plant_info,
        plantpersona.get_plant_persona env plant_info w
        = match plantpersona.persona_prompt plant_info with
          | Returns prompt => plantpersona.get_openrouter_response env prompt w
          | Raises _ => (Returns plantpersona.ELUDES, w)
          end).
Proof.
  split.
  - intros plant_name.
    unfold plantpersona.get_healing_properties, try_except.
    fold (healing_prompt plant_name).
    destruct (openrouter_response_spec env (healing_prompt plant_name) w)
      as (text & Hrun & _).
    by rewrite Hrun.
  - intros plant_info.
    unfold plantpersona.get_plant_persona, try_except, bind, lift_outcome.
    destruct (plantpersona.persona_prompt plant_info) as [prompt|e];
      [|done].
    destruct (openrouter_response_spec env prompt w) as (text & Hrun & _).
    by rewrite Hrun.
Qed.

(** ** Exceptions that leave the handler *)

Lemma try_finally_cleanup {A} (m : M A) message photo_path w :
  fst (try_finally m (cleanup message photo_path) w) = fst (m w)
  /\ trace (snd (try_finally m (cleanup message photo_path) w))
     = trace (snd (m w)).
Proof.
  unfold try_finally. destruct (m w) as [r w1]. cbn [fst snd].
  unfold cleanup, bind, path_is_file, os_remove, bot_delete_state, ret.
  destruct photo_path as [p|]; cbn; [|done].
  by destruct (bool_decide _).
Qed.

Section PhotoHandlerEscape.
Variable env : Env.
Variable cross : string.
Variable receive : M (Z * bytes).
Variable process : Z -> bytes -> string -> M unit.
Variable message : Message.t.

Let report (e : string) : M unit :=
  (bot_reply_to env message (cross +:+ " An error occurred: " +:+ e) false ;;;
   ret tt)%py.

Lemma report_raises text w e :
  fst (report text w) = Raises e ->
  last (trace (snd (report text w)))
  = Some (mkEvent
            (ReplyTo (Message.chat_id message) (Message.message_id message)
               (cross +:+ " An error occurred: " +:+ text) false)
            true).
Proof.
  unfold report, bind, bot_reply_to, call, ret. cbn.
  destruct (on_reply_to env (length (trace w))); cbn; [done|].
  intros _. apply last_snoc.
Qed.

Lemma photo_handler_raises w e :
  fst (photo_handler receive process report message w) = Raises e ->
  exists text,
    last (trace (snd (photo_handler receive process report message w)))
    = Some (mkEvent
              (ReplyTo (Message.chat_id message) (Message.message_id message)
                 (cross +:+ " An error occurred: " +:+ text) false)
              true).
Proof.
  unfold photo_handler.
  destruct (receive w) as [[[pm data]|text] w1]; cbv zeta.
  - destruct (try_finally_cleanup
                (try_except (process pm data (temp_photo_path message))
                   report)
                message (Some (temp_photo_path message)) w1) as [-> ->].
    unfold try_except.
    destruct (process pm data (temp_photo_path message) w1)
      as [[[]|text] w2]; [done|].
    intros H. exists text. by apply (report_raises text w2 e).
  - destruct (try_finally_cleanup (report text) message None w1) as [-> ->].
    intros H. exists text. by apply (report_raises text w1 e).
Qed.
End PhotoHandlerEscape.


(** ** The run of a photo when nothing fails around the identification *)

Lemma not_raise_returns {A} (o : Outcome A) :
  is_raise o = false -> exists a, o = Returns a.
Proof. destruct o; [eauto|discriminate]. Qed.

Lemma main_receive_photo_works env message w :
  telegram_works env -> Message.photo message <> [] ->
  exists pm data w1,
    main.receive_photo env message w = (Returns (pm, data), w1)
    /\ on_reply_to env (length (trace w)) = Returns pm.
Proof.
  intros Htg Hphoto.
  unfold main.receive_photo, bind, bot_reply_to, bot_get_file,
    bot_download_file, call, ret, raise.
  cbn [files states trace].
  destruct (not_raise_returns _ (proj1 (Htg (length (trace w)))))
    as (pm & ->).
  destruct (last (Message.photo message)) as [f|] eqn:Hlast;
    [|by apply last_None in Hlast].
  match goal with
  | |- context [on_get_file env ?n] =>
      destruct (not_raise_returns _ (proj1 (proj2 (proj2 (Htg n)))))
        as (path & ->)
  end.
  cbn [files states trace].
  match goal with
  | |- context [on_download_file env ?n] =>
      destruct (not_raise_returns _ (proj2 (proj2 (proj2 (Htg n)))))
        as (data & ->)
  end.
  eauto.
Qed.

Lemma main_identify_returns_always env image_path :
  returns (main.identify_plant_from_path env image_path).
Proof.
  unfold main.identify_plant_from_path. apply returns_try_except.
  intros e w. by eexists.
Qed.

Lemma main_identify_and_reply_works env message pm data path w :
  telegram_works env -> disk_works env ->
  exists text markdown w1,
    main.identify_and_reply env message pm data path w = (Returns tt, w1)
    /\ last (trace w1)
       = Some (mkEvent
                 (EditMessageText text (Message.chat_id message) pm markdown)
                 false).
Proof.
  intros Htg Hdisk. unfold main.identify_and_reply.
  unfold bind at 1. unfold write_file. rewrite Hdisk.
  unfold bind.
  match goal with
  | |- context [main.identify_plant_from_path env path ?w0] =>
      destruct (main_identify_returns_always env path w0) as (d & Hd);
      destruct (main.identify_plant_from_path env path w0) as [r w1]
  end.
  cbn in Hd. subst r.
  destruct d as [e|rs]; unfold bot_edit_message_text, call;
    destruct (not_raise_returns _
                (proj1 (proj2 (Htg (length (trace w1)))))) as ([] & Hedit);
    rewrite Hedit; cbn [is_raise];
    do 3 eexists; (split; [reflexivity|]); cbn [trace]; apply last_snoc.
Qed.

Lemma main_handle_photo_works env message w :
  telegram_works env -> disk_works env -> Message.photo message <> [] ->
  answers_in_place env (main.handle_photo env) message w.
Proof.
  intros Htg Hdisk Hphoto. unfold answers_in_place.
  rewrite main_handle_photo_frame. unfold photo_handler.
  destruct (main_receive_photo_works env message w Htg Hphoto)
    as (pm & data & w1 & -> & Hpm).
  cbv zeta.
  destruct (try_finally_cleanup
              (try_except
                 (main.identify_and_reply env message pm data
                    (temp_photo_path message))
                 (main.report_error env message))
              message (Some (temp_photo_path message)) w1) as [-> ->].
  unfold try_except.
  destruct (main_identify_and_reply_works env message pm data
              (temp_photo_path message) w1 Htg Hdisk)
    as (text & markdown & w2 & -> & Hlast).
  split; [done|]. by exists pm, text, markdown.
Qed.

Section PersonaHandlerWorks.
Variable env : Env.
Context {P : Type}.
Variable name_of : P -> string.
Variable confidence_of : P -> spec_float.
Variable identify_plant_from_path : string -> M (IdentifyResult P).
Variable get_plant_persona : P -> M string.

Hypothesis telegram : telegram_works env.
Hypothesis disk : disk_works env.
Hypothesis identify_returns :
  forall p, returns (identify_plant_from_path p).
Hypothesis identify_nonempty :
  forall p w rs,
    fst (identify_plant_from_path p w) = Returns (Success rs) -> rs <> [].
Hypothesis persona_returns : forall p, returns (get_plant_persona p).

Lemma persona_receive_photo_works message w :
  Message.photo message <> [] ->
  exists pm data w1,
    persona_handlers.receive_photo env message w = (Returns (pm, data), w1)
    /\ on_reply_to env (length (trace w)) = Returns pm.
Proof.
  intros Hphoto.
  unfold persona_handlers.receive_photo, bind, bot_reply_to, bot_get_file,
    bot_download_file, call, ret, raise.
  cbn [files states trace].
  destruct (not_raise_returns _ (proj1 (telegram (length (trace w)))))
    as (pm & ->).
  destruct (last (Message.photo message)) as [f|] eqn:Hlast;
    [|by apply last_None in Hlast].
  match goal with
  | |- context [on_get_file env ?n] =>
      destruct (not_raise_returns _ (proj1 (proj2 (proj2 (telegram n)))))
        as (path & ->)
  end.
  cbn [files states trace].
  match goal with
  | |- context [on_download_file env ?n] =>
      destruct (not_raise_returns _ (proj2 (proj2 (proj2 (telegram n)))))
        as (data & ->)
  end.
  eauto.
Qed.

Lemma reply_works message text markdown w :
  exists sent,
    bot_reply_to env message text markdown w
    = (Returns sent,
       mkWorld (files w) (states w)
         (trace w
          ++ [mkEvent
                (ReplyTo (Message.chat_id message)
                   (Message.message_id message) text markdown)
                false])).
Proof.
  unfold bot_reply_to, call.
  destruct (not_raise_returns _ (proj1 (telegram (length (trace w)))))
    as (sent & ->).
  by exists sent.
Qed.

Lemma edit_works text chat_id message_id markdown w :
  bot_edit_message_text env text chat_id message_id markdown w
  = (Returns tt,
     mkWorld (files w) (states w)
       (trace w
        ++ [mkEvent (EditMessageText text chat_id message_id markdown)
              false])).
Proof.
  unfold bot_edit_message_text, call.
  destruct (not_raise_returns _
              (proj1 (proj2 (telegram (length (trace w)))))) as ([] & ->).
  done.
Qed.

Lemma persona_identify_and_reply_works message pm data path w :
  exists w1,
    persona_handlers.identify_and_reply env name_of confidence_of
      identify_plant_from_path get_plant_persona message pm data path w
    = (Returns tt, w1)
    /\ ((exists e,
           last (trace w1)
           = Some (mkEvent
                     (EditMessageText (persona_handlers.CROSS +:+ " " +:+ e)
                        (Message.chat_id message) pm false)
                     false))
        \/ (exists plant_message,
              last (trace w1)
              = Some (mkEvent
                        (ReplyTo (Message.chat_id message)
                           (Message.message_id message)
                           (persona_handlers.SPARKLES
                            +:+ " *A message from your plant:*"
                            +:+ LF +:+ LF +:+ plant_message)
                           true)
                        false))).
Proof.
  unfold persona_handlers.identify_and_reply.
  unfold bind at 1. unfold write_file. rewrite disk.
  unfold bind at 1.
  match goal with
  | |- context [identify_plant_from_path path ?w0] =>
      destruct (identify_returns path w0) as (d & Hd);
      pose proof (identify_nonempty path w0) as Hne;
      destruct (identify_plant_from_path path w0) as [r w1]
  end.
  cbn in Hd, Hne. subst r.
  destruct d as [e|rs].
  - rewrite edit_works. eexists. split; [reflexivity|].
    left. exists e. cbn [trace]. apply last_snoc.
  - destruct rs as [|top rs]; [by destruct (Hne [])|].
    unfold bind at 1. rewrite edit_works.
    unfold bind at 1. unfold ret at 1.
    unfold bind at 1.
    match goal with
    | |- context [bot_reply_to env message ?t ?md ?w0] =>
        destruct (reply_works message t md w0) as (sent & ->)
    end.
    unfold bind at 1.
    match goal with
    | |- context [get_plant_persona top ?w0] =>
        destruct (persona_returns top w0) as (plant_message & Hp);
        destruct (get_plant_persona top w0) as [r w2]
    end.
    cbn in Hp. subst r.
    unfold bind at 1.
    match goal with
    | |- context [bot_reply_to env message ?t ?md ?w0] =>
        destruct (reply_works message t md w0) as (sent' & ->)
    end.
    unfold ret. eexists. split; [reflexivity|].
    right. exists plant_message. cbn [trace]. apply last_snoc.
Qed.

Lemma persona_handle_photo_works message w :
  Message.photo message <> [] ->
  answers_as_plant env
    (persona_handlers.handle_photo env name_of confidence_of
       identify_plant_from_path get_plant_persona)
    message w.
Proof.
  intros Hphoto. unfold answers_as_plant.
  rewrite persona_handle_photo_frame. unfold photo_handler.
  destruct (persona_receive_photo_works message w Hphoto)
    as (pm & data & w1 & -> & Hpm).
  cbv zeta.
  destruct (try_finally_cleanup
              (try_except
                 (persona_handlers.identify_and_reply env name_of
                    confidence_of identify_plant_from_path get_plant_persona
                    message pm data (temp_photo_path message))
                 (persona_handlers.report_error env message))
              message (Some (temp_photo_path message)) w1) as [-> ->].
  unfold try_except.
  destruct (persona_identify_and_reply_works message pm data
              (temp_photo_path message) w1) as (w2 & -> & Hlast).
  split; [done|]. by exists pm.
Qed.
End PersonaHandlerWorks.

Lemma two_forms_nonempty {P} (cause : Prop) (o : Outcome (IdentifyResult P))
    (rs : list P) :
  two_forms cause o -> o = Returns (Success rs) -> rs <> [].
Proof.
  intros (d & -> & _ & Hne) [= ->]. by apply Hne.
Qed.


